(** * strava-haddock: a shallow embedding of [haddock.py] and [auth.py]

    The two scripts are CLI glue over two HTTP services.  The embedding
    keeps the program's own shape:

    - Python values that travel through the code (JSON documents, the
      credentials read with [os.getenv]) are values of [pyval];
      a JSON object is a [gmap string pyval], a Python [float] is a
      binary64 primitive float, a Python [int] is a [Z];
    - a Python [str] is a [string] holding its UTF-8 encoding;
    - code that may raise returns a [result]; code that touches the
      module globals, the [.env] file, the terminal or the network is a
      computation of the monad [M], which threads a [state] and stops at
      the first exception;
    - the remote services are oracles: total functions from the events
      seen so far and the request to an answer. *)

From Stdlib Require Import ZArith String Ascii List Floats Lia Bool.
From Stdlib Require Import Numbers.DecimalString.
From stdpp Require Import base option gmap strings.

#[local] Set Warnings "-register-all,-inexact-float".
#[local] Open Scope string_scope.
#[local] Open Scope Z_scope.

(** ** Exceptions and results *)

Inductive exn : Type :=
| TypeError
| ValueError
| OverflowError
| ZeroDivisionError
| AttributeError
| IndexError
| KeyError (key : string)
| HTTPError (status_code : Z) (text : string)
| ConnectionError
| JSONDecodeError
| APIError (message : string)
| OtherError (name : string).

Inductive result (A : Type) : Type :=
| Ok (a : A)
| Raise (e : exn).
Arguments Ok {A} a.
Arguments Raise {A} e.

Definition rbind {A B} (r : result A) (k : A -> result B) : result B :=
  match r with
  | Ok a => k a
  | Raise e => Raise e
  end.

Declare Scope result_scope.
Delimit Scope result_scope with res.
Notation "x <- r ;; k" := (rbind r (fun x => k))
  (at level 100, r at next level, right associativity) : result_scope.

(** ** Python values *)

Inductive pyval : Type :=
| PNone
| PBool (b : bool)
| PInt (z : Z)
| PFloat (f : float)
| PStr (s : string)
| PList (l : list pyval)
| PDict (d : gmap string pyval).

(** ** Strings: the [str] methods the scripts call *)

Definition chr (n : nat) : string := String (ascii_of_nat n) EmptyString.
Definition NL : string := chr 10.
Definition DQ : string := chr 34.

(** [str(n)] for an [int]. *)
Definition str_of_Z (z : Z) : string := NilEmpty.string_of_int (Z.to_int z).

(** [f"{n:02d}"]: sign-aware zero padding to width two. *)
Definition format_02d (z : Z) : string :=
  let s := str_of_Z z in
  if (String.length s <? 2)%nat then "0" +:+ s else s.

(** [sep.join(parts)]. *)
Definition join (sep : string) (parts : list string) : string :=
  String.concat sep parts.

(** [s.startswith(p)]. *)
Definition startswith (p s : string) : bool := String.prefix p s.

(** The text left after dropping [n] characters: [s[n:]] for [0 <= n]. *)
Fixpoint drop_str (n : nat) (s : string) : string :=
  match n, s with
  | O, _ => s
  | S _, EmptyString => EmptyString
  | S n', String _ s' => drop_str n' s'
  end.

(** [s[:n]] for [0 <= n]. *)
Fixpoint take_str (n : nat) (s : string) : string :=
  match n, s with
  | O, _ => EmptyString
  | S _, EmptyString => EmptyString
  | S n', String c s' => String c (take_str n' s')
  end.

(** [s.find(p)]: the index of the first occurrence, [None] for Python's -1. *)
Fixpoint str_find (p s : string) : option nat :=
  if String.prefix p s then Some O
  else match s with
       | EmptyString => None
       | String _ s' => option_map S (str_find p s')
       end.

(** [p in s]. *)
Definition contains (p s : string) : bool :=
  match str_find p s with Some _ => true | None => false end.

(** [s.split("\n")]: the pieces between line feeds, never an empty list. *)
Fixpoint split_lines (s : string) : list string :=
  match s with
  | EmptyString => [EmptyString]
  | String c s' =>
      if Ascii.eqb c (ascii_of_nat 10) then EmptyString :: split_lines s'
      else match split_lines s' with
           | l :: ls => String c l :: ls
           | [] => [String c EmptyString]
           end
  end.

(** [s.replace(p, "")] for a non-empty [p]: the occurrences of [p] are
    removed left to right, without overlap.  [fuel] bounds the scan and
    is the length of [s] at the call. *)
Fixpoint remove_all_fuel (fuel : nat) (p s : string) : string :=
  match fuel with
  | O => s
  | S fuel' =>
      if String.prefix p s then remove_all_fuel fuel' p (drop_str (String.length p) s)
      else match s with
           | EmptyString => EmptyString
           | String c s' => String c (remove_all_fuel fuel' p s')
           end
  end.

Definition remove_all (p s : string) : string :=
  remove_all_fuel (String.length s) p s.

(** White space as [str.strip()] sees it.  A code point below 128 is
    one byte; the others that Python treats as white space (U+0085,
    U+00A0, U+1680, U+2000..U+200A, U+2028, U+2029, U+202F, U+205F,
    U+3000) are two or three bytes of UTF-8.  [ws_prefix s] is the
    number of bytes of the white-space code point [s] starts with, or 0. *)
Definition is_ascii_space (c : ascii) : bool :=
  let n := nat_of_ascii c in
  ((9 <=? n) && (n <=? 13) || (28 <=? n) && (n <=? 32))%nat.

Definition ws_prefix (s : string) : nat :=
  match s with
  | EmptyString => O
  | String c1 s1 =>
      if is_ascii_space c1 then 1%nat
      else
        match nat_of_ascii c1, s1 with
        | 194%nat, String c2 _ =>
            let n2 := nat_of_ascii c2 in
            if ((n2 =? 133) || (n2 =? 160))%nat then 2%nat else O
        | 225%nat, String c2 (String c3 _) =>
            if ((nat_of_ascii c2 =? 154) && (nat_of_ascii c3 =? 128))%nat then 3%nat else O
        | 226%nat, String c2 (String c3 _) =>
            let n2 := nat_of_ascii c2 in
            let n3 := nat_of_ascii c3 in
            if ((n2 =? 128) && ((128 <=? n3) && (n3 <=? 138)
                                || (n3 =? 168) || (n3 =? 169) || (n3 =? 175))
                || (n2 =? 129) && (n3 =? 159))%nat
            then 3%nat else O
        | 227%nat, String c2 (String c3 _) =>
            if ((nat_of_ascii c2 =? 128) && (nat_of_ascii c3 =? 128))%nat then 3%nat else O
        | _, _ => O
        end
  end.

Fixpoint lstrip_fuel (fuel : nat) (s : string) : string :=
  match fuel with
  | O => s
  | S fuel' =>
      match ws_prefix s with
      | O => s
      | n => lstrip_fuel fuel' (drop_str n s)
      end
  end.

(** [s.lstrip()]. *)
Definition lstrip (s : string) : string := lstrip_fuel (String.length s) s.

Definition rev_str (s : string) : string :=
  string_of_list_ascii (rev (list_ascii_of_string s)).

(** The same test read from the right end: [ws_suffix_rev r] looks at the
    reversed text, so the bytes of a code point come last byte first. *)
Definition ws_suffix_rev (r : string) : nat :=
  match r with
  | EmptyString => O
  | String c1 r1 =>
      if is_ascii_space c1 then 1%nat
      else
        match r1 with
        | String c2 r2 =>
            if (ws_prefix (String c2 (String c1 EmptyString)) =? 2)%nat then 2%nat
            else match r2 with
                 | String c3 _ =>
                     if (ws_prefix (String c3 (String c2 (String c1 EmptyString))) =? 3)%nat
                     then 3%nat else O
                 | EmptyString => O
                 end
        | EmptyString => O
        end
  end.

Fixpoint rstrip_rev_fuel (fuel : nat) (r : string) : string :=
  match fuel with
  | O => r
  | S fuel' =>
      match ws_suffix_rev r with
      | O => r
      | n => rstrip_rev_fuel fuel' (drop_str n r)
      end
  end.

(** [s.rstrip()]. *)
Definition rstrip (s : string) : string :=
  rev_str (rstrip_rev_fuel (String.length s) (rev_str s)).

(** [s.strip()]. *)
Definition strip (s : string) : string := rstrip (lstrip s).

(** ** Numbers: Python's [int] and [float] arithmetic *)

(** A [float] is a binary64 value.  Its arithmetic is IEEE 754's, which
    the library states on [spec_float]: the functions below decode a
    primitive float with [Prim2SF] and compute on the decoded form. *)
Definition fadd : spec_float -> spec_float -> spec_float := SFadd prec emax.
Definition fsub : spec_float -> spec_float -> spec_float := SFsub prec emax.
Definition fmul : spec_float -> spec_float -> spec_float := SFmul prec emax.
Definition fdiv : spec_float -> spec_float -> spec_float := SFdiv prec emax.

(** [float(n)] for an [int]: the nearest binary64 value, ties to even;
    an infinite result stands for Python's [OverflowError]. *)
Definition float_of_Z (z : Z) : spec_float := binary_normalize prec emax z 0 false.

Definition is_finite_float (x : spec_float) : bool :=
  match x with
  | S754_zero _ | S754_finite _ _ _ => true
  | S754_infinity _ | S754_nan => false
  end.

(** The comparisons with zero that the C code makes: [x != 0.0] and
    [x < 0]. *)
Definition nonzero (x : spec_float) : bool :=
  match x with
  | S754_zero _ => false
  | _ => true
  end.

Definition is_negative (x : spec_float) : bool :=
  match x with
  | S754_finite s _ _ | S754_infinity s => s
  | _ => false
  end.

Definition sign_bit (x : spec_float) : bool :=
  match x with
  | S754_zero s | S754_finite s _ _ | S754_infinity s => s
  | S754_nan => false
  end.

(** C's [fmod]: exact, with the sign of the dividend.  The result is
    [r * 2^e] with the mantissa as the division leaves it. *)
Definition c_fmod (x y : spec_float) : spec_float :=
  match x, y with
  | S754_nan, _ | _, S754_nan => S754_nan
  | S754_infinity _, _ => S754_nan
  | _, S754_zero _ => S754_nan
  | S754_zero _, _ => x
  | S754_finite _ _ _, S754_infinity _ => x
  | S754_finite sx mx ex, S754_finite _ my ey =>
      let e := Z.min ex ey in
      match (Zpos mx * 2 ^ (ex - e)) mod (Zpos my * 2 ^ (ey - e)) with
      | Zpos r => S754_finite sx r e
      | _ => S754_zero sx
      end
  end.

(** C's [floor] on a double. *)
Definition c_floor (x : spec_float) : spec_float :=
  match x with
  | S754_finite s m e =>
      if 0 <=? e then x
      else
        let q := Zpos m / 2 ^ (- e) in
        let exact := Zpos m mod 2 ^ (- e) =? 0 in
        if s then SFopp (float_of_Z (if exact then q else q + 1))
        else float_of_Z q
  | _ => x
  end.

(** C's [copysign(0.0, x)]. *)
Definition copysign_zero (x : spec_float) : spec_float := S754_zero (sign_bit x).

Definition f_one : spec_float := float_of_Z 1.
Definition f_half : spec_float := Prim2SF 0.5.

(** CPython's [_float_div_mod], for a non-zero divisor [wx]: the pair
    [(vx // wx, vx % wx)]. *)
Definition float_div_mod (vx wx : spec_float) : spec_float * spec_float :=
  let mod0 := c_fmod vx wx in
  let div0 := fdiv (fsub vx mod0) wx in
  let '(div1, mod1) :=
    if nonzero mod0 then
      (* ensure the remainder has the same sign as the denominator *)
      if negb (Bool.eqb (is_negative wx) (is_negative mod0))
      then (fsub div0 f_one, fadd mod0 wx)
      else (div0, mod0)
    else (div0, copysign_zero wx) in
  let floordiv :=
    (* snap quotient to nearest integral value *)
    if nonzero div1 then
      let fl := c_floor div1 in
      if SFltb f_half (fsub div1 fl) then fadd fl f_one else fl
    else copysign_zero (fdiv vx wx) in
  (floordiv, mod1).

(** CPython's [float_rem], for a non-zero divisor [wx]: [vx % wx]. *)
Definition float_rem (vx wx : spec_float) : spec_float :=
  let mod0 := c_fmod vx wx in
  if nonzero mod0 then
    if negb (Bool.eqb (is_negative wx) (is_negative mod0)) then fadd mod0 wx else mod0
  else copysign_zero wx.

(** [int(x)] for a [float]: truncation toward zero. *)
Definition int_of_float (x : spec_float) : result Z :=
  match x with
  | S754_nan => Raise ValueError
  | S754_infinity _ => Raise OverflowError
  | S754_zero _ => Ok 0
  | S754_finite s m e =>
      let a := if 0 <=? e then Zpos m * 2 ^ e else Zpos m / 2 ^ (- e) in
      Ok (if s then - a else a)
  end.

(** The numbers among the Python values; a [bool] is an [int]. *)
Inductive num : Type :=
| NInt (z : Z)
| NFloat (f : spec_float).

Definition as_num (v : pyval) : result num :=
  match v with
  | PBool b => Ok (NInt (Z.b2z b))
  | PInt z => Ok (NInt z)
  | PFloat f => Ok (NFloat (Prim2SF f))
  | _ => Raise TypeError
  end.

(** The conversion Python applies to the [int] operand of a mixed
    [int]/[float] operation. *)
Definition to_float (n : num) : result spec_float :=
  match n with
  | NFloat f => Ok f
  | NInt z =>
      let f := float_of_Z z in
      if is_finite_float f then Ok f else Raise OverflowError
  end.

(** [x / y] where one side is a [float]. *)
Definition float_truediv (x y : spec_float) : result spec_float :=
  if nonzero y then Ok (fdiv x y) else Raise ZeroDivisionError.

(** [n // k] and [n % k] for an [int] constant [k <> 0]; a [float]
    operand makes the operation a [float] one. *)
Definition num_floordiv (n : num) (k : Z) : num :=
  match n with
  | NInt z => NInt (z / k)
  | NFloat f => NFloat (fst (float_div_mod f (float_of_Z k)))
  end.

Definition num_mod (n : num) (k : Z) : num :=
  match n with
  | NInt z => NInt (z mod k)
  | NFloat f => NFloat (float_rem f (float_of_Z k))
  end.

(** [int(n)]. *)
Definition py_int (n : num) : result Z :=
  match n with
  | NInt z => Ok z
  | NFloat f => int_of_float f
  end.

(** Truth value testing: [bool(v)]. *)
Definition truthy (v : pyval) : bool :=
  match v with
  | PNone => false
  | PBool b => b
  | PInt z => negb (z =? 0)
  | PFloat f => nonzero (Prim2SF f)
  | PStr s => negb (String.eqb s "")
  | PList l => match l with [] => false | _ => true end
  | PDict d => negb (bool_decide (d = ∅))
  end.

(** [v == 0]. *)
Definition eq_zero (v : pyval) : bool :=
  match v with
  | PBool b => negb b
  | PInt z => z =? 0
  | PFloat f => negb (nonzero (Prim2SF f))
  | _ => false
  end.

(** ** Fixed-point formatting: [f"{x:.pf}"] *)

(** The integer nearest to [a / 2^k], ties to even. *)
Definition round_half_even_shift (a : Z) (k : Z) : Z :=
  let q := a / 2 ^ k in
  let r := a mod 2 ^ k in
  match 2 * r ?= 2 ^ k with
  | Lt => q
  | Gt => q + 1
  | Eq => if Z.even q then q else q + 1
  end.

Fixpoint zeros (n : nat) : string :=
  match n with
  | O => ""
  | S n' => "0" +:+ zeros n'
  end.

(** The decimal digits of [n >= 0] with the point before the last [p]. *)
Definition with_point (p : nat) (n : Z) : string :=
  let digits := str_of_Z n in
  let padded := zeros (S p - String.length digits) +:+ digits in
  let k := (String.length padded - p)%nat in
  match p with
  | O => padded
  | _ => take_str k padded +:+ "." +:+ drop_str k padded
  end.

Definition format_fixed_float (p : nat) (x : spec_float) : string :=
  match x with
  | S754_nan => "nan"
  | S754_infinity s => if s then "-inf" else "inf"
  | S754_zero s => (if s then "-" else "") +:+ with_point p 0
  | S754_finite s m e =>
      let scaled := Zpos m * 10 ^ Z.of_nat p in
      let n := if 0 <=? e then scaled * 2 ^ e else round_half_even_shift scaled (- e) in
      (if s then "-" else "") +:+ with_point p n
  end.

(** [f"{v:.pf}"]: an [int] is converted to [float] first; [str], [None]
    and the containers reject the format code. *)
Definition format_fixed (p : nat) (v : pyval) : result string :=
  match v with
  | PBool _ | PInt _ | PFloat _ =>
      (n <- as_num v ;; f <- to_float n ;; Ok (format_fixed_float p f))%res
  | PStr _ => Raise ValueError
  | _ => Raise TypeError
  end.

(** [d.get(k, dflt)] on a value that should be a [dict]. *)
Definition py_get (v : pyval) (k : string) (dflt : pyval) : result pyval :=
  match v with
  | PDict d => Ok (default dflt (d !! k))
  | _ => Raise AttributeError
  end.

(** [v[k]] for a [str] key. *)
Definition py_getitem (v : pyval) (k : string) : result pyval :=
  match v with
  | PDict d =>
      match d !! k with
      | Some x => Ok x
      | None => Raise (KeyError k)
      end
  | _ => Raise TypeError
  end.

(** [x * c] for a [float] constant [c]. *)
Definition py_mul_float (v : pyval) (c : float) : result spec_float :=
  (n <- as_num v ;; f <- to_float n ;; Ok (fmul f (Prim2SF c)))%res.

(** [s[:n]] counts code points: the bytes [10xxxxxx] continue the
    code point before them. *)
Definition is_continuation (c : ascii) : bool :=
  let n := nat_of_ascii c in ((128 <=? n) && (n <? 192))%nat.

Fixpoint take_codepoints (n : nat) (s : string) : string :=
  match s with
  | EmptyString => EmptyString
  | String c s' =>
      if is_continuation c then String c (take_codepoints n s')
      else match n with
           | O => EmptyString
           | S n' => String c (take_codepoints n' s')
           end
  end.

(** [v[:10]]. *)
Definition py_slice10 (v : pyval) : result pyval :=
  match v with
  | PStr s => Ok (PStr (take_codepoints 10 s))
  | PList l => Ok (PList (take 10 l))
  | _ => Raise TypeError
  end.

(** [v[0]]. *)
Definition py_first (v : pyval) : result pyval :=
  match v with
  | PList (x :: _) => Ok x
  | PList [] => Raise IndexError
  | PStr EmptyString => Raise IndexError
  | PStr s => Ok (PStr (take_codepoints 1 s))
  | PDict _ => Raise (KeyError "0")
  | _ => Raise TypeError
  end.

(** What [for x in v] walks through. *)
Definition py_iter (v : pyval) : result (list pyval) :=
  match v with
  | PList l => Ok l
  | PDict d => Ok (map (fun kv => PStr (fst kv)) (map_to_list d))
  | PStr s => Ok (map (fun c => PStr (String c EmptyString)) (list_ascii_of_string s))
  | _ => Raise TypeError
  end.

(** ** The outside world: HTTP, the credential file, the terminal *)

(** The keyword arguments the scripts pass to [requests]. *)
Inductive payload : Type :=
| NoPayload
| QueryParams (kv : list (string * pyval))
| JsonBody (kv : list (string * pyval))
| FormData (kv : list (string * pyval)).

Record request : Type := mkRequest {
  method : string;
  url : string;
  authorization : option string;
  kwargs : payload
}.

(** A response: [json] is [None] when the body is not a JSON document. *)
Record response : Type := mkResponse {
  status_code : Z;
  text : string;
  json : option pyval
}.

(** [response.raise_for_status()]: the statuses 400 to 599 raise. *)
Definition raise_for_status (r : response) : result unit :=
  if (400 <=? status_code r) && (status_code r <? 600)
  then Raise (HTTPError (status_code r) (text r)) else Ok tt.

(** [response.json()]. *)
Definition response_json (r : response) : result pyval :=
  match json r with
  | Some v => Ok v
  | None => Raise JSONDecodeError
  end.

Inductive event : Type :=
| EvPrint (line : string)
| EvStravaRequest (method endpoint : string) (kwargs : payload)
| EvHttp (req : request) (answer : result response)
| EvSetKey (key value : string)
| EvLLM (prompt : string) (answer : result string)
| EvBrowser (url : string)
| EvListen
| EvServe (path : string) (status : Z)
| EvServerClose.

(** [l.append(x)]. *)
Definition append {A} (l : list A) (x : A) : list A := (l ++ [x])%list.

(** [f"{v}"], that is [str(v)]; [repr] is the interpreter's text for a
    [float], a [list] or a [dict]. *)
Definition py_str_with (repr : pyval -> string) (v : pyval) : string :=
  match v with
  | PNone => "None"
  | PBool b => if b then "True" else "False"
  | PInt z => str_of_Z z
  | PStr s => s
  | _ => repr v
  end.

(** ** Computations with state and exceptions *)

(** A computation over a state [S]: it ends in a value or an exception,
    and in a state. *)
Definition prog (S A : Type) : Type := S -> result A * S.

Definition ret {S A} (a : A) : prog S A := fun st => (Ok a, st).

Definition bind {S A B} (m : prog S A) (k : A -> prog S B) : prog S B :=
  fun st =>
    match m st with
    | (Ok a, st') => k a st'
    | (Raise e, st') => (Raise e, st')
    end.

Definition lift {S A} (r : result A) : prog S A := fun st => (r, st).

Definition read {S A} (f : S -> A) : prog S A := fun st => (Ok (f st), st).

Declare Scope prog_scope.
Delimit Scope prog_scope with prog.
Notation "x <- m ;; k" := (bind m (fun x => k))
  (at level 100, m at next level, right associativity) : prog_scope.
Notation "m ;;; k" := (bind m (fun _ => k))
  (at level 100, right associativity) : prog_scope.

(** * haddock.py *)

Module Haddock.

Section Program.

(** [str(v)] for the values whose text no function of the script
    inspects: a [float], a [list], a [dict].  It is the interpreter's. *)
Variable py_repr : pyval -> string.
#[local] Abbreviation py_str := (py_str_with py_repr).

(** ** Formatting helpers *)

Definition format_pace (meters_per_second : pyval) : result string :=
  if negb (truthy meters_per_second) || eq_zero meters_per_second then Ok "N/A"
  else
    (n <- as_num meters_per_second ;;
     f <- to_float n ;;
     seconds_per_mile <- float_truediv (Prim2SF 1609.34) f ;;
     minutes <- py_int (num_floordiv (NFloat seconds_per_mile) 60) ;;
     seconds <- py_int (num_mod (NFloat seconds_per_mile) 60) ;;
     Ok (str_of_Z minutes +:+ ":" +:+ format_02d seconds +:+ " /mi"))%res.

Definition format_distance (meters : pyval) : result string :=
  (n <- as_num meters ;;
   f <- to_float n ;;
   miles <- float_truediv f (Prim2SF 1609.34) ;;
   Ok (format_fixed_float 2 miles +:+ " mi"))%res.

Definition format_duration (seconds : pyval) : result string :=
  (n <- as_num seconds ;;
   hours <- py_int (num_floordiv n 3600) ;;
   minutes <- py_int (num_floordiv (num_mod n 3600) 60) ;;
   secs <- py_int (num_mod n 60) ;;
   let parts : list string := [] in
   let parts := if negb (hours =? 0) then append parts (str_of_Z hours +:+ "h") else parts in
   let parts := if negb (minutes =? 0) then append parts (str_of_Z minutes +:+ "m") else parts in
   let parts :=
     if negb (secs =? 0) || match parts with [] => true | _ => false end
     then append parts (str_of_Z secs +:+ "s") else parts in
   Ok (join " " parts))%res.

(** ** The workout summary *)

(** [x in ["Run", "VirtualRun"]]. *)
Definition is_run_type (v : pyval) : bool :=
  match v with
  | PStr s => String.eqb s "Run" || String.eqb s "VirtualRun"
  | _ => false
  end.

Definition build_workout_summary (activity : pyval) : result string :=
  (let lines : list string := [] in
   (* Basic info *)
   type <- py_get activity "type" (PStr "Workout") ;;
   let lines := append lines ("Activity Type: " +:+ py_str type) in
   name <- py_get activity "name" (PStr "Untitled") ;;
   let lines := append lines ("Original Title: " +:+ py_str name) in
   (* Duration *)
   elapsed <- py_get activity "elapsed_time" (PInt 0) ;;
   duration <- format_duration elapsed ;;
   let lines := append lines ("Duration: " +:+ duration) in
   (* Distance (if applicable) *)
   distance <- py_get activity "distance" (PInt 0) ;;
   lines <- (if truthy distance
             then d <- format_distance distance ;; Ok (append lines ("Distance: " +:+ d))
             else Ok lines) ;;
   (* Pace (for runs) *)
   avg_speed <- py_get activity "average_speed" (PInt 0) ;;
   run_type <- py_get activity "type" PNone ;;
   lines <- (if truthy avg_speed && is_run_type run_type
             then p <- format_pace avg_speed ;; Ok (append lines ("Pace: " +:+ p))
             else Ok lines) ;;
   (* Heart rate *)
   avg_hr <- py_get activity "average_heartrate" PNone ;;
   max_hr <- py_get activity "max_heartrate" PNone ;;
   lines <- (if truthy avg_hr
             then h <- format_fixed 0 avg_hr ;;
                  Ok (append lines ("Average Heart Rate: " +:+ h +:+ " bpm"))
             else Ok lines) ;;
   lines <- (if truthy max_hr
             then h <- format_fixed 0 max_hr ;;
                  Ok (append lines ("Max Heart Rate: " +:+ h +:+ " bpm"))
             else Ok lines) ;;
   (* Calories *)
   calories <- py_get activity "calories" PNone ;;
   lines <- (if truthy calories
             then c <- format_fixed 0 calories ;; Ok (append lines ("Calories: " +:+ c))
             else Ok lines) ;;
   (* Elevation *)
   elevation <- py_get activity "total_elevation_gain" (PInt 0) ;;
   lines <- (if truthy elevation
             then feet <- py_mul_float elevation 3.28084 ;;
                  Ok (append lines ("Elevation Gain: " +:+ format_fixed_float 0 feet +:+ " ft"))
             else Ok lines) ;;
   (* Peloton-specific: check description for extra data *)
   description <- py_get activity "description" (PStr "") ;;
   let lines :=
     if truthy description
     then append lines ("Original Description: " +:+ py_str description)
     else lines in
   Ok (join NL lines))%res.

(** ** State and effects *)

(** The module globals, the [.env] file and everything observable the
    run has done so far. *)
Record state : Type := mkState {
  STRAVA_CLIENT_ID : pyval;
  STRAVA_CLIENT_SECRET : pyval;
  STRAVA_ACCESS_TOKEN : pyval;
  STRAVA_REFRESH_TOKEN : pyval;
  ANTHROPIC_API_KEY : pyval;
  dotenv : gmap string string;
  trace : list event
}.

Definition log (ev : event) (st : state) : state :=
  mkState (STRAVA_CLIENT_ID st) (STRAVA_CLIENT_SECRET st) (STRAVA_ACCESS_TOKEN st)
    (STRAVA_REFRESH_TOKEN st) (ANTHROPIC_API_KEY st) (dotenv st) (trace st ++ [ev])%list.

Definition with_access_token (t : pyval) (st : state) : state :=
  mkState (STRAVA_CLIENT_ID st) (STRAVA_CLIENT_SECRET st) t
    (STRAVA_REFRESH_TOKEN st) (ANTHROPIC_API_KEY st) (dotenv st) (trace st).

Definition with_dotenv (f : gmap string string) (st : state) : state :=
  mkState (STRAVA_CLIENT_ID st) (STRAVA_CLIENT_SECRET st) (STRAVA_ACCESS_TOKEN st)
    (STRAVA_REFRESH_TOKEN st) (ANTHROPIC_API_KEY st) f (trace st).

#[local] Abbreviation M := (prog state).

(** The remote services.  [http tr req] is what [requests] gets for
    [req] after the events [tr]: a response, or the exception it raises.
    [llm tr prompt] is the text of the first content block of the
    model's message, or the exception the client raises. *)
Variable http : list event -> request -> result response.
Variable llm : list event -> string -> result string.

(** Recording an event. *)
Definition note (ev : event) : M unit := fun st => (Ok tt, log ev st).

Definition print (line : string) : M unit := note (EvPrint line).

(** [requests.request(...)] / [requests.post(...)]. *)
Definition requests_request (req : request) : M response :=
  fun st =>
    let answer := http (trace st) req in
    (answer, log (EvHttp req answer) st).

(** [set_key(env_path, key, value)] of python-dotenv: the value is
    written as text, anything but a [str] has no [replace] method. *)
Definition set_key (key : string) (value : pyval) : M unit :=
  fun st =>
    match value with
    | PStr s => (Ok tt, log (EvSetKey key s) (with_dotenv (<[key := s]> (dotenv st)) st))
    | _ => (Raise AttributeError, st)
    end.

(** The assignment [STRAVA_ACCESS_TOKEN = t] under [global]. *)
Definition set_access_token (t : pyval) : M unit :=
  fun st => (Ok tt, with_access_token t st).

Definition STRAVA_API_BASE : string := "https://www.strava.com/api/v3".

Definition refresh_access_token : M pyval :=
  (client_id <- read STRAVA_CLIENT_ID ;;
   client_secret <- read STRAVA_CLIENT_SECRET ;;
   refresh_token <- read STRAVA_REFRESH_TOKEN ;;
   response <-
     requests_request
       (mkRequest "POST" "https://www.strava.com/oauth/token" None
          (FormData [("client_id", client_id);
                     ("client_secret", client_secret);
                     ("grant_type", PStr "refresh_token");
                     ("refresh_token", refresh_token)])) ;;
   lift (raise_for_status response) ;;;
   tokens <- lift (response_json response) ;;
   (* Update .env with new tokens *)
   access <- lift (py_getitem tokens "access_token") ;;
   set_key "STRAVA_ACCESS_TOKEN" access ;;;
   refresh <- lift (py_getitem tokens "refresh_token") ;;
   set_key "STRAVA_REFRESH_TOKEN" refresh ;;;
   lift (py_getitem tokens "access_token"))%prog.

Definition bearer (token : pyval) : option string :=
  Some ("Bearer " +:+ py_str token).

(** [EvStravaRequest] marks the entry into the wrapper; nothing is sent
    by it. *)
Definition strava_request (method endpoint : string) (kwargs : payload) : M pyval :=
  (note (EvStravaRequest method endpoint kwargs) ;;;
   token <- read STRAVA_ACCESS_TOKEN ;;
   let headers := bearer token in
   let url := STRAVA_API_BASE +:+ endpoint in
   response <- requests_request (mkRequest method url headers kwargs) ;;
   (* Token expired - refresh and retry *)
   response <-
     (if status_code response =? 401 then
        print "Token expired, refreshing..." ;;;
        token <- refresh_access_token ;;
        set_access_token token ;;;
        let headers := bearer token in
        requests_request (mkRequest method url headers kwargs)
      else ret response) ;;
   lift (raise_for_status response) ;;;
   lift (response_json response))%prog.

Definition get_last_N_activities (last_n : Z) : M pyval :=
  (activities <- strava_request "GET" "/athlete/activities" (QueryParams [("per_page", PInt last_n)]) ;;
   if negb (truthy activities) then ret PNone
   else ret activities)%prog.

Definition get_latest_activity : M pyval :=
  (activities <- strava_request "GET" "/athlete/activities" (QueryParams [("per_page", PInt 1)]) ;;
   if negb (truthy activities) then ret PNone
   else lift (py_first activities))%prog.

Definition get_activity (activity_id : Z) : M pyval :=
  strava_request "GET" ("/activities/" +:+ str_of_Z activity_id) NoPayload.

(** ** Persona transformation *)

(** The prompt of [haddockify] up to the workout data. *)
Definition prompt_head : string :=
  join NL [
    "You are Captain Haddock from the Tintin comics. You've just completed a workout and need to log it in your exercise journal.";
    "";
    "Rewrite this workout summary in your authentic voice with the following guidelines:";
    "";
    "VARIETY IN OPENING:";
    "- Vary your narrative approach each time - don't always start with an exclamation";
    "- Options: Start with action (" +:+ DQ +:+ "Dragged myself..." +:+ DQ +:+ "), reflection (" +:+ DQ +:+ "Well, that was..." +:+ DQ +:+ "), boastful statement (" +:+ DQ +:+ "Another conquest..." +:+ DQ +:+ "), or grumbling (" +:+ DQ +:+ "Of all the..." +:+ DQ +:+ ")";
    "- Let the workout performance guide your mood";
    "";
    "NATURAL EXCLAMATIONS:";
    "- Tie exclamations to specific moments or metrics, not scattered randomly";
    "- Example: " +:+ DQ +:+ "My heart reached 185 bpm - thundering typhoons!" +:+ DQ +:+ " or " +:+ DQ +:+ "8 miles through this blasted heat - blistering barnacles!" +:+ DQ;
    "- Use 1-2 exclamations maximum - make them count";
    "- Vary intensity: save big multi-word ones (" +:+ DQ +:+ "Ten thousand thundering typhoons!" +:+ DQ +:+ ") for impressive achievements";
    "- Classic options: blistering barnacles, thundering typhoons, billions of blue blistering barnacles, by Neptune's beard, by Lucifer's whiskers";
    "";
    "TONE GUIDANCE:";
    "- Fast pace or long distance → proud, boastful";
    "- Struggled or slow → grumbling but determined";
    "- High heart rate → dramatic concern";
    "- Easy workout → casual, dismissive";
    "";
    "Keep it concise - a punchy title (under 10 words) and description (2-4 sentences). The humor comes from contrasting mundane fitness metrics with your dramatic seafaring personality.";
    "";
    "WORKOUT DATA:";
    ""
  ].

(** The prompt of [haddockify] after the workout data. *)
Definition prompt_tail : string :=
  join NL [
    "";
    "";
    "Respond in this exact format:";
    "TITLE: [your haddock-style title]";
    "DESCRIPTION: [your haddock-style description]"
  ].

(** The parsing half of [haddockify]: the loop over the lines, then the
    multi-line description. *)
Fixpoint parse_lines (lines : list string) (title description : string) : string * string :=
  match lines with
  | [] => (title, description)
  | line :: rest =>
      if startswith "TITLE:" line
      then parse_lines rest (strip (remove_all "TITLE:" line)) description
      else if startswith "DESCRIPTION:" line
      then parse_lines rest title (strip (remove_all "DESCRIPTION:" line))
      else parse_lines rest title description
  end.

Definition parse_response (response_text : string) : string * string :=
  let title := EmptyString in
  let description := EmptyString in
  let '(title, description) := parse_lines (split_lines response_text) title description in
  (* Handle multi-line descriptions *)
  let description :=
    if contains "DESCRIPTION:" response_text then
      match str_find "DESCRIPTION:" response_text with
      | Some i =>
          let desc_start := (i + String.length "DESCRIPTION:")%nat in
          strip (drop_str desc_start response_text)
      | None => description
      end
    else description in
  (title, description).

(** [client.messages.create(...).content[0].text]. *)
Definition messages_create (prompt : string) : M string :=
  fun st =>
    let answer := llm (trace st) prompt in
    (answer, log (EvLLM prompt answer) st).

Definition haddockify (workout_summary : string) : M (string * string) :=
  (let prompt := prompt_head +:+ workout_summary +:+ prompt_tail in
   response_text <- messages_create prompt ;;
   ret (parse_response response_text))%prog.

Definition update_activity (activity_id : pyval) (title description : string) : M pyval :=
  strava_request "PUT" ("/activities/" +:+ py_str activity_id)
    (JsonBody [("name", PStr title); ("description", PStr description)]).

(** ** The command line *)

Record args : Type := mkArgs {
  dry_run : bool;
  activity : option Z;
  activities : option Z
}.

(** [if args.activity:] on an [int] option of argparse. *)
Definition given (o : option Z) : bool :=
  match o with
  | Some z => negb (z =? 0)
  | None => false
  end.

(** How one turn of the [for] loop ends: it falls through to the next
    activity, or it executes [return]. *)
Inductive control : Type :=
| Next
| Return.

(** ["=" * 50]. *)
Definition rule : string :=
  "==================================================".

(** The body of the [for] loop of [main]. *)
Definition process_activity (a : args) (activity : pyval) : M control :=
  (activity_id <- lift (py_getitem activity "id") ;;
   original_title <- lift (py_get activity "name" (PStr "Untitled")) ;;
   print (NL +:+ "Original Activity: " +:+ py_str original_title) ;;;
   print ("ID: " +:+ py_str activity_id) ;;;
   type <- lift (py_get activity "type" PNone) ;;
   print ("Type: " +:+ py_str type) ;;;
   start_date <- lift (py_get activity "start_date_local" (PStr EmptyString)) ;;
   day <- lift (py_slice10 start_date) ;;
   print ("Date: " +:+ py_str day) ;;;
   (* Build summary and transform *)
   print (NL +:+ "Generating Captain Haddock version...") ;;;
   summary <- lift (build_workout_summary activity) ;;
   (fun st =>
      match haddockify summary st with
      | (Raise (APIError e), st') =>
          (print ("Error calling Claude API: " +:+ e) ;;; ret Return) st'
      | (Raise e, st') => (Raise e, st')
      | (Ok (new_title, new_description), st') =>
          (print (NL +:+ rule) ;;;
           print "HADDOCK VERSION:" ;;;
           print rule ;;;
           print ("Title: " +:+ new_title) ;;;
           print ("Description: " +:+ new_description) ;;;
           print rule ;;;
           (if dry_run a then
              print (NL +:+ "[DRY RUN - No changes made to Strava]")
            else
              print (NL +:+ "Updating Strava...") ;;;
              update_activity activity_id new_title new_description ;;;
              print "Done! Activity updated." ;;;
              print (NL +:+ "View it at: https://www.strava.com/activities/" +:+ py_str activity_id)) ;;;
           ret Next) st'
      end))%prog.

(** [for activity in activities: ...], left by [return] or an exception. *)
Fixpoint for_each_activity (a : args) (items : list pyval) : M unit :=
  match items with
  | [] => ret tt
  | activity :: rest =>
      (c <- process_activity a activity ;;
       match c with
       | Next => for_each_activity a rest
       | Return => ret tt
       end)%prog
  end.

Definition main (a : args) : M unit :=
  fun st =>
    (* Validate credentials *)
    if negb (truthy (STRAVA_ACCESS_TOKEN st)) then
      print "ERROR: No Strava access token. Run 'python auth.py' first." st
    else if negb (truthy (ANTHROPIC_API_KEY st))
            || match ANTHROPIC_API_KEY st with
               | PStr k => String.eqb k "your_anthropic_api_key_here"
               | _ => false
               end then
      (print "ERROR: Set ANTHROPIC_API_KEY in .env file" ;;;
       print "Get your key from: https://console.anthropic.com/")%prog st
    else
      ((* Fetch activity *)
       print "Fetching activity from Strava..." ;;;
       activities <-
         (if given (activity a) then
            activity <- get_activity (default 0 (activity a)) ;;
            ret (PList (append [] activity))
          else if given (activities a) then
            get_last_N_activities (default 0 (activities a))
          else
            activity <- get_latest_activity ;;
            ret (PList (append [] activity))) ;;
       if negb (truthy activities) then
         print "No activities found!"
       else
         items <- lift (py_iter activities) ;;
         for_each_activity a items)%prog st.

End Program.

End Haddock.

(** * auth.py *)

Module Auth.

Section Program.

Variable py_repr : pyval -> string.
#[local] Abbreviation py_str := (py_str_with py_repr).

(** [str(e)] for a caught exception: the library's message. *)
Variable str_exn : exn -> string.

Variable http : list event -> request -> result response.

Record state : Type := mkState {
  CLIENT_ID : pyval;
  CLIENT_SECRET : pyval;
  auth_code : pyval;
  dotenv : gmap string string;
  trace : list event
}.

#[local] Abbreviation M := (prog state).

Definition REDIRECT_URI : string := "http://localhost:8000/callback".
Definition SCOPES : string := "read,activity:read_all,activity:write".

Definition log (ev : event) (st : state) : state :=
  mkState (CLIENT_ID st) (CLIENT_SECRET st) (auth_code st) (dotenv st) (trace st ++ [ev])%list.

Definition note (ev : event) : M unit := fun st => (Ok tt, log ev st).
Definition print (line : string) : M unit := note (EvPrint line).

Definition set_auth_code (c : pyval) : M unit :=
  fun st => (Ok tt, mkState (CLIENT_ID st) (CLIENT_SECRET st) c (dotenv st) (trace st)).

Definition set_key (key : string) (value : pyval) : M unit :=
  fun st =>
    match value with
    | PStr s =>
        (Ok tt, log (EvSetKey key s)
                  (mkState (CLIENT_ID st) (CLIENT_SECRET st) (auth_code st)
                     (<[key := s]> (dotenv st)) (trace st)))
    | _ => (Raise AttributeError, st)
    end.

Definition requests_post (req : request) : M response :=
  fun st =>
    let answer := http (trace st) req in
    (answer, log (EvHttp req answer) st).

(** An inbound request as [do_GET] sees it after [urlparse] and
    [parse_qs]: the path, and for each query key the first of its values. *)
Definition inbound : Type := string * gmap string string.

(** [CallbackHandler.do_GET]. *)
Definition do_GET (r : inbound) : M unit :=
  (let '(path, params) := r in
   if String.eqb path "/callback" then
     match params !! "code" with
     | Some code => set_auth_code (PStr code) ;;; note (EvServe path 200)
     | None =>
         match params !! "error" with
         | Some _ => note (EvServe path 400)
         | None => note (EvServe path 404)
         end
     end
   else note (EvServe path 404))%prog.

Definition get_auth_url : M string :=
  (client_id <- read CLIENT_ID ;;
   ret ("https://www.strava.com/oauth/authorize"
        +:+ "?client_id=" +:+ py_str client_id
        +:+ "&redirect_uri=" +:+ REDIRECT_URI
        +:+ "&response_type=code"
        +:+ "&scope=" +:+ SCOPES))%prog.

Definition exchange_code_for_tokens (code : pyval) : M pyval :=
  (client_id <- read CLIENT_ID ;;
   client_secret <- read CLIENT_SECRET ;;
   response <-
     requests_post
       (mkRequest "POST" "https://www.strava.com/oauth/token" None
          (FormData [("client_id", client_id);
                     ("client_secret", client_secret);
                     ("code", code);
                     ("grant_type", PStr "authorization_code")])) ;;
   lift (raise_for_status response) ;;;
   lift (response_json response))%prog.

(** [while auth_code is None: server.handle_request()].  The requests
    that will arrive are [pending]; [false] is returned when the loop is
    still waiting after the last of them: the script then blocks. *)
Fixpoint wait_for_code (pending : list inbound) : M bool :=
  fun st =>
    match auth_code st with
    | PNone =>
        match pending with
        | [] => (Ok false, st)
        | r :: rest => (do_GET r ;;; wait_for_code rest)%prog st
        end
    | _ => (Ok true, st)
    end.

(** How a run of [main] ends when no exception escapes. *)
Inductive outcome : Type :=
| Returned
| Blocked.

(** ["=" * 60]. *)
Definition rule : string :=
  "============================================================".

(** The [try] block of [main] and its handler. *)
Definition exchange_and_save : M unit :=
  fun st =>
    let body : M unit :=
      (code <- read auth_code ;;
       tokens <- exchange_code_for_tokens code ;;
       access_token <- lift (py_getitem tokens "access_token") ;;
       refresh_token <- lift (py_getitem tokens "refresh_token") ;;
       athlete <- lift (py_get tokens "athlete" (PDict ∅)) ;;
       print EmptyString ;;;
       firstname <- lift (py_get athlete "firstname" (PStr EmptyString)) ;;
       lastname <- lift (py_get athlete "lastname" (PStr EmptyString)) ;;
       print ("Success! Authenticated as: " +:+ py_str firstname +:+ " " +:+ py_str lastname) ;;;
       print EmptyString ;;;
       (* Save to .env *)
       set_key "STRAVA_ACCESS_TOKEN" access_token ;;;
       set_key "STRAVA_REFRESH_TOKEN" refresh_token ;;;
       print "Tokens saved to .env file!" ;;;
       print EmptyString ;;;
       print "You can now run: python haddock.py")%prog in
    match body st with
    | (Raise (HTTPError code body_text), st') =>
        (print ("Error exchanging code: " +:+ str_exn (HTTPError code body_text)) ;;;
         print body_text)%prog st'
    | other => other
    end.

Definition main (pending : list inbound) : M outcome :=
  fun st =>
    if negb (truthy (CLIENT_ID st))
       || negb (truthy (CLIENT_SECRET st))
       || match CLIENT_SECRET st with
          | PStr s => String.eqb s "your_client_secret_here"
          | _ => false
          end then
      (print "ERROR: Please set STRAVA_CLIENT_ID and STRAVA_CLIENT_SECRET in .env file" ;;;
       print "Copy .env.example to .env and fill in your credentials." ;;;
       ret Returned)%prog st
    else
      (print rule ;;;
       print "Strava OAuth Authentication" ;;;
       print rule ;;;
       print EmptyString ;;;
       print "This will open your browser to authorize the app." ;;;
       print ("Requesting scopes: " +:+ SCOPES) ;;;
       print EmptyString ;;;
       auth_url <- get_auth_url ;;
       print "If browser doesn't open, visit this URL:" ;;;
       print auth_url ;;;
       print EmptyString ;;;
       (* Start local server *)
       note EvListen ;;;
       (* Open browser *)
       note (EvBrowser auth_url) ;;;
       print "Waiting for authorization..." ;;;
       (* Handle one request (the callback) *)
       got <- wait_for_code pending ;;
       if got : bool then
         note EvServerClose ;;;
         print EmptyString ;;;
         print "Got authorization code, exchanging for tokens..." ;;;
         exchange_and_save ;;;
         ret Returned
       else ret Blocked)%prog st.

End Program.

End Auth.

(** * Specification vocabulary

    The definitions of this part follow the words of the specification;
    the theorems below compare them with the program. *)

(** ** Duration: "Xh Ym Zs", zero-valued units omitted *)

Definition unit_part (x : Z) (u : string) : list string :=
  if x =? 0 then [] else [str_of_Z x +:+ u].

(** The seconds are shown when they are not zero, and also when nothing
    else is shown. *)
Definition seconds_part (h m s : Z) : list string :=
  if (s =? 0) && negb ((h =? 0) && (m =? 0)) then [] else [str_of_Z s +:+ "s"].

(** ** Pace *)

(** A speed is positive when it is a number above zero. *)
Definition positive_speed (v : pyval) : bool :=
  match (n <- as_num v ;; to_float n)%res with
  | Ok f => SFltb (S754_zero false) f
  | Raise _ => false
  end.

(** [x] is the rational [N / D]. *)
Definition exact_ratio (x : spec_float) (N D : Z) : Prop :=
  0 < D /\
  match x with
  | S754_zero _ => N = 0
  | S754_finite false m e =>
      if 0 <=? e then N = Zpos m * 2 ^ e * D else N * 2 ^ (- e) = Zpos m * D
  | _ => False
  end.

(** The binary64 number of a positive integer of at most 53 bits: its
    digits, shifted up to fill the mantissa. *)
Definition exact_float (V : positive) : spec_float :=
  let d := Zpos (digits2_pos V) in
  S754_finite false (Z.to_pos (Zpos V * 2 ^ (53 - d))) (d - 53).

(** ** Summary: a table of rows, each shown or not *)

Inductive row : Type :=
| mkRow (shown : bool) (label : string) (value : result string).

(** The shown rows as "Label: value" lines, in the order of the table;
    a value that cannot be formatted raises. *)
Fixpoint render (rows : list row) : result (list string) :=
  match rows with
  | [] => Ok []
  | mkRow shown label value :: rest =>
      if shown then
        (v <- value ;; ls <- render rest ;; Ok ((label +:+ ": " +:+ v) :: ls))%res
      else render rest
  end.

Definition field (d : gmap string pyval) (key : string) (dflt : pyval) : pyval :=
  default dflt (d !! key).

Definition summary_rows (py_repr : pyval -> string) (d : gmap string pyval) : list row :=
  let type := field d "type" (PStr "Workout") in
  let name := field d "name" (PStr "Untitled") in
  let elapsed := field d "elapsed_time" (PInt 0) in
  let distance := field d "distance" (PInt 0) in
  let avg_speed := field d "average_speed" (PInt 0) in
  let avg_hr := field d "average_heartrate" PNone in
  let max_hr := field d "max_heartrate" PNone in
  let calories := field d "calories" PNone in
  let elevation := field d "total_elevation_gain" (PInt 0) in
  let description := field d "description" (PStr EmptyString) in
  [ mkRow true "Activity Type" (Ok (py_str_with py_repr type));
    mkRow true "Original Title" (Ok (py_str_with py_repr name));
    mkRow true "Duration" (Haddock.format_duration elapsed);
    mkRow (truthy distance) "Distance" (Haddock.format_distance distance);
    mkRow (truthy avg_speed && Haddock.is_run_type (field d "type" PNone))
      "Pace" (Haddock.format_pace avg_speed);
    mkRow (truthy avg_hr) "Average Heart Rate"
      (h <- format_fixed 0 avg_hr ;; Ok (h +:+ " bpm"))%res;
    mkRow (truthy max_hr) "Max Heart Rate"
      (h <- format_fixed 0 max_hr ;; Ok (h +:+ " bpm"))%res;
    mkRow (truthy calories) "Calories" (format_fixed 0 calories);
    mkRow (truthy elevation) "Elevation Gain"
      (feet <- py_mul_float elevation 3.28084 ;; Ok (format_fixed_float 0 feet +:+ " ft"))%res;
    mkRow (truthy description) "Original Description" (Ok (py_str_with py_repr description)) ].

(** ** Response parsing *)

(** The text after the "TITLE:" prefix of the last line that begins
    with it, trimmed; empty when no line does. *)
Fixpoint title_spec_lines (lines : list string) (title : string) : string :=
  match lines with
  | [] => title
  | line :: rest =>
      if startswith "TITLE:" line
      then title_spec_lines rest (strip (drop_str 6 line))
      else title_spec_lines rest title
  end.

Definition title_spec (response_text : string) : string :=
  title_spec_lines (split_lines response_text) EmptyString.

(** Everything after the first "DESCRIPTION:" to the end, trimmed; empty
    when the marker is absent. *)
Definition description_spec (response_text : string) : string :=
  match str_find "DESCRIPTION:" response_text with
  | Some i => strip (drop_str (i + 12) response_text)
  | None => EmptyString
  end.

(** ** Traces of the transform flow *)

(** The requests that went over the wire, in order. *)
Fixpoint sent (evs : list event) : list request :=
  match evs with
  | [] => []
  | EvHttp req _ :: rest => req :: sent rest
  | _ :: rest => sent rest
  end.

(** The events a computation added to the trace. *)
Definition added (before after : Haddock.state) : list event :=
  drop (List.length (Haddock.trace before)) (Haddock.trace after).

(** The refresh call: the token endpoint with the refresh grant and the
    credentials held in the process. *)
Definition refresh_request (st : Haddock.state) : request :=
  mkRequest "POST" "https://www.strava.com/oauth/token" None
    (FormData [("client_id", Haddock.STRAVA_CLIENT_ID st);
               ("client_secret", Haddock.STRAVA_CLIENT_SECRET st);
               ("grant_type", PStr "refresh_token");
               ("refresh_token", Haddock.STRAVA_REFRESH_TOKEN st)]).

(** The token pair a successful refresh answer carries. *)
Definition fresh_tokens (answer : result response) : option (string * string) :=
  match answer with
  | Ok r =>
      match raise_for_status r, json r with
      | Ok _, Some (PDict tokens) =>
          match tokens !! "access_token", tokens !! "refresh_token" with
          | Some (PStr a), Some (PStr r) => Some (a, r)
          | _, _ => None
          end
      | _, _ => None
      end
  | Raise _ => None
  end.

(** The access token a refresh answer carries, whatever it says about
    the refresh token: the first thing a refresh writes. *)
Definition access_token_of (answer : result response) : option string :=
  match answer with
  | Ok r =>
      match raise_for_status r, json r with
      | Ok _, Some (PDict tokens) =>
          match tokens !! "access_token" with
          | Some (PStr a) => Some a
          | _ => None
          end
      | _, _ => None
      end
  | Raise _ => None
  end.


Definition token_url : string := "https://www.strava.com/oauth/token".

(** The calls of the wrapper that update an activity: endpoint and
    payload of every [PUT] call, in order. *)
Fixpoint update_calls (evs : list event) : list (string * payload) :=
  match evs with
  | [] => []
  | EvStravaRequest method endpoint kwargs :: rest =>
      if String.eqb method "PUT" then (endpoint, kwargs) :: update_calls rest
      else update_calls rest
  | _ :: rest => update_calls rest
  end.

(** The (title, description) pairs the model's answers were parsed into. *)
Fixpoint generated (evs : list event) : list (string * string) :=
  match evs with
  | [] => []
  | EvLLM _ (Ok response_text) :: rest => Haddock.parse_response response_text :: generated rest
  | _ :: rest => generated rest
  end.


(** A request to the token endpoint is the refresh request [rq]. *)
Definition refresh_is (rq : request) (ev : event) : Prop :=
  match ev with
  | EvHttp req _ => url req = token_url -> req = rq
  | _ => True
  end.


(** Events that are neither a call of the wrapper nor a call of the model. *)
Definition quiet (ev : event) : Prop :=
  match ev with
  | EvStravaRequest _ _ _ | EvLLM _ _ => False
  | _ => True
  end.

(** The update call that carries the pair [g] for [activity]. *)
Definition update_for (py_repr : pyval -> string) (activity : pyval) (g : string * string)
  : string * payload :=
  ("/activities/"
   +:+ py_str_with py_repr (match py_getitem activity "id" with Ok v => v | Raise _ => PNone end),
   JsonBody [("name", PStr (fst g)); ("description", PStr (snd g))]).

(** What one turn of the loop can add to the trace, with how it ends. *)
Inductive turn (py_repr : pyval -> string) (a : Haddock.args) (activity : pyval)
  : result Haddock.control -> list event -> Prop :=
| turn_raised_early (e : exn) (evs : list event) :
    Forall quiet evs ->
    turn py_repr a activity (Raise e) evs
| turn_generation_failed (prompt msg : string) (evs1 : list event) :
    Forall quiet evs1 ->
    turn py_repr a activity (Ok Haddock.Return)
      (evs1 ++ [EvLLM prompt (Raise (APIError msg));
                EvPrint ("Error calling Claude API: " +:+ msg)])
| turn_generation_raised (prompt : string) (e : exn) (evs1 : list event) :
    Forall quiet evs1 ->
    (forall msg, e <> APIError msg) ->
    turn py_repr a activity (Raise e) (evs1 ++ [EvLLM prompt (Raise e)])
| turn_previewed (prompt response_text : string) (evs1 evs2 : list event) :
    Haddock.dry_run a = true ->
    Forall quiet evs1 -> Forall quiet evs2 ->
    turn py_repr a activity (Ok Haddock.Next)
      (evs1 ++ EvLLM prompt (Ok response_text) :: evs2)
| turn_updated (prompt response_text : string) (r : result Haddock.control)
    (evs1 evs2 evs3 : list event) :
    Haddock.dry_run a = false ->
    Forall quiet evs1 -> Forall quiet evs2 -> Forall quiet evs3 ->
    r <> Ok Haddock.Return ->
    turn py_repr a activity r
      (evs1 ++ EvLLM prompt (Ok response_text)
            :: evs2 ++ EvStravaRequest "PUT"
                         (fst (update_for py_repr activity (Haddock.parse_response response_text)))
                         (snd (update_for py_repr activity (Haddock.parse_response response_text)))
                       :: evs3).


(** A call of the model that failed with the client's API error. *)
Definition failed_generation (ev : event) : Prop :=
  exists prompt msg, ev = EvLLM prompt (Raise (APIError msg)).


(** [keeps rq P m]: from a state whose refresh request is [rq], the
    computation [m] ends in such a state again, and every event it adds
    to the trace satisfies [P]. *)
Definition keeps {A} (rq : request) (P : event -> Prop) (m : prog Haddock.state A) : Prop :=
  forall st, refresh_request st = rq ->
    refresh_request (snd (m st)) = rq
    /\ exists evs, Haddock.trace (snd (m st)) = (Haddock.trace st ++ evs)%list /\ Forall P evs.

(** The events every call of the wrapper may add: lines on the
    terminal, writes to the credential file and the refresh request. *)
Definition allows_io (rq : request) (P : event -> Prop) : Prop :=
  (forall line, P (EvPrint line))
  /\ (forall key value, P (EvSetKey key value))
  /\ (forall answer, P (EvHttp rq answer)).

Definition allows_llm (P : event -> Prop) : Prop :=
  forall prompt answer, P (EvLLM prompt answer).

(** The wire requests of one call of the wrapper. *)
Definition allows_wire (py_repr : pyval -> string) (P : event -> Prop)
    (method endpoint : string) (kwargs : payload) : Prop :=
  forall token answer,
    P (EvHttp (mkRequest method (Haddock.STRAVA_API_BASE +:+ endpoint) (Haddock.bearer py_repr token) kwargs)
         answer).

Definition allows_call (py_repr : pyval -> string) (P : event -> Prop)
    (method endpoint : string) (kwargs : payload) : Prop :=
  P (EvStravaRequest method endpoint kwargs) /\ allows_wire py_repr P method endpoint kwargs.

Definition allows_method (py_repr : pyval -> string) (P : event -> Prop) (method : string) : Prop :=
  forall endpoint kwargs, allows_call py_repr P method endpoint kwargs.

(** Every run of [m] adds the events of one turn. *)
Definition turns (py_repr : pyval -> string) (a : Haddock.args) (activity : pyval) (m : prog Haddock.state Haddock.control)
  : Prop :=
  forall st, exists evs,
    Haddock.trace (snd (m st)) = (Haddock.trace st ++ evs)%list
    /\ turn py_repr a activity (fst (m st)) evs.

(** [reaches a items st st']: every activity of [items] is processed in
    turn, each from the state the one before it left, and each falls
    through to the next; [st'] is the state after the last. *)
Inductive reaches (py_repr : pyval -> string)
    (http : list event -> request -> result response)
    (llm : list event -> string -> result string) (a : Haddock.args) : list pyval -> Haddock.state -> Haddock.state -> Prop :=
| reaches_nil (st : Haddock.state) : reaches py_repr http llm a [] st st
| reaches_cons (x : pyval) (rest : list pyval) (st st1 st2 : Haddock.state) :
    Haddock.process_activity py_repr http llm a x st = (Ok Haddock.Next, st1) ->
    reaches py_repr http llm a rest st1 st2 ->
    reaches py_repr http llm a (x :: rest) st st2.

(** The credentials [main] checks before it fetches anything. *)
Definition credentials_present (st : Haddock.state) : Prop :=
  truthy (Haddock.STRAVA_ACCESS_TOKEN st) = true
  /\ truthy (Haddock.ANTHROPIC_API_KEY st) = true
  /\ Haddock.ANTHROPIC_API_KEY st <> PStr "your_anthropic_api_key_here".

(** ** The authorization flow *)

(** A credential is absent when it is unset or empty. *)
Definition absent (v : pyval) : bool := negb (truthy v).

(** The placeholder the script knows. *)
Definition is_placeholder (v : pyval) : bool :=
  match v with
  | PStr s => String.eqb s "your_client_secret_here"
  | _ => false
  end.

(** The events that leave the terminal: the listener, the browser, an
    inbound request served, a request sent. *)
Definition is_network (ev : event) : bool :=
  match ev with
  | EvListen | EvBrowser _ | EvServe _ _ | EvServerClose | EvHttp _ _ => true
  | _ => false
  end.

(** ** More vocabulary for the runs *)

(** A request of the wrapper: to an endpoint of the API, with the bearer
    header, by GET or PUT. *)
Definition api_request (py_repr : pyval -> string) (req : request) : Prop :=
  (exists endpoint, url req = Haddock.STRAVA_API_BASE +:+ endpoint)
  /\ (exists token, authorization req = Some ("Bearer " +:+ py_str_with py_repr token))
  /\ (method req = "GET" \/ method req = "PUT").

(** The wire events of a run of [main]: the refresh request [rq] or a
    request of the wrapper. *)
Definition wire_ok (py_repr : pyval -> string) (rq : request) (ev : event) : Prop :=
  match ev with
  | EvHttp req _ => req = rq \/ api_request py_repr req
  | _ => True
  end.

(** The calls of the wrapper among the events. *)
Fixpoint wrapper_calls (evs : list event) : nat :=
  match evs with
  | [] => 0
  | EvStravaRequest _ _ _ :: rest => S (wrapper_calls rest)
  | _ :: rest => wrapper_calls rest
  end.

(** An inbound request that hands over a code. *)
Definition carries_code (r : Auth.inbound) : bool :=
  String.eqb (fst r) "/callback"
  && match snd r !! "code" with Some _ => true | None => false end.

(** What the listener answers to a request without a code. *)
Definition refusal (r : Auth.inbound) : event :=
  EvServe (fst r)
    (if String.eqb (fst r) "/callback"
        && match snd r !! "error" with Some _ => true | None => false end
     then 400 else 404).

(** The token exchange: the code with the client's credentials. *)
Definition exchange_request (st : Auth.state) (code : pyval) : request :=
  mkRequest "POST" "https://www.strava.com/oauth/token" None
    (FormData [("client_id", Auth.CLIENT_ID st);
               ("client_secret", Auth.CLIENT_SECRET st);
               ("code", code);
               ("grant_type", PStr "authorization_code")]).

(** The address the browser is sent to. *)
Definition authorize_url (py_repr : pyval -> string) (st : Auth.state) : string :=
  "https://www.strava.com/oauth/authorize?client_id=" +:+ py_str_with py_repr (Auth.CLIENT_ID st)
  +:+ "&redirect_uri=http://localhost:8000/callback&response_type=code"
  +:+ "&scope=read,activity:read_all,activity:write".

(** What [main] prints and starts before it waits for the callback. *)
Definition opening (py_repr : pyval -> string) (st : Auth.state) : list event :=
  [EvPrint Auth.rule;
   EvPrint "Strava OAuth Authentication";
   EvPrint Auth.rule;
   EvPrint EmptyString;
   EvPrint "This will open your browser to authorize the app.";
   EvPrint "Requesting scopes: read,activity:read_all,activity:write";
   EvPrint EmptyString;
   EvPrint "If browser doesn't open, visit this URL:";
   EvPrint (authorize_url py_repr st);
   EvPrint EmptyString;
   EvListen;
   EvBrowser (authorize_url py_repr st);
   EvPrint "Waiting for authorization..."].

(** The events a run of the authorization flow added to the trace. *)
Definition auth_added (before after : Auth.state) : list event :=
  drop (List.length (Auth.trace before)) (Auth.trace after).

(** ** More vocabulary for the formatting helpers and the parser *)

(** The fields of an activity the summary reads. *)
Definition summary_fields : list string :=
  ["type"; "name"; "elapsed_time"; "distance"; "average_speed"; "average_heartrate";
   "max_heartrate"; "calories"; "total_elevation_gain"; "description"].

(** The fields whose line is left out when the value is false. *)
Definition optional_fields : list string :=
  ["distance"; "average_speed"; "average_heartrate"; "max_heartrate"; "calories";
   "total_elevation_gain"; "description"].

(** The answer in the format the prompt asks for. *)
Definition formatted_reply (title description : string) : string :=
  "TITLE: " +:+ title +:+ NL +:+ "DESCRIPTION: " +:+ description.

(** The text has no line feed. *)
Definition one_line (s : string) : Prop := str_find NL s = None.

(** The text has no line feed, character by character. *)
Definition no_nl (s : string) : Prop :=
  Forall (fun c => c <> "010"%char) (list_ascii_of_string s).

(** * Sample worlds *)

Definition repr0 : pyval -> string := fun _ => EmptyString.

Definition st0 : Haddock.state :=
  Haddock.mkState (PStr "client") (PStr "secret") (PStr "oldA") (PStr "startR")
    (PStr "sk-key") ∅ [].

Definition answered (status : Z) (body : option pyval) : result response :=
  Ok (mkResponse status EmptyString body).

Definition new_tokens : pyval :=
  PDict (<["access_token" := PStr "newA"]> (<["refresh_token" := PStr "newR"]> ∅)).

(** The old access token has expired; the token endpoint answers with
    [refresh]; a request with another token is answered with [after]. *)
Definition expired_world (refresh after : result response)
  : list event -> request -> result response :=
  fun _ req =>
    if String.eqb (url req) token_url then refresh
    else match authorization req with
         | Some "Bearer oldA" => answered 401 None
         | _ => after
         end.

Definition no_llm : list event -> string -> result string :=
  fun _ _ => Raise (APIError "unused").

Definition list_request (token : string) : request :=
  mkRequest "GET" "https://www.strava.com/api/v3/athlete/activities"
    (Some ("Bearer " +:+ token)) (QueryParams [("per_page", PInt 1)]).

Definition run_list (http : list event -> request -> result response)
  : result pyval * Haddock.state :=
  Haddock.strava_request repr0 http "GET" "/athlete/activities"
    (QueryParams [("per_page", PInt 1)]) st0.

(** Worlds for the batch: the list endpoint answers with [items], every
    other request of the API with an empty record. *)
Definition run_1 : pyval :=
  PDict (<["id" := PInt 1]> (<["name" := PStr "Morning Run"]> (<["type" := PStr "Run"]> ∅))).

Definition ride_2 : pyval :=
  PDict (<["id" := PInt 2]> (<["name" := PStr "Evening Ride"]> (<["type" := PStr "Ride"]> ∅))).

Definition walk_3 : pyval :=
  PDict (<["id" := PInt 3]> (<["type" := PStr "Walk"]> ∅)).

Definition serving (items : pyval) : list event -> request -> result response :=
  fun _ req =>
    if String.eqb (method req) "GET" then answered 200 (Some items)
    else answered 200 (Some (PDict ∅)).

Definition haddock_reply : string :=
  "TITLE: Blistering barnacles" +:+ NL +:+ "DESCRIPTION: A fine voyage.".

Definition always_llm : list event -> string -> result string :=
  fun _ _ => Ok haddock_reply.

Fixpoint llm_calls (evs : list event) : nat :=
  match evs with
  | [] => 0
  | EvLLM _ _ :: rest => S (llm_calls rest)
  | _ :: rest => llm_calls rest
  end.

(** The model answers once, then its service fails. *)
Definition llm_once : list event -> string -> result string :=
  fun tr _ =>
    match llm_calls tr with
    | O => Ok haddock_reply
    | S _ => Raise (APIError "overloaded")
    end.

(** Worlds for the authorization flow. *)
Definition auth_state (client_id client_secret : pyval) : Auth.state :=
  Auth.mkState client_id client_secret PNone ∅ [].

Definition token_answer : result response :=
  Ok (mkResponse 200 EmptyString
        (Some (PDict (<["access_token" := PStr "newA"]>
                      (<["refresh_token" := PStr "newR"]> ∅))))).

(** More sample worlds. *)
(** A refresh answer without a refresh token. *)
Definition access_only : gmap string pyval := <["access_token" := PStr "newA"]> ∅.

(** A record without an identifier. *)
Definition no_id : gmap string pyval := <["name" := PStr "Lost"]> ∅.

(** The service refuses every request. *)
Definition forbidden : list event -> request -> result response :=
  fun _ _ => answered 403 None.

(** Credentials for the authorization flow, and requests that reach
    the listener. *)
Definition auth_st : Auth.state := auth_state (PStr "12345") (PStr "s3cr3t").

Definition strays : list Auth.inbound :=
  [("/favicon.ico", ∅); ("/callback", {["error" := "access_denied"]})].

Definition code_params : gmap string string := {["code" := "abc"]}.

Definition refusing : list event -> request -> result response :=
  fun _ _ => Ok (mkResponse 400 "Bad Request" None).

(** * Properties of the formatting helpers *)

Lemma append_nil {A} (x : A) : append [] x = [x].
Proof. reflexivity. Qed.

(** ** Exact binary64 arithmetic below 2^53 *)

(** The number of binary digits of a positive number. *)
Lemma digits_bounds (p : positive) :
  2 ^ (Zpos (digits2_pos p) - 1) <= Zpos p < 2 ^ Zpos (digits2_pos p).
Proof.
  induction p as [p IH | p IH |]; cbn [digits2_pos].
  - rewrite Pos2Z.inj_succ. replace (Z.succ (Zpos (digits2_pos p)) - 1)
      with (Z.succ (Zpos (digits2_pos p) - 1)) by lia.
    rewrite !Z.pow_succ_r by lia. lia.
  - rewrite Pos2Z.inj_succ. replace (Z.succ (Zpos (digits2_pos p)) - 1)
      with (Z.succ (Zpos (digits2_pos p) - 1)) by lia.
    rewrite !Z.pow_succ_r by lia. lia.
  - cbn. lia.
Qed.

Lemma digits_unique (p : positive) (n : Z) :
  2 ^ (n - 1) <= Zpos p < 2 ^ n -> Zpos (digits2_pos p) = n.
Proof.
  intros [Hl Hu].
  pose proof (digits_bounds p) as [Bl Bu].
  set (d := Zpos (digits2_pos p)) in *.
  assert (Hn : 0 < n).
  { destruct (Z_lt_le_dec 0 n) as [| Hn]; [assumption |].
    assert (2 ^ n <= 2 ^ 0) by (apply Z.pow_le_mono_r; lia).
    change (2 ^ 0) with 1 in *. lia. }
  destruct (Z_lt_le_dec d n) as [Hlt | Hge].
  - assert (2 ^ d <= 2 ^ (n - 1)) by (apply Z.pow_le_mono_r; lia). lia.
  - destruct (Z_lt_le_dec n d) as [Hlt | Hge'].
    + assert (2 ^ n <= 2 ^ (d - 1)) by (apply Z.pow_le_mono_r; lia). lia.
    + lia.
Qed.

Lemma digits_shift (p q : positive) (k : Z) :
  0 <= k -> Zpos q = Zpos p * 2 ^ k ->
  Zpos (digits2_pos q) = Zpos (digits2_pos p) + k.
Proof.
  intros Hk Hq.
  pose proof (digits_bounds p) as [Bl Bu].
  apply digits_unique. rewrite Hq.
  replace (Zpos (digits2_pos p) + k - 1) with (Zpos (digits2_pos p) - 1 + k) by lia.
  rewrite !Z.pow_add_r by lia.
  assert (0 < 2 ^ k) by (apply Z.pow_pos_nonneg; lia).
  nia.
Qed.

Lemma digits_le (p : positive) (n : Z) :
  Zpos p < 2 ^ n -> Zpos (digits2_pos p) <= n.
Proof.
  intros Hp.
  pose proof (digits_bounds p) as [Bl Bu].
  destruct (Z_lt_le_dec n (Zpos (digits2_pos p))) as [Hlt |]; [| assumption].
  destruct (Z_lt_le_dec n 0) as [Hneg |].
  - rewrite Z.pow_neg_r in Hp by lia. lia.
  - assert (2 ^ n <= 2 ^ (Zpos (digits2_pos p) - 1)) by (apply Z.pow_le_mono_r; lia). lia.
Qed.

Lemma digits_mono (p q : positive) :
  Zpos p <= Zpos q -> Zpos (digits2_pos p) <= Zpos (digits2_pos q).
Proof.
  intros Hpq. apply digits_le.
  pose proof (digits_bounds q) as [_ Bq]. lia.
Qed.

Lemma digits_mul_le (p q : positive) :
  Zpos (digits2_pos (p * q)) <= Zpos (digits2_pos p) + Zpos (digits2_pos q).
Proof.
  apply digits_le.
  pose proof (digits_bounds p) as [_ Bp].
  pose proof (digits_bounds q) as [_ Bq].
  rewrite Z.pow_add_r by lia. rewrite Pos2Z.inj_mul. nia.
Qed.

(** Shifting out zero bits loses nothing. *)
Lemma shr_1_double (m : Z) :
  0 < m ->
  shr_1 {| shr_m := 2 * m; shr_r := false; shr_s := false |}
  = {| shr_m := m; shr_r := false; shr_s := false |}.
Proof. destruct m as [| p | p]; [lia | reflexivity | lia]. Qed.

Lemma iter_shr_exact (p : positive) :
  forall m : Z, 0 < m ->
    SpecFloat.iter_pos shr_1 p {| shr_m := m * 2 ^ Zpos p; shr_r := false; shr_s := false |}
    = {| shr_m := m; shr_r := false; shr_s := false |}.
Proof.
  induction p as [p IH | p IH |]; intros m Hm; cbn [SpecFloat.iter_pos].
  - assert (Hp : 0 < 2 ^ Zpos p) by (apply Z.pow_pos_nonneg; lia).
    replace (m * 2 ^ Zpos p~1) with (2 * (m * 2 ^ Zpos p * 2 ^ Zpos p)).
    + rewrite shr_1_double by nia. rewrite IH by nia. apply IH, Hm.
    + replace (Zpos p~1) with (Zpos p + Zpos p + 1) by lia.
      rewrite !Z.pow_add_r by lia. change (2 ^ 1) with 2. lia.
  - assert (Hp : 0 < 2 ^ Zpos p) by (apply Z.pow_pos_nonneg; lia).
    replace (m * 2 ^ Zpos p~0) with (m * 2 ^ Zpos p * 2 ^ Zpos p).
    + rewrite IH by nia. apply IH, Hm.
    + replace (Zpos p~0) with (Zpos p + Zpos p) by lia.
      rewrite !Z.pow_add_r by lia. lia.
  - change (2 ^ 1) with 2. rewrite (Z.mul_comm m 2). apply shr_1_double, Hm.
Qed.

Lemma shr_exact (m e k : Z) :
  0 < m -> 0 <= k ->
  shr {| shr_m := m * 2 ^ k; shr_r := false; shr_s := false |} e k
  = ({| shr_m := m; shr_r := false; shr_s := false |}, e + k).
Proof.
  intros Hm Hk. destruct k as [| p | p]; [| | lia].
  - cbn [shr]. change (2 ^ 0) with 1. rewrite Z.mul_1_r, Z.add_0_r. reflexivity.
  - cbn [shr]. rewrite iter_shr_exact by exact Hm. reflexivity.
Qed.

(** Rounding a mantissa of 53 digits followed by zeros is exact. *)
Lemma round_aux_exact (s : bool) (N : positive) (k E : Z) :
  Zpos (digits2_pos N) = 53 -> 0 <= k -> -1074 <= E + k <= 971 ->
  binary_round_aux prec emax s (Zpos N * 2 ^ k) E loc_Exact = S754_finite s N (E + k).
Proof.
  intros HN Hk HE.
  assert (Hpow : 0 < 2 ^ k) by (apply Z.pow_pos_nonneg; lia).
  destruct (Zpos N * 2 ^ k) as [| M | M] eqn:EM; [lia | | lia].
  assert (HM : Zpos (digits2_pos M) = 53 + k).
  { rewrite (digits_shift N M k Hk) by (symmetry; exact EM). lia. }
  unfold binary_round_aux, shr_fexp.
  cbn [Zdigits2 shr_record_of_loc]. rewrite HM.
  replace (fexp prec emax (53 + k + E) - E) with k
    by (unfold fexp, SpecFloat.emin, prec, emax; lia).
  rewrite <- EM. rewrite shr_exact by lia.
  cbn [shr_m loc_of_shr_record round_nearest_even Zdigits2 shr_record_of_loc].
  rewrite HN.
  replace (fexp prec emax (53 + (E + k)) - (E + k)) with 0
    by (unfold fexp, SpecFloat.emin, prec, emax; lia).
  cbn [shr shr_m].
  replace (E + k <=? emax - prec) with true
    by (symmetry; apply Z.leb_le; unfold prec, emax; lia).
  reflexivity.
Qed.

Lemma iter_xO_value (d m : positive) :
  Zpos (Pos.iter xO m d) = Zpos m * 2 ^ Zpos d.
Proof.
  change (Pos.iter xO m d) with (shift_pos d m).
  rewrite shift_pos_correct, Zpower_pos_nat, Zpower_nat_Z, positive_nat_Z. lia.
Qed.

Lemma shl_align_value (m : positive) (e e' : Z) :
  e' <= e ->
  Zpos (fst (shl_align m e e')) = Zpos m * 2 ^ (e - e') /\ snd (shl_align m e e') = e'.
Proof.
  intros He. unfold shl_align.
  destruct (e' - e) as [| d | d] eqn:Ed; cbn [fst snd]; [| lia |].
  - replace (e - e') with 0 by lia. split; lia.
  - rewrite iter_xO_value. replace (e - e') with (Zpos d) by lia. split; reflexivity.
Qed.

Lemma exact_float_mantissa (V : positive) :
  Zpos (digits2_pos V) <= 53 ->
  let d := Zpos (digits2_pos V) in
  let N := Z.to_pos (Zpos V * 2 ^ (53 - d)) in
  Zpos N = Zpos V * 2 ^ (53 - d) /\ Zpos (digits2_pos N) = 53.
Proof.
  intros Hd d N.
  assert (Hp : 0 < 2 ^ (53 - d)) by (apply Z.pow_pos_nonneg; lia).
  assert (HN : Zpos N = Zpos V * 2 ^ (53 - d)) by (unfold N; rewrite Z2Pos.id; nia).
  split; [exact HN |].
  rewrite (digits_shift V N (53 - d)) by (fold d; lia). fold d. lia.
Qed.

(** Rounding an integer of at most 53 digits, whatever its scale, gives
    its binary64 number. *)
Lemma round_exact (M V : positive) (j : Z) :
  0 <= j -> Zpos M = Zpos V * 2 ^ j -> Zpos (digits2_pos V) <= 53 ->
  binary_round prec emax false M (- j) = exact_float V.
Proof.
  intros Hj HM Hd.
  destruct (exact_float_mantissa V Hd) as [HN HN53].
  cbv zeta in HN, HN53.
  unfold exact_float.
  set (d := Zpos (digits2_pos V)) in *.
  set (N := Z.to_pos (Zpos V * 2 ^ (53 - d))) in *.
  assert (Hd1 : 1 <= d) by (unfold d; lia).
  unfold binary_round.
  rewrite (digits_shift V M j Hj HM). fold d.
  replace (fexp prec emax (d + j + - j)) with (d - 53)
    by (unfold fexp, SpecFloat.emin, prec, emax; lia).
  destruct (Z_lt_le_dec (d - 53) (- j)) as [Hlt | Hge].
  - destruct (shl_align_value M (- j) (d - 53)) as [Hv He]; [lia |].
    destruct (shl_align M (- j) (d - 53)) as [mz ez]. cbn [fst snd] in Hv, He. subst ez.
    assert (Emz : mz = N).
    { apply Pos2Z.inj. rewrite Hv, HN, HM, <- Z.mul_assoc, <- Z.pow_add_r by lia.
      do 2 f_equal. lia. }
    subst mz.
    replace (Zpos N) with (Zpos N * 2 ^ 0) by (change (2 ^ 0) with 1; lia).
    rewrite round_aux_exact by lia. f_equal. lia.
  - unfold shl_align.
    destruct (d - 53 - - j) as [| p | p] eqn:Ep; [| | lia].
    + replace (Zpos M) with (Zpos N * 2 ^ 0).
      * rewrite round_aux_exact by lia. f_equal. lia.
      * change (2 ^ 0) with 1. rewrite HM, HN. replace j with (53 - d) by lia. lia.
    + replace (Zpos M) with (Zpos N * 2 ^ (d + j - 53)).
      * rewrite round_aux_exact by lia. f_equal. lia.
      * rewrite HM, HN, <- Z.mul_assoc, <- Z.pow_add_r by lia. do 2 f_equal. lia.
Qed.

Lemma float_of_Z_exact (V : positive) :
  Zpos (digits2_pos V) <= 53 -> float_of_Z (Zpos V) = exact_float V.
Proof.
  intros Hd. unfold float_of_Z, binary_normalize.
  change 0 with (- 0). apply round_exact; [lia | change (2 ^ 0) with 1; lia | exact Hd].
Qed.

Lemma int_of_exact_float (V : positive) :
  Zpos (digits2_pos V) <= 53 -> int_of_float (exact_float V) = Ok (Zpos V).
Proof.
  intros Hd.
  destruct (exact_float_mantissa V Hd) as [HN _]. cbv zeta in HN.
  unfold exact_float, int_of_float. rewrite HN.
  set (d := Zpos (digits2_pos V)) in *.
  destruct (Z.leb_spec 0 (d - 53)).
  - replace (53 - d) with 0 by lia. replace (d - 53) with 0 by lia.
    change (2 ^ 0) with 1. f_equal. lia.
  - replace (- (d - 53)) with (53 - d) by lia.
    rewrite Z.div_mul; [reflexivity |].
    apply Z.pow_nonzero; lia.
Qed.

Lemma floor_exact_float (V : positive) :
  Zpos (digits2_pos V) <= 53 -> c_floor (exact_float V) = exact_float V.
Proof.
  intros Hd.
  destruct (exact_float_mantissa V Hd) as [HN _]. cbv zeta in HN.
  rewrite <- (float_of_Z_exact V Hd) at 2.
  unfold exact_float, c_floor. rewrite HN.
  set (d := Zpos (digits2_pos V)) in *.
  destruct (Z.leb_spec 0 (d - 53)).
  - rewrite (float_of_Z_exact V Hd). unfold exact_float. fold d. reflexivity.
  - replace (- (d - 53)) with (53 - d) by lia.
    rewrite Z.div_mul; [reflexivity |].
    apply Z.pow_nonzero; lia.
Qed.

Lemma fsub_self (s : bool) (m : positive) (e : Z) :
  fsub (S754_finite s m e) (S754_finite s m e) = S754_zero false.
Proof.
  unfold fsub, SFsub. rewrite Z.min_id, Z.sub_diag. reflexivity.
Qed.

Lemma div_eucl_pair (a b : Z) : Z.div_eucl a b = (a / b, a mod b).
Proof. unfold Z.div, Z.modulo. destruct (Z.div_eucl a b). reflexivity. Qed.

Lemma new_location_zero (n : Z) : new_location n 0 = loc_Exact.
Proof. unfold new_location. destruct (Z.even n); reflexivity. Qed.

(** Dividing a multiple [K * Q] of the divisor [K] gives [Q] exactly. *)
Lemma fdiv_exact (m Mk K Q : positive) (e ek t : Z) :
  -52 <= ek <= 0 -> Zpos Mk = Zpos K * 2 ^ (- ek) -> Zpos (digits2_pos Mk) = 53 ->
  0 <= t -> 0 <= e + t -> Zpos m * 2 ^ (e + t) = Zpos K * Zpos Q * 2 ^ t ->
  Zpos K * Zpos Q < 2 ^ 53 ->
  fdiv (S754_finite false m e) (S754_finite false Mk ek) = exact_float Q.
Proof.
  intros Hek HMk HMk53 Ht Het Hv Hlt.
  assert (HdK : Zpos (digits2_pos K) = 53 + ek).
  { pose proof (digits_shift K Mk (- ek) ltac:(lia) HMk). lia. }
  assert (HdV : Zpos (digits2_pos (K * Q)) <= 53)
    by (apply digits_le; rewrite Pos2Z.inj_mul; exact Hlt).
  assert (HdQ : Zpos (digits2_pos Q) <= 53) by (apply digits_le; nia).
  pose proof (digits_mul_le K Q) as Hmul.
  assert (Hd1 : Zpos (digits2_pos m) + e = Zpos (digits2_pos (K * Q))).
  { assert (Hp : 0 < 2 ^ (e + t)) by (apply Z.pow_pos_nonneg; lia).
    set (P := Z.to_pos (Zpos m * 2 ^ (e + t))).
    assert (HP : Zpos P = Zpos m * 2 ^ (e + t)) by (unfold P; rewrite Z2Pos.id; nia).
    pose proof (digits_shift m P (e + t) Het HP) as H1.
    assert (HP' : Zpos P = Zpos (K * Q) * 2 ^ t) by (rewrite HP, Hv, Pos2Z.inj_mul; reflexivity).
    pose proof (digits_shift (K * Q) P t Ht HP') as H2. lia. }
  destruct (exact_float_mantissa Q HdQ) as [HN HN53]. cbv zeta in HN, HN53.
  unfold exact_float.
  set (dV := Zpos (digits2_pos (K * Q))) in *.
  set (dQ := Zpos (digits2_pos Q)) in *.
  set (N := Z.to_pos (Zpos Q * 2 ^ (53 - dQ))) in *.
  assert (HdV1 : 1 <= dV) by (unfold dV; lia).
  assert (HdQ1 : 1 <= dQ) by (unfold dQ; lia).
  unfold fdiv, SFdiv, SFdiv_core_binary. cbn [Zdigits2 xorb]. rewrite HMk53.
  replace (fexp prec emax (Zpos (digits2_pos m) + e - (53 + ek))) with (dV - ek - 106)
    by (unfold fexp, SpecFloat.emin, prec, emax; lia).
  set (e' := Z.min (dV - ek - 106) (e - ek)).
  assert (He' : e' <= dV - ek - 106 /\ e' <= e - ek) by (unfold e'; lia).
  assert (Hm' : match e - ek - e' with
                | 0 => Zpos m
                | Zpos _ => Z.shiftl (Zpos m) (e - ek - e')
                | Zneg _ => 0
                end = Zpos Mk * (Zpos N * 2 ^ (dQ - e' - 53))).
  { assert (Hs : match e - ek - e' with
                 | 0 => Zpos m
                 | Zpos _ => Z.shiftl (Zpos m) (e - ek - e')
                 | Zneg _ => 0
                 end = Zpos m * 2 ^ (e - ek - e')).
    { destruct (e - ek - e') as [| p | p] eqn:Es; [| | lia].
      - change (2 ^ 0) with 1. lia.
      - rewrite Z.shiftl_mul_pow2 by lia. reflexivity. }
    rewrite Hs.
    apply (Z.mul_reg_r _ _ (2 ^ (e + t))).
    { apply Z.pow_nonzero; lia. }
    rewrite HMk, HN.
    transitivity (Zpos m * 2 ^ (e + t) * 2 ^ (e - ek - e')); [lia |].
    rewrite Hv.
    transitivity (Zpos K * Zpos Q
                  * (2 ^ (- ek) * 2 ^ (53 - dQ) * 2 ^ (dQ - e' - 53) * 2 ^ (e + t))); [| lia].
    rewrite <- !Z.mul_assoc. do 2 f_equal.
    rewrite <- !Z.pow_add_r by lia. f_equal. lia. }
  rewrite Hm', div_eucl_pair.
  rewrite (Z.mul_comm (Zpos Mk)), Z.div_mul, Z.mod_mul by lia.
  rewrite new_location_zero, round_aux_exact by lia.
  f_equal. lia.
Qed.

Lemma half_not_below_zero : SFltb f_half (S754_zero false) = false.
Proof. vm_compute. reflexivity. Qed.

Lemma fsub_value (m R : positive) (e e0 : Z) :
  e0 <= e ->
  fsub (S754_finite false m e) (S754_finite false R e0)
  = binary_normalize prec emax (Zpos m * 2 ^ (e - e0) - Zpos R) e0 false.
Proof.
  intros He. unfold fsub, SFsub. rewrite Z.min_r by lia. cbn [cond_Zopp].
  destruct (shl_align_value m e e0 He) as [-> _].
  destruct (shl_align_value R e0 e0 ltac:(lia)) as [-> _].
  rewrite Z.sub_diag. change (2 ^ 0) with 1. rewrite Z.mul_1_r. reflexivity.
Qed.

(** A dividend [m * 2^e] at the scale [2^e0] it shares with the divisor. *)
Lemma ratio_scale (m : positive) (e e0 N D : Z) :
  e0 <= e -> e0 <= 0 ->
  exact_ratio (S754_finite false m e) N D ->
  0 < D /\ N * 2 ^ (- e0) = Zpos m * 2 ^ (e - e0) * D.
Proof.
  intros He He0 [HD Hx]. split; [exact HD |].
  destruct (Z.leb_spec 0 e).
  - rewrite Hx. replace (e - e0) with (e + - e0) by lia.
    rewrite Z.pow_add_r by lia. lia.
  - replace (- e0) with (- e + (e - e0)) by lia.
    rewrite Z.pow_add_r, Z.mul_assoc, Hx by lia. lia.
Qed.

(** The floor division of CPython on a non-negative [float] below 2^53
    and a divisor [K]: the integer part of the exact quotient. *)
Lemma floordiv_exact (K Mk : positive) (ek : Z) (x : spec_float) (N D : Z) :
  -52 <= ek <= 0 -> Zpos Mk = Zpos K * 2 ^ (- ek) -> Zpos (digits2_pos Mk) = 53 ->
  exact_ratio x N D -> N < 2 ^ 53 * D ->
  int_of_float (fst (float_div_mod x (S754_finite false Mk ek))) = Ok (N / (Zpos K * D)).
Proof.
  intros Hek HMk HMk53 Hx Hlt.
  destruct x as [s | s | | s m e];
    [| destruct Hx as [_ []] | destruct Hx as [_ []] |].
  - destruct Hx as [_ ->]. rewrite Zdiv_0_l. destruct s; reflexivity.
  - destruct s; [destruct Hx as [_ []] |].
    set (e0 := Z.min e ek).
    assert (He0 : e0 <= e /\ e0 <= ek) by (unfold e0; lia).
    destruct (ratio_scale m e e0 N D ltac:(lia) ltac:(lia) Hx) as [HD Ha].
    set (T := 2 ^ (- e0)) in *.
    assert (HT : 0 < T) by (apply Z.pow_pos_nonneg; lia).
    set (a := Zpos m * 2 ^ (e - e0)) in *.
    assert (Hapos : 0 < a).
    { assert (0 < 2 ^ (e - e0)) by (apply Z.pow_pos_nonneg; lia). unfold a. nia. }
    set (b := Zpos Mk * 2 ^ (ek - e0)).
    assert (Hb : b = Zpos K * T).
    { unfold b, T. rewrite HMk, <- Z.mul_assoc, <- Z.pow_add_r by lia.
      do 2 f_equal. lia. }
    assert (Hbpos : 0 < b) by nia.
    pose proof (Z.div_mod a b ltac:(lia)) as Hdm.
    pose proof (Z.mod_pos_bound a b Hbpos) as Hr.
    assert (Hqpos : 0 <= a / b) by (apply Z.div_pos; lia).
    assert (Hq : N / (Zpos K * D) = a / b).
    { symmetry. apply (Z.div_unique_pos _ _ _ (N - Zpos K * D * (a / b))); [| lia].
      assert (H1 : Zpos K * D * (a / b) * T <= N * T) by nia.
      assert (H2 : N * T < Zpos K * D * (a / b + 1) * T) by nia.
      apply Z.mul_le_mono_pos_r in H1; [| exact HT].
      apply Z.mul_lt_mono_pos_r in H2; [| exact HT].
      lia. }
    assert (Hbound : Zpos K * (a / b) < 2 ^ 53).
    { assert (H1 : a * D < 2 ^ 53 * T * D) by nia.
      apply Z.mul_lt_mono_pos_r in H1; [| exact HD].
      assert (H2 : Zpos K * (a / b) * T < 2 ^ 53 * T) by nia.
      apply Z.mul_lt_mono_pos_r in H2; [| exact HT]. exact H2. }
    rewrite Hq.
    unfold float_div_mod, c_fmod. fold e0. fold a. fold b.
    destruct (a / b) as [| Q | Q] eqn:EQ; [| | lia].
    + (* the dividend is below the divisor *)
      destruct (a mod b) as [| R | R] eqn:ER; [lia | | lia].
      rewrite fsub_value by lia. fold a.
      replace (a - Zpos R) with 0 by lia.
      reflexivity.
    + assert (Hdiv : forall m' e',
                 0 <= e' - e0 -> Zpos m' * 2 ^ (e' - e0) = Zpos K * Zpos Q * T ->
                 fdiv (S754_finite false m' e') (S754_finite false Mk ek) = exact_float Q).
      { intros m' e' He' Hv.
        apply (fdiv_exact m' Mk K Q e' ek (- e0)); try assumption; lia. }
      assert (HdQ : Zpos (digits2_pos Q) <= 53) by (apply digits_le; nia).
      assert (Hsnap : forall y : spec_float,
                 int_of_float
                   (if nonzero (exact_float Q)
                    then if SFltb f_half (fsub (exact_float Q) (c_floor (exact_float Q)))
                         then fadd (c_floor (exact_float Q)) f_one
                         else c_floor (exact_float Q)
                    else y) = Ok (Zpos Q)).
      { intros y. rewrite floor_exact_float by exact HdQ.
        unfold exact_float at 1 2 3. cbn [nonzero]. rewrite fsub_self, half_not_below_zero.
        apply int_of_exact_float, HdQ. }
      destruct (a mod b) as [| R | R] eqn:ER; [| | lia].
      * (* the division leaves no remainder *)
        cbn [nonzero is_negative Bool.eqb negb fst snd fsub SFsub].
        rewrite (Hdiv m e) by (fold a; rewrite Hb in Hdm; lia). apply Hsnap.
      * rewrite fsub_value by lia. fold a.
        assert (HV : a - Zpos R = Zpos (K * Q) * 2 ^ (- e0)).
        { fold T. rewrite Pos2Z.inj_mul. rewrite Hb in Hdm. lia. }
        assert (HdV : Zpos (digits2_pos (K * Q)) <= 53)
          by (apply digits_le; rewrite Pos2Z.inj_mul; lia).
        destruct (a - Zpos R) as [| P | P] eqn:EP; [lia | | lia].
        cbn [binary_normalize].
        assert (Hround : binary_round prec emax false P e0 = exact_float (K * Q)).
        { replace e0 with (- - e0) by lia.
          apply round_exact; [lia | exact HV | exact HdV]. }
        rewrite Hround.
        cbn [nonzero is_negative Bool.eqb negb fst snd].
        destruct (exact_float_mantissa (K * Q) HdV) as [HNV _]. cbv zeta in HNV.
        assert (Hdiv0 : fdiv (exact_float (K * Q)) (S754_finite false Mk ek) = exact_float Q).
        { assert (HdK : Zpos (digits2_pos K) = 53 + ek).
          { pose proof (digits_shift K Mk (- ek) ltac:(lia) HMk). lia. }
          assert (HKV : Zpos (digits2_pos K) <= Zpos (digits2_pos (K * Q)))
            by (apply digits_mono; rewrite Pos2Z.inj_mul; nia).
          unfold exact_float at 1. apply Hdiv; [lia |].
          rewrite HNV, Pos2Z.inj_mul, <- !Z.mul_assoc. do 2 f_equal.
          unfold T. rewrite <- Z.pow_add_r by lia. f_equal. lia. }
        rewrite Hdiv0. apply Hsnap.
Qed.

(** The remainder of CPython on a non-negative [float] is exact. *)
Lemma float_rem_exact (K Mk : positive) (ek : Z) (x : spec_float) (N D : Z) :
  ek <= 0 -> Zpos Mk = Zpos K * 2 ^ (- ek) ->
  exact_ratio x N D ->
  exact_ratio (float_rem x (S754_finite false Mk ek)) (N mod (Zpos K * D)) D.
Proof.
  intros Hek HMk Hx.
  destruct x as [s | s | | s m e];
    [| destruct Hx as [_ []] | destruct Hx as [_ []] |].
  - destruct Hx as [HD ->]. rewrite Zmod_0_l. split; [exact HD | reflexivity].
  - destruct s; [destruct Hx as [_ []] |].
    set (e0 := Z.min e ek).
    assert (He0 : e0 <= e /\ e0 <= ek) by (unfold e0; lia).
    destruct (ratio_scale m e e0 N D ltac:(lia) ltac:(lia) Hx) as [HD Ha].
    set (T := 2 ^ (- e0)) in *.
    assert (HT : 0 < T) by (apply Z.pow_pos_nonneg; lia).
    set (a := Zpos m * 2 ^ (e - e0)) in *.
    set (b := Zpos Mk * 2 ^ (ek - e0)).
    assert (Hb : b = Zpos K * T).
    { unfold b, T. rewrite HMk, <- Z.mul_assoc, <- Z.pow_add_r by lia.
      do 2 f_equal. lia. }
    assert (Hbpos : 0 < b) by nia.
    pose proof (Z.div_mod a b ltac:(lia)) as Hdm.
    pose proof (Z.mod_pos_bound a b Hbpos) as Hr.
    pose proof (Z.div_mod N (Zpos K * D) ltac:(nia)) as HdmN.
    pose proof (Z.mod_pos_bound N (Zpos K * D) ltac:(nia)) as HrN.
    assert (Hmod : N mod (Zpos K * D) * T = a mod b * D).
    { assert (Hq : N / (Zpos K * D) = a / b).
      { symmetry. apply (Z.div_unique_pos _ _ _ (N - Zpos K * D * (a / b))); [| lia].
        assert (H1 : Zpos K * D * (a / b) * T <= N * T) by nia.
        assert (H2 : N * T < Zpos K * D * (a / b + 1) * T) by nia.
        apply Z.mul_le_mono_pos_r in H1; [| exact HT].
        apply Z.mul_lt_mono_pos_r in H2; [| exact HT].
        lia. }
      rewrite Hq in HdmN.
      assert (E1 : N * T = (Zpos K * D * (a / b) + N mod (Zpos K * D)) * T)
        by (f_equal; exact HdmN).
      assert (E2 : a * D = (Zpos K * T * (a / b) + a mod b) * D)
        by (rewrite <- Hb; f_equal; exact Hdm).
      lia. }
    split; [exact HD |].
    unfold float_rem, c_fmod. fold e0. fold a. fold b.
    destruct (a mod b) as [| R | R] eqn:ER; [| | lia].
    + cbn. nia.
    + cbn [nonzero is_negative Bool.eqb negb].
      destruct (Z.leb_spec 0 e0).
      * assert (E0 : e0 = 0) by lia.
        unfold T in Hmod. rewrite E0 in Hmod |- *.
        change (2 ^ 0) with 1. change (2 ^ (- 0)) with 1 in Hmod. lia.
      * exact Hmod.
Qed.

(** [int] on a non-negative [float]: the integer part. *)
Lemma int_of_ratio (x : spec_float) (N D : Z) :
  exact_ratio x N D -> int_of_float x = Ok (N / D).
Proof.
  intros [HD Hx].
  destruct x as [s | s | | s m e]; [| destruct Hx | destruct Hx |].
  - subst N. rewrite Zdiv_0_l. reflexivity.
  - destruct s; [destruct Hx |]. unfold int_of_float.
    destruct (Z.leb_spec 0 e).
    + rewrite Hx, Z.div_mul by lia. reflexivity.
    + f_equal.
      assert (HP : 0 < 2 ^ (- e)) by (apply Z.pow_pos_nonneg; lia).
      pose proof (Z.div_mod (Zpos m) (2 ^ (- e)) ltac:(lia)) as Hdm.
      pose proof (Z.mod_pos_bound (Zpos m) (2 ^ (- e)) HP) as Hr.
      apply (Z.div_unique_pos _ _ _ (N - D * (Zpos m / 2 ^ (- e)))); [| lia].
      set (P := 2 ^ (- e)) in *. set (q := Zpos m / P) in *.
      assert (H1 : D * q * P <= N * P) by nia.
      assert (H2 : N * P < D * (q + 1) * P) by nia.
      apply Z.mul_le_mono_pos_r in H1; [| exact HP].
      apply Z.mul_lt_mono_pos_r in H2; [| exact HP].
      lia.
Qed.

(** The two divisors of the formatters. *)
Lemma f60_eq : float_of_Z 60 = S754_finite false 8444249301319680 (-47).
Proof. vm_compute. reflexivity. Qed.

Lemma f3600_eq : float_of_Z 3600 = S754_finite false 7916483719987200 (-41).
Proof. vm_compute. reflexivity. Qed.

(** Their mantissas are the divisors, shifted to 53 digits. *)
Lemma f60_shape :
  -52 <= -47 <= 0 /\ 8444249301319680 = 60 * 2 ^ (- -47)
  /\ Zpos (digits2_pos 8444249301319680) = 53.
Proof. vm_compute. repeat split; discriminate. Qed.

Lemma f3600_shape :
  -52 <= -41 <= 0 /\ 7916483719987200 = 3600 * 2 ^ (- -41)
  /\ Zpos (digits2_pos 7916483719987200) = 53.
Proof. vm_compute. repeat split; discriminate. Qed.

(** ** Duration *)

Lemma ratio_nonneg (x : spec_float) (N D : Z) : exact_ratio x N D -> 0 <= N.
Proof.
  intros [HD Hx].
  destruct x as [s | s | | s m e]; [lia | destruct Hx | destruct Hx |].
  destruct s; [destruct Hx |].
  destruct (Z.leb_spec 0 e).
  - assert (0 < 2 ^ e) by (apply Z.pow_pos_nonneg; lia). nia.
  - assert (0 < 2 ^ (- e)) by (apply Z.pow_pos_nonneg; lia). nia.
Qed.

(** Integer parts of a rational [N / D] and of its integer part agree. *)
Lemma floor_of_floor (N D K : Z) :
  0 < D -> 0 < K ->
  N / (K * D) = N / D / K
  /\ N mod (K * D) / D = (N / D) mod K.
Proof.
  intros HD HK. split.
  - rewrite (Z.mul_comm K D). symmetry. apply Z.div_div; lia.
  - rewrite (Z.mul_comm K D), Z.rem_mul_r by lia.
    rewrite (Z.mul_comm D), Z.div_add by lia.
    rewrite (Z.div_small (N mod D)); [lia |]. apply Z.mod_pos_bound, HD.
Qed.

(** A non-negative [float] below 2^53 is formatted as its integer part. *)
Lemma format_duration_of_float (x : float) (N D : Z) :
  exact_ratio (Prim2SF x) N D -> N < 2 ^ 53 * D ->
  Haddock.format_duration (PFloat x) = Haddock.format_duration (PInt (N / D)).
Proof.
  intros Hx Hlt.
  destruct f3600_shape as (Hk1 & Hk2 & Hk3).
  destruct f60_shape as (Hm1 & Hm2 & Hm3).
  pose proof Hx as [HD _].
  pose proof (ratio_nonneg _ _ _ Hx) as HN.
  pose proof (float_rem_exact 3600 _ (-41) _ N D ltac:(lia) Hk2 Hx) as Hrem.
  pose proof (Z.mod_pos_bound N (3600 * D) ltac:(lia)) as Hr.
  destruct (floor_of_floor N D 3600 HD ltac:(lia)) as [Eh Ehm].
  destruct (floor_of_floor N D 60 HD ltac:(lia)) as [_ Es].
  destruct (floor_of_floor (N mod (3600 * D)) D 60 HD ltac:(lia)) as [Em _].
  unfold Haddock.format_duration.
  cbn [as_num rbind num_floordiv num_mod py_int].
  rewrite f3600_eq, f60_eq.
  rewrite (floordiv_exact 3600 _ (-41) _ N D Hk1 Hk2 Hk3 Hx Hlt).
  rewrite (floordiv_exact 60 _ (-47) _ _ D Hm1 Hm2 Hm3 Hrem ltac:(lia)).
  rewrite (int_of_ratio _ _ _ (float_rem_exact 60 _ (-47) _ N D ltac:(lia) Hm2 Hx)).
  cbn [rbind].
  rewrite Eh, Em, Ehm, Es. reflexivity.
Qed.

(** C8 (amended).  For every non-negative integer number of seconds [n],
    split as [n = 3600 h + 60 m + s] with [m, s < 60], [format_duration]
    returns the parts "[h]h", "[m]m", "[s]s" joined by a space, a part
    being left out when its value is zero, except that the seconds are
    shown when nothing else is.  A non-negative [float], the rational
    [N / D], below 2^53 is formatted as its integer part [N / D].  0 gives
    "0s", 3661 gives "1h 1m 1s", 90 gives "1m 30s", and so does 90.5. *)
Theorem format_duration_compact :
  (forall n : Z, 0 <= n ->
     exists h m s : Z,
       n = 3600 * h + 60 * m + s /\ 0 <= h /\ 0 <= m < 60 /\ 0 <= s < 60 /\
       Haddock.format_duration (PInt n)
       = Ok (join " " (unit_part h "h" ++ unit_part m "m" ++ seconds_part h m s)%list))
  /\ (forall (x : float) (N D : Z),
        exact_ratio (Prim2SF x) N D -> N < 2 ^ 53 * D ->
        0 <= N / D
        /\ Haddock.format_duration (PFloat x) = Haddock.format_duration (PInt (N / D)))
  /\ Haddock.format_duration (PInt 0) = Ok "0s"
  /\ Haddock.format_duration (PInt 3661) = Ok "1h 1m 1s"
  /\ Haddock.format_duration (PInt 90) = Ok "1m 30s"
  /\ Haddock.format_duration (PFloat 90.5) = Ok "1m 30s".
Proof.
  split; [| split; [| repeat split; vm_compute; reflexivity]].
  - intros n Hn.
    exists (n / 3600), (n mod 3600 / 60), (n mod 60).
    split; [| split; [| split; [| split]]].
    + Z.to_euclidean_division_equations; lia.
    + Z.to_euclidean_division_equations; lia.
    + Z.to_euclidean_division_equations; lia.
    + Z.to_euclidean_division_equations; lia.
    + unfold Haddock.format_duration, unit_part, seconds_part.
      cbn [as_num rbind num_floordiv num_mod py_int].
      destruct (n / 3600 =? 0), (n mod 3600 / 60 =? 0), (n mod 60 =? 0); reflexivity.
  - intros x N D Hx Hlt. split.
    + destruct Hx as [HD Hx]. apply Z.div_pos; [| exact HD].
      apply (ratio_nonneg (Prim2SF x) N D). split; assumption.
    + apply format_duration_of_float; assumption.
Qed.

(** Runs of C8 at 3725 seconds and at 90.5 seconds, the rational 181/2. *)
Lemma format_duration_compact_witness :
  (exists h m s : Z,
     3725 = 3600 * h + 60 * m + s /\ 0 <= h /\ 0 <= m < 60 /\ 0 <= s < 60 /\
     Haddock.format_duration (PInt 3725)
     = Ok (join " " (unit_part h "h" ++ unit_part m "m" ++ seconds_part h m s)%list))
  /\ 0 <= 181 / 2
  /\ Haddock.format_duration (PFloat 90.5) = Haddock.format_duration (PInt (181 / 2)).
Proof.
  split.
  - apply (proj1 format_duration_compact 3725). lia.
  - apply (proj1 (proj2 format_duration_compact) 90.5%float 181 2);
      [vm_compute; split; reflexivity | vm_compute; reflexivity].
Defined.

(** C8 as stated fails for [float] seconds.  Infinity is a non-negative
    [float]: its floor division is not a number and [int] raises
    [ValueError].  The float 1e20 is the integer 10^20 exactly, and it is
    printed with one hour less than the integer 10^20: beyond 2^53 the
    float floor division is rounded. *)
Lemma format_duration_float_fails :
  Haddock.format_duration (PFloat infinity) = Raise ValueError
  /\ exact_ratio (Prim2SF 1e20) (10 ^ 20) 1
  /\ Haddock.format_duration (PFloat 1e20) = Ok "27777777777777776h 46m 40s"
  /\ Haddock.format_duration (PInt (10 ^ 20)) = Ok "27777777777777777h 46m 40s".
Proof. repeat split; vm_compute; reflexivity. Qed.

(** The formatter also takes a [float] number of seconds. *)
Example format_duration_float :
  Haddock.format_duration (PFloat 90.5) = Ok "1m 30s"
  /\ Haddock.format_duration (PFloat 3661) = Ok "1h 1m 1s".
Proof. split; vm_compute; reflexivity. Qed.

(** ** Pace *)

(** Rounding keeps the sign it is given. *)
Lemma binary_round_aux_class (s : bool) (m e : Z) (l : location) :
  match binary_round_aux prec emax s m e l with
  | S754_zero s' | S754_infinity s' | S754_finite s' _ _ => s' = s
  | S754_nan => True
  end.
Proof.
  unfold binary_round_aux.
  destruct (shr_fexp prec emax m e l) as [mrs' e'].
  destruct (shr_fexp prec emax _ e' loc_Exact) as [mrs'' e''].
  destruct (shr_m mrs''); [reflexivity | | exact I].
  destruct (e'' <=? emax - prec); reflexivity.
Qed.

Lemma pace_constant_eq : Prim2SF 1609.34 = S754_finite false 7077952172180111 (-42).
Proof. vm_compute. reflexivity. Qed.

Lemma positive_shape (f : spec_float) :
  SFltb (S754_zero false) f = true ->
  f = S754_infinity false \/ exists m e, f = S754_finite false m e.
Proof.
  destruct f as [s | s | | s m e]; cbn; try discriminate.
  - destruct s; [discriminate | auto].
  - destruct s; [discriminate | eauto].
Qed.

Lemma pace_quotient_shape (f : spec_float) :
  SFltb (S754_zero false) f = true ->
  is_finite_float (fdiv (Prim2SF 1609.34) f) = true ->
  fdiv (Prim2SF 1609.34) f = S754_zero false
  \/ exists m e, fdiv (Prim2SF 1609.34) f = S754_finite false m e.
Proof.
  intros Hpos Hfin.
  rewrite pace_constant_eq in *.
  destruct (positive_shape f Hpos) as [-> | (m & e & ->)].
  - left. reflexivity.
  - unfold fdiv, SFdiv in *.
    destruct (SFdiv_core_binary prec emax _ _ _ _) as [[mz ez] lz].
    pose proof (binary_round_aux_class (xorb false false) mz ez lz) as Hc.
    destruct (binary_round_aux prec emax (xorb false false) mz ez lz) as [s | s | | s m' e'];
      cbn in Hfin; try discriminate; cbn in Hc; subst s; eauto.
Qed.

Lemma seconds_of_pace (spm : spec_float) :
  spm = S754_zero false \/ (exists m e, spm = S754_finite false m e) ->
  exists seconds N D : Z,
    int_of_float (float_rem spm (float_of_Z 60)) = Ok seconds
    /\ 0 <= seconds <= 59
    /\ exact_ratio spm N D
    /\ seconds = (N mod (60 * D)) / D.
Proof.
  rewrite f60_eq.
  intros [-> | (m & e & ->)].
  - exists 0, 0, 1. cbn. repeat split; lia.
  - set (e0 := Z.min e (-47)).
    assert (He0 : e0 <= e /\ e0 <= -47) by (unfold e0; lia).
    set (D := 2 ^ (- e0)).
    assert (HD : 0 < D) by (unfold D; apply Z.pow_pos_nonneg; lia).
    set (N := Zpos m * 2 ^ (e - e0)).
    assert (HY : 8444249301319680 * 2 ^ (-47 - e0) = 60 * D).
    { unfold D. replace (- e0) with (47 + (-47 - e0)) by lia.
      rewrite Z.pow_add_r by lia. change (2 ^ 47) with 140737488355328. lia. }
    assert (Hr : 0 <= N mod (60 * D) < 60 * D) by (apply Z.mod_pos_bound; lia).
    exists ((N mod (60 * D)) / D), N, D.
    assert (Hq : 0 <= N mod (60 * D) / D <= 59).
    { split.
      - apply Z.div_pos; lia.
      - assert (N mod (60 * D) / D < 60); [| lia].
        apply Z.div_lt_upper_bound; lia. }
    split; [| split; [exact Hq | split; [| reflexivity]]].
    + unfold float_rem, c_fmod. fold e0. fold N. rewrite HY.
      destruct (N mod (60 * D)) as [| r | r] eqn:Er.
      * cbn. rewrite Z.div_0_l by lia. reflexivity.
      * cbn [nonzero is_negative Bool.eqb negb int_of_float].
        replace (0 <=? e0) with false by (symmetry; apply Z.leb_gt; lia).
        reflexivity.
      * lia.
    + split; [exact HD |].
      destruct (0 <=? e) eqn:Ee.
      * apply Z.leb_le in Ee. unfold N, D.
        replace (e - e0) with (e + - e0) by lia.
        rewrite Z.pow_add_r by lia. lia.
      * apply Z.leb_gt in Ee. unfold N, D.
        rewrite <- Z.mul_assoc, <- Z.pow_add_r by lia.
        replace (e - e0 + - e) with (- e0) by lia. reflexivity.
Qed.

Lemma format_02d_two_digits (s : Z) :
  0 <= s <= 59 -> String.length (format_02d s) = 2%nat.
Proof.
  intros Hs.
  assert (H : forallb (fun k => Nat.eqb (String.length (format_02d (Z.of_nat k))) 2)
                (seq 0 60) = true) by (vm_compute; reflexivity).
  rewrite forallb_forall in H.
  specialize (H (Z.to_nat s)).
  rewrite Z2Nat.id in H by lia.
  apply Nat.eqb_eq, H, in_seq. lia.
Qed.

Lemma floordiv_finite_quotient (spm : spec_float) :
  is_finite_float (fst (float_div_mod spm (float_of_Z 60))) = true ->
  is_finite_float spm = true.
Proof.
  rewrite f60_eq.
  destruct spm as [s | s | | s m e]; try reflexivity.
  - destruct s; vm_compute; intros H; exact H.
  - vm_compute; intros H; exact H.
Qed.

Lemma positive_is_truthy (v : pyval) (f : spec_float) :
  (n <- as_num v ;; to_float n)%res = Ok f ->
  SFltb (S754_zero false) f = true ->
  negb (truthy v) || eq_zero v = false /\ nonzero f = true.
Proof.
  intros Hf Hpos.
  assert (Hnz : nonzero f = true).
  { destruct (positive_shape f Hpos) as [-> | (m & e & ->)]; reflexivity. }
  split; [| exact Hnz].
  destruct v as [| b | z | x | s | l | d]; cbn in Hf; try discriminate.
  - destruct b; [reflexivity |].
    cbn in Hf. injection Hf as <-. discriminate.
  - destruct (Z.eqb_spec z 0) as [-> | Hz].
    + cbn in Hf. injection Hf as <-. discriminate.
    + cbn. destruct (Z.eqb_spec z 0); [contradiction | reflexivity].
  - injection Hf as <-. cbn. rewrite Hnz. reflexivity.
Qed.

(** Beyond 2^53, while the floor division stays finite, the string keeps
    its shape and its seconds; the minutes are what the float floor
    division gives. *)
Lemma format_pace_finite (v : pyval) (f : spec_float) :
  (n <- as_num v ;; to_float n)%res = Ok f ->
  SFltb (S754_zero false) f = true ->
  is_finite_float
    (fst (float_div_mod (fdiv (Prim2SF 1609.34) f) (float_of_Z 60))) = true ->
  exists minutes seconds N D : Z,
    Haddock.format_pace v
    = Ok (str_of_Z minutes +:+ ":" +:+ format_02d seconds +:+ " /mi")
    /\ int_of_float (fst (float_div_mod (fdiv (Prim2SF 1609.34) f) (float_of_Z 60)))
       = Ok minutes
    /\ 0 <= seconds <= 59
    /\ String.length (format_02d seconds) = 2%nat
    /\ exact_ratio (fdiv (Prim2SF 1609.34) f) N D
    /\ seconds = (N mod (60 * D)) / D.
Proof.
  intros Hf Hpos Hfin.
  destruct (positive_is_truthy v f Hf Hpos) as [Hguard Hnz].
  pose proof (floordiv_finite_quotient _ Hfin) as Hspm.
  destruct (seconds_of_pace _ (pace_quotient_shape f Hpos Hspm))
    as (seconds & N & D & Hsec & Hrange & Hratio & Htrunc).
  assert (Hmin : exists minutes,
             int_of_float (fst (float_div_mod (fdiv (Prim2SF 1609.34) f) (float_of_Z 60)))
             = Ok minutes).
  { destruct (fst (float_div_mod _ _)) as [s | s | | s m e]; cbn in Hfin; try discriminate;
      cbn; eauto. }
  destruct Hmin as [minutes Hmin].
  exists minutes, seconds, N, D.
  split; [| split; [exact Hmin | split; [exact Hrange |
            split; [apply format_02d_two_digits, Hrange |
            split; [exact Hratio | exact Htrunc]]]]].
  unfold Haddock.format_pace. rewrite Hguard.
  destruct (as_num v) as [n |]; [| discriminate]. cbn [rbind] in Hf |- *.
  rewrite Hf. cbn [rbind]. unfold float_truediv. rewrite Hnz. cbn [rbind].
  cbn [num_floordiv num_mod py_int]. rewrite Hmin, Hsec. reflexivity.
Qed.

(** C9 (amended).  [format_pace] maps [None], 0 and 0.0 to "N/A", maps
    2.68 m/s to "10:00 /mi" and 3.3 m/s to "8:07 /mi" (487.68 s, not
    rounded up), and maps every positive speed whose pace, the binary64
    quotient [1609.34 / v], is a rational [N / D] below 2^53 seconds per
    mile to "[minutes]:[seconds] /mi": the minutes are the integer part
    of the pace over 60, and the seconds, two digits between 00 and 59,
    the integer part of its remainder modulo 60. *)
Theorem format_pace_spec :
  Haddock.format_pace PNone = Ok "N/A"
  /\ Haddock.format_pace (PInt 0) = Ok "N/A"
  /\ Haddock.format_pace (PFloat 0) = Ok "N/A"
  /\ Haddock.format_pace (PFloat 2.68) = Ok "10:00 /mi"
  /\ Haddock.format_pace (PFloat 3.3) = Ok "8:07 /mi"
  /\ forall (v : pyval) (f : spec_float) (N D : Z),
       (n <- as_num v ;; to_float n)%res = Ok f ->
       SFltb (S754_zero false) f = true ->
       exact_ratio (fdiv (Prim2SF 1609.34) f) N D ->
       N < 2 ^ 53 * D ->
       let minutes := N / (60 * D) in
       let seconds := N mod (60 * D) / D in
       Haddock.format_pace v
       = Ok (str_of_Z minutes +:+ ":" +:+ format_02d seconds +:+ " /mi")
       /\ 0 <= minutes
       /\ 0 <= seconds <= 59
       /\ String.length (format_02d seconds) = 2%nat.
Proof.
  split; [reflexivity |]. split; [reflexivity |].
  split; [vm_compute; reflexivity |]. split; [vm_compute; reflexivity |].
  split; [vm_compute; reflexivity |].
  intros v f N D Hf Hpos Hx Hlt minutes seconds.
  destruct (positive_is_truthy v f Hf Hpos) as [Hguard Hnz].
  destruct f60_shape as (Hm1 & Hm2 & Hm3).
  pose proof Hx as [HD _].
  pose proof (ratio_nonneg _ _ _ Hx) as HN.
  pose proof (Z.mod_pos_bound N (60 * D) ltac:(lia)) as Hr.
  assert (Hsec : 0 <= seconds <= 59).
  { unfold seconds. split; [apply Z.div_pos; lia |].
    assert (N mod (60 * D) / D < 60); [| lia].
    apply Z.div_lt_upper_bound; lia. }
  split; [| split; [apply Z.div_pos; lia | split; [exact Hsec |
            apply format_02d_two_digits, Hsec]]].
  unfold Haddock.format_pace. rewrite Hguard.
  destruct (as_num v) as [n |]; [| discriminate]. cbn [rbind] in Hf |- *.
  rewrite Hf. cbn [rbind]. unfold float_truediv. rewrite Hnz. cbn [rbind].
  cbn [num_floordiv num_mod py_int]. rewrite f60_eq.
  rewrite (floordiv_exact 60 _ (-47) _ N D Hm1 Hm2 Hm3 Hx Hlt).
  rewrite (int_of_ratio _ _ _ (float_rem_exact 60 _ (-47) _ N D ltac:(lia) Hm2 Hx)).
  reflexivity.
Qed.

(** A run of C9 at 2.68 m/s: the pace is 5282053859835903 / 2^43
    seconds per mile, a little over 600. *)
Lemma format_pace_spec_witness :
  let minutes := 5282053859835903 / (60 * 8796093022208) in
  let seconds := 5282053859835903 mod (60 * 8796093022208) / 8796093022208 in
  Haddock.format_pace (PFloat 2.68)
  = Ok (str_of_Z minutes +:+ ":" +:+ format_02d seconds +:+ " /mi")
  /\ 0 <= minutes
  /\ 0 <= seconds <= 59
  /\ String.length (format_02d seconds) = 2%nat.
Proof.
  apply (proj2 (proj2 (proj2 (proj2 (proj2 format_pace_spec))))
           (PFloat 2.68) (Prim2SF 2.68));
    [reflexivity | reflexivity | vm_compute; split; reflexivity | vm_compute; reflexivity].
Defined.

(** C9 as stated fails for slow speeds.  1e-320 m/s is a positive speed,
    the quotient [1609.34 / 1e-320] overflows to infinity, its floor
    division is not a number, and [int] raises [ValueError].  At 1e-15 m/s
    the pace is the integer 1609339999999999744, above 2^53: the minutes
    printed are one short of its integer quotient by 60. *)
Lemma format_pace_overflow :
  (positive_speed (PFloat 1e-320) = true
   /\ Haddock.format_pace (PFloat 1e-320) = Raise ValueError)
  /\ (positive_speed (PFloat 1e-15) = true
      /\ exact_ratio (fdiv (Prim2SF 1609.34) (Prim2SF 1e-15)) 1609339999999999744 1
      /\ 1609339999999999744 / 60 = 26822333333333329
      /\ Haddock.format_pace (PFloat 1e-15) = Ok "26822333333333328:04 /mi").
Proof. repeat split; vm_compute; reflexivity. Qed.

(** * Properties of the workout summary *)

(** C3 (amended).  For every value, [build_workout_summary] is the table
    [summary_rows] rendered: the shown rows as "Label: value" lines in the
    fixed order, joined by line feeds.  The rows for the type, the
    original title and the duration are always shown (with "Workout",
    "Untitled" and 0 seconds when the field is absent); each other row is
    shown only when its field is present and true (non-zero, non-empty);
    the pace row needs in addition a type "Run" or "VirtualRun".  A value
    that is not a [dict] has no [get]; a field that cannot be formatted
    raises. *)
Theorem build_workout_summary_rows (py_repr : pyval -> string) (activity : pyval) :
  Haddock.build_workout_summary py_repr activity
  = match activity with
    | PDict d => (ls <- render (summary_rows py_repr d) ;; Ok (join NL ls))%res
    | _ => Raise AttributeError
    end.
Proof.
  destruct activity as [| b | z | x | s | l | d]; try reflexivity.
  unfold Haddock.build_workout_summary, summary_rows, field.
  cbn [py_get rbind render].
  destruct (Haddock.format_duration _) as [dur |]; [| reflexivity].
  cbn [rbind].
  destruct (truthy (default (PInt 0) (d !! "distance")));
    [destruct (Haddock.format_distance _); [| reflexivity] |];
  cbn [rbind];
  (destruct (truthy (default (PInt 0) (d !! "average_speed")) && _);
    [destruct (Haddock.format_pace _); [| reflexivity] |]);
  cbn [rbind];
  (destruct (truthy (default PNone (d !! "average_heartrate")));
    [destruct (format_fixed 0 (default PNone (d !! "average_heartrate"))); [| reflexivity] |]);
  cbn [rbind];
  (destruct (truthy (default PNone (d !! "max_heartrate")));
    [destruct (format_fixed 0 (default PNone (d !! "max_heartrate"))); [| reflexivity] |]);
  cbn [rbind];
  (destruct (truthy (default PNone (d !! "calories")));
    [destruct (format_fixed 0 (default PNone (d !! "calories"))); [| reflexivity] |]);
  cbn [rbind];
  (destruct (truthy (default (PInt 0) (d !! "total_elevation_gain")));
    [destruct (py_mul_float _ _); [| reflexivity] |]);
  cbn [rbind];
  destruct (truthy (default (PStr "") (d !! "description")));
  reflexivity.
Qed.

(** C3 as stated fails: with no field present the summary still has the
    three lines for type, title and duration. *)
Lemma build_workout_summary_empty_record :
  let d : gmap string pyval := ∅ in
  d !! "type" = None /\ d !! "name" = None /\ d !! "elapsed_time" = None
  /\ Haddock.build_workout_summary (fun _ => EmptyString) (PDict d)
     = Ok ("Activity Type: Workout" +:+ NL +:+ "Original Title: Untitled" +:+ NL +:+ "Duration: 0s").
Proof. repeat split. Qed.

(** A ride with an average speed has no pace line; a run has one. *)
Example build_workout_summary_pace_only_for_runs :
  let ride : gmap string pyval :=
    <["type" := PStr "Ride"]> (<["average_speed" := PFloat 5]> ∅) in
  let run : gmap string pyval :=
    <["type" := PStr "Run"]> (<["average_speed" := PFloat 2.68]> ∅) in
  Haddock.build_workout_summary (fun _ => EmptyString) (PDict ride)
  = Ok ("Activity Type: Ride" +:+ NL +:+ "Original Title: Untitled" +:+ NL +:+ "Duration: 0s")
  /\ Haddock.build_workout_summary (fun _ => EmptyString) (PDict run)
     = Ok ("Activity Type: Run" +:+ NL +:+ "Original Title: Untitled" +:+ NL +:+ "Duration: 0s"
           +:+ NL +:+ "Pace: 10:00 /mi").
Proof. split; vm_compute; reflexivity. Qed.

(** The unit conversions at sample values: one mile of meters, 100 m of
    climb, and heart rate and calories shown as whole numbers. *)
Example format_distance_mile :
  Haddock.format_distance (PFloat 1609.34) = Ok "1.00 mi"
  /\ Haddock.format_distance (PInt 5000) = Ok "3.11 mi".
Proof. split; vm_compute; reflexivity. Qed.

(** Heart rate, calories and elevation in one summary. *)
Example build_workout_summary_units :
  let ride : gmap string pyval :=
    <["type" := PStr "Ride"]>
      (<["total_elevation_gain" := PInt 100]>
         (<["average_heartrate" := PFloat 151.6]>
            (<["max_heartrate" := PInt 180]> (<["calories" := PFloat 512.4]> ∅)))) in
  Haddock.build_workout_summary (fun _ => EmptyString) (PDict ride)
  = Ok (join NL ["Activity Type: Ride"; "Original Title: Untitled"; "Duration: 0s";
                 "Average Heart Rate: 152 bpm"; "Max Heart Rate: 180 bpm";
                 "Calories: 512"; "Elevation Gain: 328 ft"]).
Proof. vm_compute. reflexivity. Qed.

(** * Properties of the response parser *)

(** A prefix stays a prefix when text is added at the end. *)
Lemma prefix_app (p s t : string) :
  String.prefix p s = true -> String.prefix p (s +:+ t) = true.
Proof.
  revert s. induction p as [| c p IH]; intros s H.
  - destruct (s +:+ t); reflexivity.
  - destruct s as [| c' s]; [discriminate |].
    simpl in H |- *. destruct (ascii_dec c c'); [apply IH; exact H | discriminate].
Qed.

Lemma str_find_unfold (p s : string) :
  str_find p s
  = if String.prefix p s then Some O
    else match s with
         | EmptyString => None
         | String _ s' => option_map S (str_find p s')
         end.
Proof. destruct s; reflexivity. Qed.

(** No occurrence in the text, no occurrence at any position. *)
Lemma str_find_none_drop (p s : string) (n : nat) :
  str_find p s = None -> String.prefix p (drop_str n s) = false.
Proof.
  revert n. induction s as [| c s IH]; intros n H; rewrite str_find_unfold in H.
  - destruct (String.prefix p "") eqn:E; [discriminate |].
    destruct n; exact E.
  - destruct (String.prefix p (String c s)) eqn:E; [discriminate |].
    destruct n as [| n]; [exact E |].
    simpl. apply IH. destruct (str_find p s); [discriminate | reflexivity].
Qed.

Lemma split_lines_nonempty (s : string) : split_lines s <> [].
Proof.
  induction s as [| c s IH]; cbn; [discriminate |].
  destruct (Ascii.eqb c _); [discriminate |].
  destruct (split_lines s); discriminate.
Qed.

(** Every line of the text starts somewhere in the text. *)
Lemma split_lines_substring (s line : string) :
  In line (split_lines s) -> exists n rest, drop_str n s = line +:+ rest.
Proof.
  revert line. induction s as [| c s IH]; intros line Hin.
  - cbn in Hin. destruct Hin as [<- | []]. exists O, "". reflexivity.
  - cbn in Hin. destruct (Ascii.eqb c (ascii_of_nat 10)).
    + destruct Hin as [<- | Hin].
      * exists O, (String c s). reflexivity.
      * destruct (IH _ Hin) as (n & rest & H). exists (S n), rest. exact H.
    + destruct (split_lines s) as [| l ls] eqn:E; [destruct (split_lines_nonempty s E) |].
      destruct Hin as [<- | Hin].
      * destruct (IH l (or_introl eq_refl)) as (n & rest & H).
        (* the first line starts at position 0 *)
        assert (H0 : exists rest0, s = l +:+ rest0).
        { clear - E. revert l ls E. induction s as [| c s IHs]; intros l ls E.
          - cbn in E. injection E as <- <-. exists "". reflexivity.
          - cbn in E. destruct (Ascii.eqb c (ascii_of_nat 10)).
            + injection E as <- <-. exists (String c s). reflexivity.
            + destruct (split_lines s) as [| l' ls'] eqn:E'; [destruct (split_lines_nonempty s E') |].
              injection E as <- <-.
              destruct (IHs l' ls' eq_refl) as [rest0 ->]. exists rest0. reflexivity. }
        destruct H0 as [rest0 ->]. exists O, rest0. reflexivity.
      * destruct (IH _ (or_intror Hin)) as (n & rest & H). exists (S n), rest. exact H.
Qed.

Lemma no_marker_no_line (p s line : string) :
  str_find p s = None -> In line (split_lines s) -> startswith p line = false.
Proof.
  intros Hnone Hin.
  destruct (split_lines_substring s line Hin) as (n & rest & H).
  destruct (startswith p line) eqn:E; [| reflexivity].
  pose proof (prefix_app p line rest E) as Hp.
  rewrite <- H, (str_find_none_drop p s n Hnone) in Hp. discriminate.
Qed.

Lemma parse_lines_description_kept (lines : list string) (title description : string) :
  (forall line, In line lines -> startswith "DESCRIPTION:" line = false) ->
  snd (Haddock.parse_lines lines title description) = description.
Proof.
  revert title. induction lines as [| line rest IH]; intros title H; [reflexivity |].
  cbn [Haddock.parse_lines].
  destruct (startswith "TITLE:" line).
  - apply IH. intros l Hl. apply H. right. exact Hl.
  - rewrite (H line (or_introl eq_refl)). apply IH. intros l Hl. apply H. right. exact Hl.
Qed.

(** The description is everything after the first marker, trimmed, and
    empty without a marker: the second half of C2 holds for every text. *)
Theorem parse_response_description (response_text : string) :
  snd (Haddock.parse_response response_text) = description_spec response_text.
Proof.
  unfold Haddock.parse_response, description_spec, contains.
  destruct (Haddock.parse_lines (split_lines response_text) "" "") as [t d] eqn:E.
  destruct (str_find "DESCRIPTION:" response_text) as [i |] eqn:F.
  - reflexivity.
  - cbn [snd].
    change d with (snd (t, d)). rewrite <- E.
    apply parse_lines_description_kept.
    intros line Hin. apply (no_marker_no_line _ _ _ F Hin).
Qed.

Lemma remove_all_fuel_none (fuel : nat) (p t : string) :
  str_find p t = None -> remove_all_fuel fuel p t = t.
Proof.
  revert t. induction fuel as [| fuel IH]; intros t H; [reflexivity |].
  rewrite str_find_unfold in H. simpl.
  destruct (String.prefix p t); [discriminate |].
  destruct t as [| c t]; [reflexivity |].
  f_equal. apply IH. destruct (str_find p t); [discriminate | reflexivity].
Qed.

Lemma remove_all_title_once (line : string) :
  startswith "TITLE:" line = true ->
  contains "TITLE:" (drop_str 6 line) = false ->
  remove_all "TITLE:" line = drop_str 6 line.
Proof.
  unfold startswith, contains, remove_all. intros Hp Hc.
  destruct line as [| c line]; [discriminate |].
  cbn [String.length remove_all_fuel]. rewrite Hp.
  apply remove_all_fuel_none.
  change (String.length "TITLE:") with 6%nat.
  destruct (str_find "TITLE:" (drop_str 6 (String c line))); [discriminate | reflexivity].
Qed.

Lemma parse_lines_title (lines : list string) (title description : string) :
  (forall line, In line lines -> startswith "TITLE:" line = true ->
                contains "TITLE:" (drop_str 6 line) = false) ->
  fst (Haddock.parse_lines lines title description) = title_spec_lines lines title.
Proof.
  revert title description.
  induction lines as [| line rest IH]; intros title description H; [reflexivity |].
  cbn [Haddock.parse_lines title_spec_lines].
  assert (Hrest : forall l, In l rest -> startswith "TITLE:" l = true ->
                            contains "TITLE:" (drop_str 6 l) = false)
    by (intros l Hl; apply H; right; exact Hl).
  destruct (startswith "TITLE:" line) eqn:E.
  - rewrite (remove_all_title_once line E (H line (or_introl eq_refl) E)).
    apply IH, Hrest.
  - destruct (startswith "DESCRIPTION:" line); apply IH, Hrest.
Qed.

(** Where no title line repeats the marker, the title is the text after
    the prefix of the last title line, trimmed. *)
Lemma parse_response_title_single_marker (response_text : string) :
  (forall line, In line (split_lines response_text) -> startswith "TITLE:" line = true ->
                contains "TITLE:" (drop_str 6 line) = false) ->
  fst (Haddock.parse_response response_text) = title_spec response_text.
Proof.
  intros H. unfold Haddock.parse_response, title_spec.
  pose proof (parse_lines_title (split_lines response_text) "" "" H) as Ht.
  destruct (Haddock.parse_lines (split_lines response_text) "" "") as [t d].
  destruct (contains "DESCRIPTION:" response_text); exact Ht.
Qed.

(** The single-marker case at the specification's example. *)
Lemma parse_response_title_single_marker_witness :
  let response_text := "TITLE: Foo" +:+ NL +:+ "DESCRIPTION: Bar" +:+ NL +:+ "Baz" in
  fst (Haddock.parse_response response_text) = title_spec response_text.
Proof.
  apply parse_response_title_single_marker.
  intros line Hin Hs. vm_compute in Hin.
  destruct Hin as [<- | [<- | [<- | []]]]; vm_compute in Hs |- *; congruence.
Defined.

(** The example of C2, and a response without a description. *)
Example parse_response_example :
  Haddock.parse_response ("TITLE: Foo" +:+ NL +:+ "DESCRIPTION: Bar" +:+ NL +:+ "Baz")
  = ("Foo", "Bar" +:+ NL +:+ "Baz")
  /\ Haddock.parse_response "TITLE: Foo" = ("Foo", "").
Proof. split; vm_compute; reflexivity. Qed.

(** C2 at the failing input.  The title line holds the marker twice: the
    text after its prefix, trimmed, is "Foo TITLE: Bar", and the parser,
    which removes every occurrence of the marker, returns "Foo  Bar". *)
Theorem parse_response_title_repeated_marker :
  let response_text := "TITLE: Foo TITLE: Bar" +:+ NL +:+ "DESCRIPTION: x" in
  title_spec response_text = "Foo TITLE: Bar"
  /\ Haddock.parse_response response_text = ("Foo  Bar", "x").
Proof. split; vm_compute; reflexivity. Qed.

(** * Properties of the transform flow *)

Section HaddockRuns.

Variable py_repr : pyval -> string.
Variable http : list event -> request -> result response.
Variable llm : list event -> string -> result string.

#[local] Abbreviation strava_request := (Haddock.strava_request py_repr http).
#[local] Abbreviation bearer := (Haddock.bearer py_repr).

Ltac norm :=
  unfold Haddock.log, Haddock.with_access_token, Haddock.with_dotenv;
  cbn [Haddock.trace Haddock.dotenv
       Haddock.STRAVA_ACCESS_TOKEN Haddock.STRAVA_REFRESH_TOKEN Haddock.STRAVA_CLIENT_ID
       Haddock.STRAVA_CLIENT_SECRET Haddock.ANTHROPIC_API_KEY fst snd];
  rewrite <- ?app_assoc; cbn [app].

Lemma trace_log (ev : event) (st : Haddock.state) :
  Haddock.trace (Haddock.log ev st) = (Haddock.trace st ++ [ev])%list.
Proof. reflexivity. Qed.

Ltac norm_trace := cbn [fst snd]; rewrite ?trace_log, <- ?app_assoc; cbn [app].

Lemma added_app (st st' : Haddock.state) (evs : list event) :
  Haddock.trace st' = (Haddock.trace st ++ evs)%list -> added st st' = evs.
Proof. intros H. unfold added. rewrite H. apply drop_app_length. Qed.

Lemma fresh_tokens_some (answer : result response) (a r : string) :
  fresh_tokens answer = Some (a, r) ->
  exists resp tokens,
    answer = Ok resp /\ raise_for_status resp = Ok tt /\ json resp = Some (PDict tokens)
    /\ tokens !! "access_token" = Some (PStr a) /\ tokens !! "refresh_token" = Some (PStr r).
Proof.
  unfold fresh_tokens. intros H.
  destruct answer as [resp |]; [| discriminate].
  destruct (raise_for_status resp) as [[] |] eqn:Hs; [| discriminate].
  destruct (json resp) as [[| | | | | | tokens] |] eqn:Hj; try discriminate.
  destruct (tokens !! "access_token") as [[| | | | a' | |] |] eqn:Hat; try discriminate.
  destruct (tokens !! "refresh_token") as [[| | | | r' | |] |] eqn:Hrt; try discriminate.
  injection H as -> ->. exists resp, tokens. repeat split; assumption.
Qed.

(** A refresh that succeeds: one POST, both tokens written to the file,
    the new access token returned, the globals untouched. *)
Lemma refresh_access_token_ok (st : Haddock.state) (a r : string) :
  let answer := http (Haddock.trace st) (refresh_request st) in
  fresh_tokens answer = Some (a, r) ->
  Haddock.refresh_access_token http st
  = (Ok (PStr a),
     Haddock.mkState (Haddock.STRAVA_CLIENT_ID st) (Haddock.STRAVA_CLIENT_SECRET st)
       (Haddock.STRAVA_ACCESS_TOKEN st) (Haddock.STRAVA_REFRESH_TOKEN st)
       (Haddock.ANTHROPIC_API_KEY st)
       (<["STRAVA_REFRESH_TOKEN" := r]> (<["STRAVA_ACCESS_TOKEN" := a]> (Haddock.dotenv st)))
       (Haddock.trace st ++ [EvHttp (refresh_request st) answer;
                             EvSetKey "STRAVA_ACCESS_TOKEN" a;
                             EvSetKey "STRAVA_REFRESH_TOKEN" r])%list).
Proof.
  intros answer H.
  destruct (fresh_tokens_some _ _ _ H) as (resp & tokens & Ha & Hs & Hj & Hat & Hrt).
  unfold Haddock.refresh_access_token, bind, read, lift, Haddock.requests_request.
  fold (refresh_request st). fold answer. rewrite Ha, Hs.
  unfold response_json. rewrite Hj. cbn [py_getitem]. rewrite Hat, Hrt.
  unfold Haddock.set_key. norm. reflexivity.
Qed.

(** A refresh that fails raises; nothing but the POST went out and the
    globals are untouched.  The refresh token in the file is as before. *)
Lemma refresh_access_token_failed (st : Haddock.state) :
  let answer := http (Haddock.trace st) (refresh_request st) in
  fresh_tokens answer = None ->
  exists e st',
    Haddock.refresh_access_token http st = (Raise e, st')
    /\ (exists evs, Haddock.trace st' = (Haddock.trace st ++ EvHttp (refresh_request st) answer :: evs)%list
                    /\ sent evs = [])
    /\ Haddock.STRAVA_ACCESS_TOKEN st' = Haddock.STRAVA_ACCESS_TOKEN st
    /\ refresh_request st' = refresh_request st
    /\ Haddock.dotenv st' !! "STRAVA_REFRESH_TOKEN" = Haddock.dotenv st !! "STRAVA_REFRESH_TOKEN".
Proof.
  intros answer H.
  unfold Haddock.refresh_access_token, bind, read, lift, Haddock.requests_request.
  fold (refresh_request st). fold answer. unfold fresh_tokens in H.
  destruct answer as [resp | e].
  2:{ eexists _, _. split; [reflexivity |]. norm.
      repeat split; try reflexivity. exists []. split; reflexivity. }
  destruct (raise_for_status resp) as [[] | e].
  2:{ eexists _, _. split; [reflexivity |]. norm.
      repeat split; try reflexivity. exists []. split; reflexivity. }
  unfold response_json. destruct (json resp) as [tokens |].
  2:{ eexists _, _. split; [reflexivity |]. norm.
      repeat split; try reflexivity. exists []. split; reflexivity. }
  destruct tokens as [| | | | | | tokens];
    try (eexists _, _; split; [reflexivity |]; norm;
         repeat split; try reflexivity; exists []; split; reflexivity).
  cbn [py_getitem].
  destruct (tokens !! "access_token") as [access |].
  2:{ eexists _, _. split; [reflexivity |]. norm.
      repeat split; try reflexivity. exists []. split; reflexivity. }
  unfold Haddock.set_key.
  destruct access as [| | | | a | |];
    try (eexists _, _; split; [reflexivity |]; norm;
         repeat split; try reflexivity; exists []; split; reflexivity).
  destruct (tokens !! "refresh_token") as [refresh |].
  2:{ eexists _, _. split; [reflexivity |]. norm.
      repeat split; try reflexivity.
      - eexists. split; reflexivity.
      - rewrite lookup_insert_ne by discriminate. reflexivity. }
  destruct refresh as [| | | | r | |]; try discriminate;
    (eexists _, _; split; [reflexivity |]; norm;
     repeat split; try reflexivity;
     [ eexists; split; reflexivity
     | rewrite lookup_insert_ne by discriminate; reflexivity ]).
Qed.

(** The whole effect of a call whose first answer is 401, by the answer to
    the refresh request. *)
Lemma strava_request_expired
    (st : Haddock.state) (method endpoint : string) (kwargs : payload) (r1 : response) :
  let url := Haddock.STRAVA_API_BASE +:+ endpoint in
  let req1 := mkRequest method url (bearer (Haddock.STRAVA_ACCESS_TOKEN st)) kwargs in
  let tr1 := (Haddock.trace st ++ [EvStravaRequest method endpoint kwargs])%list in
  http tr1 req1 = Ok r1 ->
  status_code r1 = 401 ->
  let tr2 := (tr1 ++ [EvHttp req1 (Ok r1); EvPrint "Token expired, refreshing..."])%list in
  let answer := http tr2 (refresh_request st) in
  let out := strava_request method endpoint kwargs st in
  match fresh_tokens answer with
  | Some (a, r) =>
      let req2 := mkRequest method url (bearer (PStr a)) kwargs in
      let tr3 := (tr2 ++ [EvHttp (refresh_request st) answer;
                          EvSetKey "STRAVA_ACCESS_TOKEN" a;
                          EvSetKey "STRAVA_REFRESH_TOKEN" r])%list in
      let retry := http tr3 req2 in
      Haddock.trace (snd out) = (tr3 ++ [EvHttp req2 retry])%list
      /\ sent (added st (snd out)) = [req1; refresh_request st; req2]
      /\ Haddock.dotenv (snd out)
         = <["STRAVA_REFRESH_TOKEN" := r]> (<["STRAVA_ACCESS_TOKEN" := a]> (Haddock.dotenv st))
      /\ Haddock.STRAVA_ACCESS_TOKEN (snd out) = PStr a
      /\ refresh_request (snd out) = refresh_request st
      /\ fst out = (resp <- retry ;; _ <- raise_for_status resp ;; response_json resp)%res
      /\ (forall r3, retry = Ok r3 -> 400 <= status_code r3 < 600 ->
                     fst out = Raise (HTTPError (status_code r3) (text r3)))
  | None =>
      (exists e, fst out = Raise e)
      /\ sent (added st (snd out)) = [req1; refresh_request st]
      /\ Haddock.STRAVA_ACCESS_TOKEN (snd out) = Haddock.STRAVA_ACCESS_TOKEN st
      /\ refresh_request (snd out) = refresh_request st
      /\ Haddock.dotenv (snd out) !! "STRAVA_REFRESH_TOKEN"
         = Haddock.dotenv st !! "STRAVA_REFRESH_TOKEN"
  end.
Proof.
  intros url req1 tr1 H1 H401 tr2 answer out.
  set (st2 := Haddock.log (EvPrint "Token expired, refreshing...")
                (Haddock.log (EvHttp req1 (Ok r1))
                   (Haddock.log (EvStravaRequest method endpoint kwargs) st))).
  assert (Htr2 : Haddock.trace st2 = tr2) by (subst st2 tr2 tr1; norm; reflexivity).
  assert (Hreq : refresh_request st2 = refresh_request st) by reflexivity.
  assert (Hstart :
    out = (let '(res, st3) := Haddock.refresh_access_token http st2 in
           match res with
           | Ok token =>
               let req2 := mkRequest method url (bearer token) kwargs in
               let retry := http (Haddock.trace st3) req2 in
               ((resp <- retry ;; _ <- raise_for_status resp ;; response_json resp)%res,
                Haddock.log (EvHttp req2 retry) (Haddock.with_access_token token st3))
           | Raise e => (Raise e, st3)
           end)).
  { subst out. unfold Haddock.strava_request.
    unfold bind at 1. unfold Haddock.note at 1. unfold bind at 1. unfold read at 1.
    unfold bind at 1. unfold Haddock.requests_request at 1.
    cbn [Haddock.trace Haddock.log Haddock.STRAVA_ACCESS_TOKEN].
    fold url. fold req1. fold tr1. rewrite H1. rewrite H401. cbn [Z.eqb Pos.eqb].
    unfold bind at 1. unfold bind at 1. unfold Haddock.print, Haddock.note.
    unfold bind at 1. fold st2.
    destruct (Haddock.refresh_access_token http st2) as [[token | e] st3]; [| reflexivity].
    unfold bind, Haddock.set_access_token, Haddock.requests_request, lift.
    cbn [Haddock.trace Haddock.with_access_token].
    destruct (http (Haddock.trace st3) _) as [resp | e]; [| reflexivity].
    cbn [rbind]. destruct (raise_for_status resp) as [[] | e]; reflexivity. }
  rewrite Hstart. clear Hstart.
  destruct (fresh_tokens answer) as [[a r] |] eqn:Hfresh.
  - pose proof (refresh_access_token_ok st2 a r) as Hok.
    cbn zeta in Hok. rewrite Hreq, Htr2 in Hok. fold answer in Hok.
    rewrite (Hok Hfresh). clear Hok.
    cbn [fst snd Haddock.trace Haddock.log Haddock.with_access_token Haddock.dotenv
         Haddock.STRAVA_ACCESS_TOKEN Haddock.STRAVA_REFRESH_TOKEN Haddock.STRAVA_CLIENT_ID
         Haddock.STRAVA_CLIENT_SECRET Haddock.ANTHROPIC_API_KEY].
    repeat split; try reflexivity.
    + unfold added. cbn [Haddock.trace Haddock.log Haddock.with_access_token].
      subst tr2 tr1. rewrite <- !app_assoc. cbn [app].
      rewrite drop_app_length. reflexivity.
    + intros r3 Hr3 Hs. rewrite Hr3. cbn [rbind]. unfold raise_for_status.
      replace (400 <=? status_code r3) with true by (symmetry; apply Z.leb_le; lia).
      replace (status_code r3 <? 600) with true by (symmetry; apply Z.ltb_lt; lia).
      reflexivity.
  - pose proof (refresh_access_token_failed st2) as Hfail.
    cbn zeta in Hfail. rewrite Hreq, Htr2 in Hfail. fold answer in Hfail.
    destruct (Hfail Hfresh) as (e & st3 & Hrun & (evs & Htr & Hsent) & Hat & Hrq & Hrt).
    rewrite Hrun. cbn [fst snd].
    repeat split.
    + exists e. reflexivity.
    + unfold added. rewrite Htr. subst tr2 tr1. rewrite <- !app_assoc. cbn [app].
      rewrite drop_app_length. cbn [sent]. rewrite Hsent. reflexivity.
    + rewrite Hat. reflexivity.
    + rewrite Hrq. reflexivity.
    + rewrite Hrt. reflexivity.
Qed.

(** ** What a run adds to the trace *)


Section Keeps.

Variable rq : request.
Variable P : event -> Prop.

Lemma keeps_ret {A} (a : A) : keeps rq P (ret a).
Proof. intros st H. split; [exact H |]. exists []. rewrite app_nil_r. auto. Qed.

Lemma keeps_lift {A} (r : result A) : keeps rq P (lift r).
Proof. intros st H. split; [exact H |]. exists []. rewrite app_nil_r. auto. Qed.

Lemma keeps_read {A} (f : Haddock.state -> A) : keeps rq P (read f).
Proof. intros st H. split; [exact H |]. exists []. rewrite app_nil_r. auto. Qed.

Lemma keeps_bind {A B} (m : prog Haddock.state A) (k : A -> prog Haddock.state B) :
  keeps rq P m -> (forall a, keeps rq P (k a)) -> keeps rq P (bind m k).
Proof.
  intros Hm Hk st H. unfold bind.
  destruct (Hm st H) as (H1 & evs1 & Ht1 & HP1).
  destruct (m st) as [[a | e] st1]; cbn [snd] in *.
  - destruct (Hk a st1 H1) as (H2 & evs2 & Ht2 & HP2).
    split; [exact H2 |]. exists (evs1 ++ evs2)%list.
    rewrite Ht2, Ht1, app_assoc. split; [reflexivity | apply Forall_app; auto].
  - split; [exact H1 |]. exists evs1. auto.
Qed.

Lemma keeps_note (ev : event) : P ev -> keeps rq P (Haddock.note ev).
Proof.
  intros HP st H. split; [exact H |]. exists [ev]. split; [reflexivity | auto].
Qed.

Lemma keeps_print (line : string) : P (EvPrint line) -> keeps rq P (Haddock.print line).
Proof. apply keeps_note. Qed.

Lemma keeps_requests_request (req : request) :
  (forall answer, P (EvHttp req answer)) -> keeps rq P (Haddock.requests_request http req).
Proof.
  intros HP st H. split; [exact H |]. eexists [_]. split; [reflexivity | auto].
Qed.

Lemma keeps_set_key (key : string) (value : pyval) :
  (forall s, P (EvSetKey key s)) -> keeps rq P (Haddock.set_key key value).
Proof.
  intros HP st H. unfold Haddock.set_key.
  destruct value; try solve [split; [exact H |]; exists []; rewrite app_nil_r; auto].
  split; [exact H |]. eexists [_]. split; [reflexivity | auto].
Qed.

Lemma keeps_set_access_token (t : pyval) : keeps rq P (Haddock.set_access_token t).
Proof. intros st H. split; [exact H |]. exists []. rewrite app_nil_r. auto. Qed.

Lemma keeps_messages_create (prompt : string) :
  (forall answer, P (EvLLM prompt answer)) -> keeps rq P (Haddock.messages_create llm prompt).
Proof.
  intros HP st H. split; [exact H |]. eexists [_]. split; [reflexivity | auto].
Qed.


Hypothesis io : allows_io rq P.

Lemma keeps_refresh_access_token : keeps rq P (Haddock.refresh_access_token http).
Proof.
  destruct io as (Hprint & Hset & Hrq).
  assert (K : keeps rq P
    (response <- Haddock.requests_request http rq ;;
     lift (raise_for_status response) ;;;
     tokens <- lift (response_json response) ;;
     access <- lift (py_getitem tokens "access_token") ;;
     Haddock.set_key "STRAVA_ACCESS_TOKEN" access ;;;
     refresh <- lift (py_getitem tokens "refresh_token") ;;
     Haddock.set_key "STRAVA_REFRESH_TOKEN" refresh ;;;
     lift (py_getitem tokens "access_token"))%prog).
  { repeat first
      [ apply keeps_bind; [| intros ? ]
      | apply keeps_requests_request; assumption
      | apply keeps_lift
      | apply keeps_set_key; intros; apply Hset ]. }
  intros st H.
  (* the request is built from the globals of [st], hence it is [rq] *)
  replace (Haddock.refresh_access_token http st) with
    ((response <- Haddock.requests_request http rq ;;
      lift (raise_for_status response) ;;;
      tokens <- lift (response_json response) ;;
      access <- lift (py_getitem tokens "access_token") ;;
      Haddock.set_key "STRAVA_ACCESS_TOKEN" access ;;;
      refresh <- lift (py_getitem tokens "refresh_token") ;;
      Haddock.set_key "STRAVA_REFRESH_TOKEN" refresh ;;;
      lift (py_getitem tokens "access_token"))%prog st).
  - exact (K st H).
  - rewrite <- H. reflexivity.
Qed.

Ltac keeps_steps Hprint Hset :=
  repeat first
    [ apply keeps_bind; [| intros ? ]
    | apply keeps_lift
    | apply keeps_ret
    | apply keeps_read
    | apply keeps_set_access_token
    | apply keeps_refresh_access_token
    | apply keeps_print; apply Hprint
    | apply keeps_set_key; intros; apply Hset ].

Lemma keeps_strava_request (method endpoint : string) (kwargs : payload) :
  allows_call py_repr P method endpoint kwargs ->
  keeps rq P (strava_request method endpoint kwargs).
Proof.
  intros [Hcall Hwire]. destruct io as (Hprint & Hset & Hrq).
  unfold Haddock.strava_request.
  apply keeps_bind; [apply keeps_note, Hcall | intros _].
  apply keeps_bind; [apply keeps_read | intros token].
  apply keeps_bind; [apply keeps_requests_request, Hwire | intros response].
  apply keeps_bind; [| intros response'; keeps_steps Hprint Hset].
  destruct (status_code response =? 401); [| apply keeps_ret].
  apply keeps_bind; [apply keeps_print, Hprint | intros _].
  apply keeps_bind; [apply keeps_refresh_access_token | intros token'].
  apply keeps_bind; [apply keeps_set_access_token | intros _].
  apply keeps_requests_request, Hwire.
Qed.

(** The first event of a call of the wrapper is its own mark. *)
Lemma strava_request_call (method endpoint : string) (kwargs : payload) (st : Haddock.state) :
  allows_wire py_repr P method endpoint kwargs ->
  refresh_request st = rq ->
  refresh_request (snd (strava_request method endpoint kwargs st)) = rq
  /\ exists evs,
       Haddock.trace (snd (strava_request method endpoint kwargs st))
       = (Haddock.trace st ++ EvStravaRequest method endpoint kwargs :: evs)%list
       /\ Forall P evs.
Proof.
  intros Hwire H. destruct io as (Hprint & Hset & Hrq).
  assert (K : keeps rq P
    (token <- read Haddock.STRAVA_ACCESS_TOKEN ;;
     let headers := bearer token in
     let url := Haddock.STRAVA_API_BASE +:+ endpoint in
     response <- Haddock.requests_request http (mkRequest method url headers kwargs) ;;
     response <-
       (if status_code response =? 401 then
          Haddock.print "Token expired, refreshing..." ;;;
          token <- Haddock.refresh_access_token http ;;
          Haddock.set_access_token token ;;;
          let headers := bearer token in
          Haddock.requests_request http (mkRequest method url headers kwargs)
        else ret response) ;;
     lift (raise_for_status response) ;;;
     lift (response_json response))%prog).
  { apply keeps_bind; [apply keeps_read | intros token]. cbn zeta.
    apply keeps_bind; [apply keeps_requests_request, Hwire | intros response].
    apply keeps_bind; [| intros response'; keeps_steps Hprint Hset].
    destruct (status_code response =? 401); [| apply keeps_ret].
    apply keeps_bind; [apply keeps_print, Hprint | intros _].
    apply keeps_bind; [apply keeps_refresh_access_token | intros token'].
    apply keeps_bind; [apply keeps_set_access_token | intros _].
    apply keeps_requests_request, Hwire. }
  destruct (K (Haddock.log (EvStravaRequest method endpoint kwargs) st) H)
    as (H1 & evs & Ht & HP).
  split; [exact H1 |]. exists evs. split; [| exact HP].
  etransitivity; [exact Ht |]. cbn [Haddock.trace Haddock.log].
  rewrite <- app_assoc. reflexivity.
Qed.


Lemma keeps_get_last_N_activities (last_n : Z) :
  allows_method py_repr P "GET" -> keeps rq P (Haddock.get_last_N_activities py_repr http last_n).
Proof.
  intros Hget. unfold Haddock.get_last_N_activities.
  apply keeps_bind; [apply keeps_strava_request, Hget | intros activities].
  destruct (negb (truthy activities)); apply keeps_ret.
Qed.

Lemma keeps_get_latest_activity :
  allows_method py_repr P "GET" -> keeps rq P (Haddock.get_latest_activity py_repr http).
Proof.
  intros Hget. unfold Haddock.get_latest_activity.
  apply keeps_bind; [apply keeps_strava_request, Hget | intros activities].
  destruct (negb (truthy activities)); [apply keeps_ret | apply keeps_lift].
Qed.

Lemma keeps_get_activity (activity_id : Z) :
  allows_method py_repr P "GET" -> keeps rq P (Haddock.get_activity py_repr http activity_id).
Proof. intros Hget. apply keeps_strava_request, Hget. Qed.

Lemma keeps_update_activity (activity_id : pyval) (title description : string) :
  allows_method py_repr P "PUT" ->
  keeps rq P (Haddock.update_activity py_repr http activity_id title description).
Proof. intros Hput. apply keeps_strava_request, Hput. Qed.

Lemma keeps_haddockify (workout_summary : string) :
  allows_llm P -> keeps rq P (Haddock.haddockify llm workout_summary).
Proof.
  intros Hllm. unfold Haddock.haddockify.
  apply keeps_bind; [apply keeps_messages_create; intros; apply Hllm | intros text].
  apply keeps_ret.
Qed.

(** Sequencing by hand, for the places where the program inspects the
    outcome of a step. *)
Lemma keeps_after {A} (m : prog Haddock.state A) (st st1 : Haddock.state) (evs1 : list event) :
  refresh_request st1 = rq ->
  Haddock.trace st1 = (Haddock.trace st ++ evs1)%list ->
  Forall P evs1 ->
  keeps rq P m ->
  refresh_request (snd (m st1)) = rq
  /\ exists evs, Haddock.trace (snd (m st1)) = (Haddock.trace st ++ evs)%list /\ Forall P evs.
Proof.
  intros H1 Ht1 HP1 Hm.
  destruct (Hm st1 H1) as (H2 & evs2 & Ht2 & HP2).
  split; [exact H2 |]. exists (evs1 ++ evs2)%list.
  rewrite Ht2, Ht1, app_assoc. split; [reflexivity | apply Forall_app; auto].
Qed.

Lemma keeps_process_activity (a : Haddock.args) (activity : pyval) :
  allows_llm P ->
  (Haddock.dry_run a = false -> allows_method py_repr P "PUT") ->
  keeps rq P (Haddock.process_activity py_repr http llm a activity).
Proof.
  intros Hllm Hput. pose proof io as (Hprint & Hset & Hrq).
  unfold Haddock.process_activity.
  do 11 (apply keeps_bind; [keeps_steps Hprint Hset | intros ?]).
  intros st H.
  destruct (keeps_haddockify a10 Hllm st H) as (H1 & evs1 & Ht1 & HP1).
  destruct (Haddock.haddockify llm a10 st) as [[[new_title new_description] | e] st1];
    cbn [snd] in H1, Ht1.
  - apply (keeps_after _ st st1 evs1 H1 Ht1 HP1).
    do 6 (apply keeps_bind; [keeps_steps Hprint Hset | intros ?]).
    apply keeps_bind; [| intros ?; apply keeps_ret].
    destruct (Haddock.dry_run a) eqn:Hdry.
    + apply keeps_print, Hprint.
    + apply keeps_bind; [apply keeps_print, Hprint | intros _].
      apply keeps_bind; [apply keeps_update_activity, Hput; reflexivity | intros _].
      keeps_steps Hprint Hset.
  - destruct e;
      try (cbn [snd]; split; [exact H1 |]; exists evs1; split; [exact Ht1 | exact HP1]).
    apply (keeps_after _ st st1 evs1 H1 Ht1 HP1).
    keeps_steps Hprint Hset.
Qed.

Lemma keeps_for_each_activity (a : Haddock.args) (items : list pyval) :
  allows_llm P ->
  (Haddock.dry_run a = false -> allows_method py_repr P "PUT") ->
  keeps rq P (Haddock.for_each_activity py_repr http llm a items).
Proof.
  intros Hllm Hput. induction items as [| activity rest IH]; cbn [Haddock.for_each_activity].
  - apply keeps_ret.
  - apply keeps_bind; [apply keeps_process_activity; [exact Hllm | exact Hput] | intros c].
    destruct c; [exact IH | apply keeps_ret].
Qed.

(** A run of [main] adds only events [P] allows, when [P] allows the
    effects of the wrapper, the calls of the model, the GET calls and,
    without [--dry-run], the PUT calls. *)
Lemma keeps_main (a : Haddock.args) :
  allows_llm P ->
  allows_method py_repr P "GET" ->
  (Haddock.dry_run a = false -> allows_method py_repr P "PUT") ->
  keeps rq P (Haddock.main py_repr http llm a).
Proof.
  intros Hllm Hget Hput. pose proof io as (Hprint & Hset & Hrq).
  intros st H. unfold Haddock.main.
  destruct (negb (truthy (Haddock.STRAVA_ACCESS_TOKEN st))).
  { apply keeps_print; [apply Hprint | exact H]. }
  destruct (negb (truthy (Haddock.ANTHROPIC_API_KEY st)) || _).
  { revert st H. keeps_steps Hprint Hset. }
  revert st H.
  apply keeps_bind; [apply keeps_print, Hprint | intros _].
  apply keeps_bind.
  - destruct (Haddock.given (Haddock.activity a)).
    + apply keeps_bind; [apply keeps_get_activity, Hget | intros ?; apply keeps_ret].
    + destruct (Haddock.given (Haddock.activities a)).
      * apply keeps_get_last_N_activities, Hget.
      * apply keeps_bind; [apply keeps_get_latest_activity, Hget | intros ?; apply keeps_ret].
  - intros activities.
    destruct (negb (truthy activities)); [apply keeps_print, Hprint |].
    apply keeps_bind; [apply keeps_lift | intros items].
    apply keeps_for_each_activity; [exact Hllm | exact Hput].
Qed.

End Keeps.


Lemma api_url_not_token (endpoint : string) :
  Haddock.STRAVA_API_BASE +:+ endpoint <> token_url.
Proof. cbn. discriminate. Qed.

Lemma Forall_sent (Q : request -> Prop) (evs : list event) :
  Forall (fun ev => match ev with EvHttp req _ => Q req | _ => True end) evs ->
  Forall Q (sent evs).
Proof.
  induction 1 as [| ev evs H _ IH]; cbn [sent]; [constructor |].
  destruct ev; auto.
Qed.

Lemma refresh_is_allowed (rq : request) :
  allows_io rq (refresh_is rq) /\ allows_llm (refresh_is rq)
  /\ forall method, allows_method py_repr (refresh_is rq) method.
Proof.
  split; [repeat split; cbn; auto |]. split; [intros ? ?; exact I |].
  intros method endpoint kwargs. split; [exact I |].
  intros token answer Hurl. destruct (api_url_not_token endpoint Hurl).
Qed.


(** The call after a first answer 401: the notice, the refresh, and, when
    the refresh returns a token, the retry with it. *)
Lemma strava_request_on_401
    (st : Haddock.state) (method endpoint : string) (kwargs : payload) (r1 : response) :
  let url := Haddock.STRAVA_API_BASE +:+ endpoint in
  let req1 := mkRequest method url (bearer (Haddock.STRAVA_ACCESS_TOKEN st)) kwargs in
  let call := EvStravaRequest method endpoint kwargs in
  http (Haddock.trace st ++ [call])%list req1 = Ok r1 ->
  status_code r1 = 401 ->
  let st2 := Haddock.log (EvPrint "Token expired, refreshing...")
               (Haddock.log (EvHttp req1 (Ok r1)) (Haddock.log call st)) in
  strava_request method endpoint kwargs st
  = (let '(res, st3) := Haddock.refresh_access_token http st2 in
     match res with
     | Ok token =>
         let req2 := mkRequest method url (bearer token) kwargs in
         let retry := http (Haddock.trace st3) req2 in
         ((resp <- retry ;; _ <- raise_for_status resp ;; response_json resp)%res,
          Haddock.log (EvHttp req2 retry) (Haddock.with_access_token token st3))
     | Raise e => (Raise e, st3)
     end).
Proof.
  intros url req1 call H1 H401 st2.
  unfold Haddock.strava_request.
  unfold bind at 1. unfold Haddock.note at 1. unfold bind at 1. unfold read at 1.
  unfold bind at 1. unfold Haddock.requests_request at 1.
  cbn [Haddock.trace Haddock.log Haddock.STRAVA_ACCESS_TOKEN].
  fold url. fold req1. fold call. rewrite H1. rewrite H401. cbn [Z.eqb Pos.eqb].
  unfold bind at 1. unfold bind at 1. unfold Haddock.print, Haddock.note.
  unfold bind at 1. fold st2.
  destruct (Haddock.refresh_access_token http st2) as [[token | e] st3]; [| reflexivity].
  unfold bind, Haddock.set_access_token, Haddock.requests_request, lift.
  cbn [Haddock.trace Haddock.with_access_token].
  destruct (http (Haddock.trace st3) _) as [resp | e]; [| reflexivity].
  cbn [rbind]. destruct (raise_for_status resp) as [[] | e]; reflexivity.
Qed.

(** What a refresh that fails leaves in the credential file: the file
    as it was, or, when the failure comes after the access token was
    written, the file with the new access token. *)
Lemma refresh_access_token_failed_file (st : Haddock.state) :
  let answer := http (Haddock.trace st) (refresh_request st) in
  fresh_tokens answer = None ->
  Haddock.dotenv (snd (Haddock.refresh_access_token http st))
  = match access_token_of answer with
    | Some a => <["STRAVA_ACCESS_TOKEN" := a]> (Haddock.dotenv st)
    | None => Haddock.dotenv st
    end.
Proof.
  intros answer H.
  unfold Haddock.refresh_access_token, bind, read, lift, Haddock.requests_request.
  fold (refresh_request st). fold answer.
  unfold fresh_tokens in H. unfold access_token_of.
  destruct answer as [resp | e]; [| reflexivity].
  destruct (raise_for_status resp) as [[] | e]; [| reflexivity].
  unfold response_json. destruct (json resp) as [tokens |]; [| reflexivity].
  destruct tokens as [| | | | | | tokens]; try reflexivity.
  cbn [py_getitem].
  destruct (tokens !! "access_token") as [access |]; [| reflexivity].
  unfold Haddock.set_key.
  destruct access as [| | | | a | |]; try reflexivity.
  destruct (tokens !! "refresh_token") as [refresh |]; [| reflexivity].
  destruct refresh as [| | | | r | |]; try discriminate; reflexivity.
Qed.

(** The same for a call of the wrapper whose refresh fails. *)
Lemma strava_request_failed_refresh_file
    (st : Haddock.state) (method endpoint : string) (kwargs : payload) (r1 : response) :
  let url := Haddock.STRAVA_API_BASE +:+ endpoint in
  let req1 := mkRequest method url (bearer (Haddock.STRAVA_ACCESS_TOKEN st)) kwargs in
  let tr1 := (Haddock.trace st ++ [EvStravaRequest method endpoint kwargs])%list in
  http tr1 req1 = Ok r1 ->
  status_code r1 = 401 ->
  let tr2 := (tr1 ++ [EvHttp req1 (Ok r1); EvPrint "Token expired, refreshing..."])%list in
  let answer := http tr2 (refresh_request st) in
  let out := strava_request method endpoint kwargs st in
  fresh_tokens answer = None ->
  Haddock.dotenv (snd out)
  = match access_token_of answer with
    | Some a => <["STRAVA_ACCESS_TOKEN" := a]> (Haddock.dotenv st)
    | None => Haddock.dotenv st
    end.
Proof.
  intros url req1 tr1 H1 H401 tr2 answer out Hfresh. subst out.
  rewrite (strava_request_on_401 st method endpoint kwargs r1 H1 H401).
  fold url req1.
  set (st2 := Haddock.log (EvPrint "Token expired, refreshing...")
                (Haddock.log (EvHttp req1 (Ok r1))
                   (Haddock.log (EvStravaRequest method endpoint kwargs) st))).
  assert (Htr2 : Haddock.trace st2 = tr2).
  { subst st2 tr2 tr1. rewrite !trace_log, <- !app_assoc. reflexivity. }
  assert (Hreq : refresh_request st2 = refresh_request st) by reflexivity.
  assert (Hd : Haddock.dotenv st2 = Haddock.dotenv st) by reflexivity.
  pose proof (refresh_access_token_failed st2) as Hfail.
  pose proof (refresh_access_token_failed_file st2) as Hfile.
  cbn zeta in Hfail, Hfile. rewrite Hreq, Htr2 in Hfail, Hfile.
  fold answer in Hfail, Hfile.
  destruct (Hfail Hfresh) as (e & st3 & Hrun & _).
  specialize (Hfile Hfresh). rewrite Hrun in Hfile |- *. cbn [snd] in Hfile |- *.
  rewrite Hfile, Hd. reflexivity.
Qed.

(** C1 (amended).  When the first answer to a call of the wrapper has
    status 401, the wrapper sends the refresh request once: a POST to
    the token endpoint with the refresh grant and the refresh token the
    process holds.  If the answer carries a token pair (a status outside
    400-599 and a JSON record with a string access token and a string
    refresh token), both tokens are written to the credential file, the
    access token of the process is replaced, and the original request is
    sent once more with the new token: three requests go over the wire.
    An answer to the retry with a status in 400-599, a second 401
    included, is raised as an HTTP error; with any other status the call
    gives what [response.json()] gives, the body or a decoding error.
    If the refresh answer carries no token pair, the call raises after
    the two requests: there is no retry, and the access token of the
    process is the old one.  The credential file is then as it was,
    unless the answer carried a string access token: that token has been
    written, and nothing else. *)
Theorem strava_request_refresh_once
    (st : Haddock.state) (method endpoint : string) (kwargs : payload) (r1 : response) :
  let url := Haddock.STRAVA_API_BASE +:+ endpoint in
  let req1 := mkRequest method url (bearer (Haddock.STRAVA_ACCESS_TOKEN st)) kwargs in
  let tr1 := (Haddock.trace st ++ [EvStravaRequest method endpoint kwargs])%list in
  http tr1 req1 = Ok r1 ->
  status_code r1 = 401 ->
  let tr2 := (tr1 ++ [EvHttp req1 (Ok r1); EvPrint "Token expired, refreshing..."])%list in
  let answer := http tr2 (refresh_request st) in
  let out := strava_request method endpoint kwargs st in
  match fresh_tokens answer with
  | Some (a, r) =>
      let req2 := mkRequest method url (bearer (PStr a)) kwargs in
      let tr3 := (tr2 ++ [EvHttp (refresh_request st) answer;
                          EvSetKey "STRAVA_ACCESS_TOKEN" a;
                          EvSetKey "STRAVA_REFRESH_TOKEN" r])%list in
      let retry := http tr3 req2 in
      Haddock.trace (snd out) = (tr3 ++ [EvHttp req2 retry])%list
      /\ sent (added st (snd out)) = [req1; refresh_request st; req2]
      /\ Haddock.dotenv (snd out)
         = <["STRAVA_REFRESH_TOKEN" := r]> (<["STRAVA_ACCESS_TOKEN" := a]> (Haddock.dotenv st))
      /\ Haddock.STRAVA_ACCESS_TOKEN (snd out) = PStr a
      /\ fst out = (resp <- retry ;; _ <- raise_for_status resp ;; response_json resp)%res
      /\ (forall r3, retry = Ok r3 -> 400 <= status_code r3 < 600 ->
                     fst out = Raise (HTTPError (status_code r3) (text r3)))
      /\ (forall r3, retry = Ok r3 -> ~ 400 <= status_code r3 < 600 ->
                     fst out = response_json r3)
  | None =>
      (exists e, fst out = Raise e)
      /\ sent (added st (snd out)) = [req1; refresh_request st]
      /\ Haddock.STRAVA_ACCESS_TOKEN (snd out) = Haddock.STRAVA_ACCESS_TOKEN st
      /\ Haddock.dotenv (snd out)
         = match access_token_of answer with
           | Some a => <["STRAVA_ACCESS_TOKEN" := a]> (Haddock.dotenv st)
           | None => Haddock.dotenv st
           end
  end.
Proof.
  intros url req1 tr1 H1 H401 tr2 answer out.
  pose proof (strava_request_expired st method endpoint kwargs r1 H1 H401) as H.
  pose proof (strava_request_failed_refresh_file st method endpoint kwargs r1 H1 H401)
    as Hfile.
  cbn zeta in H, Hfile. fold url req1 tr1 tr2 answer out in H, Hfile.
  destruct (fresh_tokens answer) as [[a r] |].
  - destruct H as (Ht & Hs & Hd & Ha & _ & Hres & Hfail).
    repeat (split; [assumption |]).
    intros r3 Hr3 Hstatus. rewrite Hres, Hr3. cbn [rbind]. unfold raise_for_status.
    destruct (Z.leb_spec 400 (status_code r3)), (Z.ltb_spec (status_code r3) 600);
      cbn [andb rbind]; [lia | reflexivity ..].
  - destruct H as (He & Hs & Ha & _).
    repeat (split; [assumption |]). apply Hfile. reflexivity.
Qed.

(** C10.  A refresh writes the new access token and the new refresh token
    to the credential file and replaces the access token of the process,
    but the refresh token of the process keeps its value, and so does the
    refresh request built from it.  Throughout a run of [main], every
    request sent to the token endpoint is the refresh request of the
    state the run started from. *)
Theorem refresh_keeps_startup_token :
  (forall (st : Haddock.state) (method endpoint : string) (kwargs : payload)
          (r1 : response) (a r : string),
     let url := Haddock.STRAVA_API_BASE +:+ endpoint in
     let req1 := mkRequest method url (bearer (Haddock.STRAVA_ACCESS_TOKEN st)) kwargs in
     let tr1 := (Haddock.trace st ++ [EvStravaRequest method endpoint kwargs])%list in
     http tr1 req1 = Ok r1 ->
     status_code r1 = 401 ->
     let tr2 := (tr1 ++ [EvHttp req1 (Ok r1); EvPrint "Token expired, refreshing..."])%list in
     fresh_tokens (http tr2 (refresh_request st)) = Some (a, r) ->
     let st' := snd (strava_request method endpoint kwargs st) in
     Haddock.dotenv st' !! "STRAVA_ACCESS_TOKEN" = Some a
     /\ Haddock.dotenv st' !! "STRAVA_REFRESH_TOKEN" = Some r
     /\ Haddock.STRAVA_ACCESS_TOKEN st' = PStr a
     /\ Haddock.STRAVA_REFRESH_TOKEN st' = Haddock.STRAVA_REFRESH_TOKEN st
     /\ refresh_request st' = refresh_request st)
  /\ (forall (a : Haddock.args) (st : Haddock.state),
        let st' := snd (Haddock.main py_repr http llm a st) in
        Haddock.STRAVA_REFRESH_TOKEN st' = Haddock.STRAVA_REFRESH_TOKEN st
        /\ Forall (fun req => url req = token_url -> req = refresh_request st)
             (sent (added st st'))).
Proof.
  split.
  - intros st method endpoint kwargs r1 a r url req1 tr1 H1 H401 tr2 Hfresh st'.
    pose proof (strava_request_expired st method endpoint kwargs r1 H1 H401) as H.
    cbn zeta in H. fold url req1 tr1 tr2 in H. rewrite Hfresh in H. fold st' in H.
    destruct H as (_ & _ & Hd & Ha & Hrq & _).
    repeat split.
    + rewrite Hd, lookup_insert_ne by discriminate. apply lookup_insert_eq.
    + rewrite Hd. apply lookup_insert_eq.
    + exact Ha.
    + unfold refresh_request in Hrq. congruence.
    + exact Hrq.
  - intros a st st'.
    destruct (refresh_is_allowed (refresh_request st)) as (Hio & Hllm & Hm).
    destruct (keeps_main (refresh_request st) _ Hio a Hllm (Hm "GET") (fun _ => Hm "PUT")
                st eq_refl)
      as (Hrq & evs & Ht & HP).
    fold st' in Hrq, Ht. split.
    + unfold refresh_request in Hrq. congruence.
    + rewrite (added_app st st' evs Ht). apply Forall_sent.
      eapply Forall_impl; [exact HP |]. intros [] Hx; cbn in Hx |- *; auto.
Qed.




(** ** One turn of the loop *)

Lemma quiet_io (rq : request) : allows_io rq quiet.
Proof. repeat split; exact I. Qed.

Lemma quiet_wire (method endpoint : string) (kwargs : payload) :
  allows_wire py_repr quiet method endpoint kwargs.
Proof. intros token answer. exact I. Qed.

Lemma turn_prepend (a : Haddock.args) (activity : pyval) (r : result Haddock.control)
    (evs0 evs : list event) :
  Forall quiet evs0 -> turn py_repr a activity r evs -> turn py_repr a activity r (evs0 ++ evs).
Proof.
  intros H0 Ht. destruct Ht.
  - apply turn_raised_early, Forall_app; auto.
  - rewrite app_assoc. apply turn_generation_failed, Forall_app; auto.
  - rewrite app_assoc. apply turn_generation_raised; [apply Forall_app; auto | assumption].
  - rewrite app_assoc. apply turn_previewed; [assumption | apply Forall_app; auto | assumption].
  - rewrite app_assoc. apply turn_updated; try assumption. apply Forall_app; auto.
Qed.


Lemma turns_bind {A} (a : Haddock.args) (activity : pyval)
    (m : prog Haddock.state A) (k : A -> prog Haddock.state Haddock.control) :
  (forall rq, keeps rq quiet m) ->
  (forall v, turns py_repr a activity (k v)) ->
  turns py_repr a activity (bind m k).
Proof.
  intros Hm Hk st. unfold bind.
  destruct (Hm (refresh_request st) st eq_refl) as (_ & evs1 & Ht1 & HP1).
  destruct (m st) as [[v | e] st1]; cbn [snd fst] in *.
  - destruct (Hk v st1) as (evs2 & Ht2 & Hturn).
    exists (evs1 ++ evs2)%list. rewrite Ht2, Ht1, app_assoc.
    split; [reflexivity | apply turn_prepend; assumption].
  - exists evs1. split; [exact Ht1 | apply turn_raised_early, HP1].
Qed.

Lemma turns_bind_lift {A} (a : Haddock.args) (activity : pyval)
    (r : result A) (k : A -> prog Haddock.state Haddock.control) :
  (forall v, r = Ok v -> turns py_repr a activity (k v)) ->
  turns py_repr a activity (bind (lift r) k).
Proof.
  intros Hk st. unfold bind, lift. destruct r as [v | e].
  - apply (Hk v eq_refl).
  - exists []. rewrite app_nil_r. split; [reflexivity | apply turn_raised_early; constructor].
Qed.


Ltac quiet_steps :=
  repeat first
    [ apply keeps_bind; [| intros ? ]
    | apply keeps_lift
    | apply keeps_ret
    | apply keeps_read
    | apply keeps_print; exact I ].

(** The loop body adds the events of one turn. *)
Lemma process_activity_turn (a : Haddock.args) (activity : pyval) :
  turns py_repr a activity (Haddock.process_activity py_repr http llm a activity).
Proof.
  unfold Haddock.process_activity.
  apply turns_bind_lift. intros activity_id Hid.
  do 10 (apply turns_bind;
         [intros rq; quiet_steps | intros ?]).
  intros st. cbn beta.
  remember (Haddock.prompt_head +:+ v8 +:+ Haddock.prompt_tail) as prompt eqn:Hprompt.
  assert (Hh : Haddock.haddockify llm v8 st
               = (match llm (Haddock.trace st) prompt with
                  | Ok response_text => Ok (Haddock.parse_response response_text)
                  | Raise e => Raise e
                  end,
                  Haddock.log (EvLLM prompt (llm (Haddock.trace st) prompt)) st)).
  { unfold Haddock.haddockify, Haddock.messages_create, bind, ret. rewrite <- Hprompt.
    destruct (llm (Haddock.trace st) prompt); reflexivity. }
  rewrite Hh. clear Hh.
  destruct (llm (Haddock.trace st) prompt) as [response_text | e] eqn:Hllm.
  - (* the model answered *)
    destruct (Haddock.parse_response response_text) as [new_title new_description] eqn:Hparse.
    destruct (Haddock.dry_run a) eqn:Hdry.
    + eexists. split.
      * unfold bind, Haddock.print, Haddock.note, ret. norm_trace. reflexivity.
      * apply (turn_previewed py_repr a activity prompt response_text []); auto.
        repeat constructor.
    + set (st2 := Haddock.log (EvPrint (NL +:+ "Updating Strava..."))
                  (Haddock.log (EvPrint Haddock.rule)
                  (Haddock.log (EvPrint ("Description: " +:+ new_description))
                  (Haddock.log (EvPrint ("Title: " +:+ new_title))
                  (Haddock.log (EvPrint Haddock.rule)
                  (Haddock.log (EvPrint "HADDOCK VERSION:")
                  (Haddock.log (EvPrint (NL +:+ Haddock.rule))
                  (Haddock.log (EvLLM prompt (Ok response_text)) st)))))))).
      set (endpoint := "/activities/" +:+ py_str_with py_repr activity_id).
      set (body := JsonBody [("name", PStr new_title); ("description", PStr new_description)]).
      match goal with
      | |- exists evs, Haddock.trace (snd ?o) = _ /\ _ => set (out := o)
      end.
      assert (Hout : out = match strava_request "PUT" endpoint body st2 with
                           | (Ok _, st3) =>
                               (Ok Haddock.Next,
                                Haddock.log
                                  (EvPrint (NL +:+ "View it at: https://www.strava.com/activities/"
                                            +:+ py_str_with py_repr activity_id))
                                  (Haddock.log (EvPrint "Done! Activity updated.") st3))
                           | (Raise e, st3) => (Raise e, st3)
                           end).
      { subst out. unfold bind, Haddock.print, Haddock.note, ret, Haddock.update_activity.
        cbn beta iota. fold st2. fold endpoint. fold body.
        destruct (strava_request "PUT" endpoint body st2) as [[updated | e] st3]; reflexivity. }
      rewrite Hout. clear Hout out.
      destruct (strava_request_call (refresh_request st2) quiet (quiet_io _)
                  "PUT" endpoint body st2 (quiet_wire _ _ _) eq_refl) as (_ & evs3 & Ht3 & HP3).
      assert (Hupd : update_for py_repr activity (Haddock.parse_response response_text)
                     = (endpoint, body)).
      { unfold update_for. rewrite Hid, Hparse. reflexivity. }
      assert (Ht2 : Haddock.trace st2
                    = (Haddock.trace st ++
                         EvLLM prompt (Ok response_text)
                         :: [EvPrint (NL +:+ Haddock.rule); EvPrint "HADDOCK VERSION:";
                             EvPrint Haddock.rule; EvPrint ("Title: " +:+ new_title);
                             EvPrint ("Description: " +:+ new_description);
                             EvPrint Haddock.rule;
                             EvPrint (NL +:+ "Updating Strava...")])%list).
      { subst st2. norm_trace. reflexivity. }
      destruct (strava_request "PUT" endpoint body st2) as [[updated | e] st3];
        cbn [snd] in Ht3; cbn [fst snd].
      * exists ([] ++ EvLLM prompt (Ok response_text)
                   :: [EvPrint (NL +:+ Haddock.rule); EvPrint "HADDOCK VERSION:";
                       EvPrint Haddock.rule; EvPrint ("Title: " +:+ new_title);
                       EvPrint ("Description: " +:+ new_description);
                       EvPrint Haddock.rule;
                       EvPrint (NL +:+ "Updating Strava...")]
                   ++ EvStravaRequest "PUT"
                        (fst (update_for py_repr activity (Haddock.parse_response response_text)))
                        (snd (update_for py_repr activity (Haddock.parse_response response_text)))
                      :: (evs3 ++ [EvPrint "Done! Activity updated.";
                                   EvPrint (NL +:+ "View it at: https://www.strava.com/activities/"
                                            +:+ py_str_with py_repr activity_id)]))%list.
        split.
        -- rewrite Hupd. norm_trace. rewrite Ht3, Ht2.
           rewrite <- !app_assoc. cbn [app]. reflexivity.
        -- apply turn_updated; auto; try discriminate.
           ++ repeat constructor.
           ++ apply Forall_app. split; [exact HP3 | repeat constructor].
      * exists ([] ++ EvLLM prompt (Ok response_text)
                   :: [EvPrint (NL +:+ Haddock.rule); EvPrint "HADDOCK VERSION:";
                       EvPrint Haddock.rule; EvPrint ("Title: " +:+ new_title);
                       EvPrint ("Description: " +:+ new_description);
                       EvPrint Haddock.rule;
                       EvPrint (NL +:+ "Updating Strava...")]
                   ++ EvStravaRequest "PUT"
                        (fst (update_for py_repr activity (Haddock.parse_response response_text)))
                        (snd (update_for py_repr activity (Haddock.parse_response response_text)))
                      :: evs3)%list.
        split.
        -- rewrite Hupd. cbn [fst snd]. rewrite Ht3, Ht2.
           rewrite <- !app_assoc. cbn [app]. reflexivity.
        -- apply turn_updated; auto; try discriminate.
           repeat constructor.
  - (* the model call raised *)
    destruct e;
      try (eexists; split; [cbn [snd Haddock.trace Haddock.log]; reflexivity |];
           apply (turn_generation_raised py_repr a activity prompt _ []);
           [constructor | discriminate]).
    eexists. split.
    + unfold bind, Haddock.print, Haddock.note, ret. norm_trace. reflexivity.
    + apply (turn_generation_failed py_repr a activity prompt message []). constructor.
Qed.


(** ** The loop over the activities *)

Lemma update_calls_app (evs1 evs2 : list event) :
  update_calls (evs1 ++ evs2) = (update_calls evs1 ++ update_calls evs2)%list.
Proof.
  induction evs1 as [| ev evs1 IH]; [reflexivity |].
  destruct ev as [line | m endpoint kwargs | req ans | key value | prompt ans | url |
                  | path status |]; cbn [app update_calls]; try exact IH.
  destruct (String.eqb m "PUT"); [rewrite IH; reflexivity | exact IH].
Qed.

Lemma generated_app (evs1 evs2 : list event) :
  generated (evs1 ++ evs2) = (generated evs1 ++ generated evs2)%list.
Proof.
  induction evs1 as [| ev evs1 IH]; [reflexivity |].
  destruct ev as [line | m endpoint kwargs | req ans | key value | prompt ans | url |
                  | path status |]; cbn [app generated]; try exact IH.
  destruct ans; [rewrite IH; reflexivity | exact IH].
Qed.

Lemma quiet_silent (evs : list event) :
  Forall quiet evs ->
  update_calls evs = [] /\ generated evs = [] /\ Forall (fun ev => ~ failed_generation ev) evs.
Proof.
  induction 1 as [| ev evs Hq _ (IH1 & IH2 & IH3)]; [repeat split; constructor |].
  destruct ev; cbn in Hq; try contradiction; cbn [update_calls generated];
    (repeat split; [assumption | assumption |]); constructor; try assumption;
    intros (p & m & Hev); discriminate.
Qed.




Lemma for_each_activity_app (a : Haddock.args) (pre rest : list pyval) (st st1 : Haddock.state) :
  reaches py_repr http llm a pre st st1 ->
  Haddock.for_each_activity py_repr http llm a (pre ++ rest) st
  = Haddock.for_each_activity py_repr http llm a rest st1.
Proof.
  induction 1 as [st | x pre st st1 st2 Hx _ IH]; [reflexivity |].
  cbn [app Haddock.for_each_activity]. unfold bind. rewrite Hx. exact IH.
Qed.

Lemma quiet_no_llm (evs : list event) (prompt : string) (answer : result string) :
  Forall quiet evs -> ~ In (EvLLM prompt answer) evs.
Proof.
  intros Hq Hin. rewrite List.Forall_forall in Hq. exact (Hq _ Hin).
Qed.

Lemma failed_turn_returns (a : Haddock.args) (activity : pyval) (r : result Haddock.control)
    (evs : list event) (prompt msg : string) :
  turn py_repr a activity r evs ->
  In (EvLLM prompt (Raise (APIError msg))) evs ->
  r = Ok Haddock.Return
  /\ exists evs1, Forall quiet evs1
       /\ evs = (evs1 ++ [EvLLM prompt (Raise (APIError msg));
                          EvPrint ("Error calling Claude API: " +:+ msg)])%list.
Proof.
  intros Ht Hin.
  destruct Ht as [e evs Hq | prompt' msg' evs1 Hq | prompt' e evs1 Hq He
                 | prompt' text evs1 evs2 Hd Hq1 Hq2
                 | prompt' text r evs1 evs2 evs3 Hd Hq1 Hq2 Hq3 Hr].
  - destruct (quiet_no_llm _ _ _ Hq Hin).
  - apply in_app_or in Hin. destruct Hin as [Hin | [Heq | [Heq | []]]].
    + destruct (quiet_no_llm _ _ _ Hq Hin).
    + injection Heq as -> ->. split; [reflexivity |]. exists evs1. auto.
    + discriminate.
  - apply in_app_or in Hin. destruct Hin as [Hin | [Heq | []]].
    + destruct (quiet_no_llm _ _ _ Hq Hin).
    + injection Heq as -> ->. destruct (He msg eq_refl).
  - apply in_app_or in Hin. destruct Hin as [Hin | [Heq | Hin]].
    + destruct (quiet_no_llm _ _ _ Hq1 Hin).
    + discriminate.
    + destruct (quiet_no_llm _ _ _ Hq2 Hin).
  - apply in_app_or in Hin. destruct Hin as [Hin | [Heq | Hin]].
    + destruct (quiet_no_llm _ _ _ Hq1 Hin).
    + discriminate.
    + apply in_app_or in Hin. destruct Hin as [Hin | [Heq | Hin]].
      * destruct (quiet_no_llm _ _ _ Hq2 Hin).
      * discriminate.
      * destruct (quiet_no_llm _ _ _ Hq3 Hin).
Qed.

(** C7.  The loop handles the activities one after the other, each from
    the state the one before it left: once the activities [pre] have been
    processed from [st] to [st1], the loop over [pre ++ rest] continues as
    the loop over [rest] from [st1].  When the model's call for the next
    activity [x] fails with the client's API error, the loop returns
    there: the final state is the one [x] left, whatever activities
    [post] follow, and the turn of [x] ends with the failed call and the
    error line, with no call of the wrapper. *)
Theorem generation_failure_aborts_batch
    (a : Haddock.args) (pre post : list pyval) (x : pyval) (st st1 : Haddock.state) :
  reaches py_repr http llm a pre st st1 ->
  (forall rest,
     Haddock.for_each_activity py_repr http llm a (pre ++ rest) st
     = Haddock.for_each_activity py_repr http llm a rest st1)
  /\ (forall prompt msg,
        let st2 := snd (Haddock.process_activity py_repr http llm a x st1) in
        In (EvLLM prompt (Raise (APIError msg))) (added st1 st2) ->
        Haddock.for_each_activity py_repr http llm a (pre ++ x :: post) st = (Ok tt, st2)
        /\ exists evs1, Forall quiet evs1
             /\ Haddock.trace st2
                = (Haddock.trace st1 ++ evs1 ++
                     [EvLLM prompt (Raise (APIError msg));
                      EvPrint ("Error calling Claude API: " +:+ msg)])%list).
Proof.
  intros Hreach. split; [intros rest; apply for_each_activity_app, Hreach |].
  intros prompt msg st2 Hin.
  rewrite (for_each_activity_app a pre (x :: post) st st1 Hreach).
  cbn [Haddock.for_each_activity]. unfold bind. subst st2.
  destruct (process_activity_turn a x st1) as (evs & Ht & Hturn).
  rewrite (added_app _ _ _ Ht) in Hin.
  destruct (failed_turn_returns a x _ evs prompt msg Hturn Hin) as (Hr & evs1 & Hq & Hevs).
  destruct (Haddock.process_activity py_repr http llm a x st1) as [r st2]; cbn [fst snd] in *.
  subst r. split; [reflexivity |]. exists evs1. split; [exact Hq |].
  rewrite Ht, Hevs. reflexivity.
Qed.



(** ** Empty results *)


Lemma main_guard_passes (st : Haddock.state) :
  credentials_present st ->
  negb (truthy (Haddock.STRAVA_ACCESS_TOKEN st)) = false
  /\ (negb (truthy (Haddock.ANTHROPIC_API_KEY st))
      || match Haddock.ANTHROPIC_API_KEY st with
         | PStr k => String.eqb k "your_anthropic_api_key_here"
         | _ => false
         end) = false.
Proof.
  intros (Ht & Hk & Hp). rewrite Ht, Hk. split; [reflexivity |]. cbn [negb orb].
  destruct (Haddock.ANTHROPIC_API_KEY st); try reflexivity.
  destruct (String.eqb_spec s "your_anthropic_api_key_here"); [subst; contradiction | reflexivity].
Qed.

(** An answered 200 with an empty JSON list to the listing request. *)
Lemma strava_request_plain (method endpoint : string) (kwargs : payload)
    (st : Haddock.state) (resp : response) (v : pyval) :
  let req := mkRequest method (Haddock.STRAVA_API_BASE +:+ endpoint)
               (bearer (Haddock.STRAVA_ACCESS_TOKEN st)) kwargs in
  http (Haddock.trace st ++ [EvStravaRequest method endpoint kwargs])%list req = Ok resp ->
  status_code resp = 200 ->
  json resp = Some v ->
  strava_request method endpoint kwargs st
  = (Ok v, Haddock.log (EvHttp req (Ok resp))
             (Haddock.log (EvStravaRequest method endpoint kwargs) st)).
Proof.
  intros req H Hs Hj.
  unfold Haddock.strava_request, bind, Haddock.note, read, Haddock.requests_request, lift, ret.
  cbn [Haddock.trace Haddock.log Haddock.STRAVA_ACCESS_TOKEN]. fold req. rewrite H, Hs.
  cbn [Z.eqb Pos.eqb]. unfold raise_for_status, response_json. rewrite Hs, Hj. reflexivity.
Qed.

(** C4, the default mode.  With the credentials present, when the list
    endpoint answers 200 with the empty list, [main] raises [TypeError]
    right after the request and prints nothing more:
    [get_latest_activity] returns [None], [main] appends it to its list,
    the list is not empty, and the loop body subscripts [None]. *)
Theorem latest_mode_empty_list_raises (dry : bool) (st : Haddock.state) (resp : response) :
  credentials_present st ->
  let fetching := EvPrint "Fetching activity from Strava..." in
  let kw := QueryParams [("per_page", PInt 1)] in
  let call := EvStravaRequest "GET" "/athlete/activities" kw in
  let req := mkRequest "GET" (Haddock.STRAVA_API_BASE +:+ "/athlete/activities")
               (bearer (Haddock.STRAVA_ACCESS_TOKEN st)) kw in
  http (Haddock.trace st ++ [fetching; call])%list req = Ok resp ->
  status_code resp = 200 ->
  json resp = Some (PList []) ->
  Haddock.main py_repr http llm (Haddock.mkArgs dry None None) st
  = (Raise TypeError,
     Haddock.log (EvHttp req (Ok resp)) (Haddock.log call (Haddock.log fetching st))).
Proof.
  intros Hc fetching kw call req H Hs Hj.
  destruct (main_guard_passes st Hc) as [G1 G2].
  unfold Haddock.main. rewrite G1, G2. cbn [Haddock.given Haddock.activity Haddock.activities].
  assert (E : Haddock.get_latest_activity py_repr http (Haddock.log fetching st)
              = (Ok PNone, Haddock.log (EvHttp req (Ok resp))
                             (Haddock.log call (Haddock.log fetching st)))).
  { unfold Haddock.get_latest_activity, bind. fold kw.
    rewrite (strava_request_plain "GET" "/athlete/activities" kw
               (Haddock.log fetching st) resp (PList [])); try assumption.
    - reflexivity.
    - cbn [Haddock.trace Haddock.log]. rewrite <- app_assoc. exact H. }
  unfold bind, Haddock.print, Haddock.note. fold fetching. rewrite E. reflexivity.
Qed.

(** In last-N mode the empty list is reported and the flow ends normally. *)
Lemma last_n_mode_empty_list_reports (dry : bool) (n : Z) (st : Haddock.state) (resp : response) :
  credentials_present st ->
  n <> 0 ->
  let fetching := EvPrint "Fetching activity from Strava..." in
  let kw := QueryParams [("per_page", PInt n)] in
  let call := EvStravaRequest "GET" "/athlete/activities" kw in
  let req := mkRequest "GET" (Haddock.STRAVA_API_BASE +:+ "/athlete/activities")
               (bearer (Haddock.STRAVA_ACCESS_TOKEN st)) kw in
  http (Haddock.trace st ++ [fetching; call])%list req = Ok resp ->
  status_code resp = 200 ->
  json resp = Some (PList []) ->
  Haddock.main py_repr http llm (Haddock.mkArgs dry None (Some n)) st
  = (Ok tt,
     Haddock.log (EvPrint "No activities found!")
       (Haddock.log (EvHttp req (Ok resp)) (Haddock.log call (Haddock.log fetching st)))).
Proof.
  intros Hc Hn fetching kw call req H Hs Hj.
  destruct (main_guard_passes st Hc) as [G1 G2].
  unfold Haddock.main. rewrite G1, G2. cbn [Haddock.given Haddock.activity Haddock.activities].
  replace (negb (n =? 0)) with true by (symmetry; apply negb_true_iff, Z.eqb_neq, Hn).
  cbn [from_option id].
  assert (E : Haddock.get_last_N_activities py_repr http n (Haddock.log fetching st)
              = (Ok PNone, Haddock.log (EvHttp req (Ok resp))
                             (Haddock.log call (Haddock.log fetching st)))).
  { unfold Haddock.get_last_N_activities, bind. fold kw.
    rewrite (strava_request_plain "GET" "/athlete/activities" kw
               (Haddock.log fetching st) resp (PList [])); try assumption.
    - reflexivity.
    - cbn [Haddock.trace Haddock.log]. rewrite <- app_assoc. exact H. }
  unfold bind, Haddock.print, Haddock.note. fold fetching. rewrite E. reflexivity.
Qed.

End HaddockRuns.

(** ** Runs in the sample worlds *)

(** A run of C1: the refresh succeeds and the retry is answered 401
    again. *)
Lemma strava_request_refresh_once_witness :
  let out := run_list (expired_world (answered 200 (Some new_tokens)) (answered 401 None)) in
  sent (added st0 (snd out)) = [list_request "oldA"; refresh_request st0; list_request "newA"]
  /\ Haddock.STRAVA_ACCESS_TOKEN (snd out) = PStr "newA"
  /\ fst out = Raise (HTTPError 401 EmptyString).
Proof.
  pose proof (strava_request_refresh_once repr0
                (expired_world (answered 200 (Some new_tokens)) (answered 401 None))
                st0 "GET" "/athlete/activities" (QueryParams [("per_page", PInt 1)])
                (mkResponse 401 EmptyString None) eq_refl eq_refl) as H.
  cbv zeta in H.
  change (fresh_tokens _) with (Some ("newA", "newR")) in H.
  cbv beta iota in H.
  destruct H as (_ & Hs & _ & Ha & _ & Hf & _).
  split; [exact Hs | split; [exact Ha |]].
  apply (Hf (mkResponse 401 EmptyString None)); [reflexivity | cbn; lia].
Defined.

(** C1 as stated fails three times.  When the token endpoint answers
    400, the refresh raises: no retry is sent and nothing is written to
    the credential file.  When it answers with an access token and no
    refresh token, the access token is written, the missing key raises,
    and no retry is sent either.  When the retry is answered 300 with a
    JSON body, a status that is not 2xx, the call returns the body and
    raises nothing. *)
Lemma strava_request_refresh_can_fail :
  (let out := run_list (expired_world (answered 400 None) (answered 200 (Some (PList [])))) in
   fst out = Raise (HTTPError 400 EmptyString)
   /\ sent (added st0 (snd out)) = [list_request "oldA"; refresh_request st0]
   /\ Haddock.dotenv (snd out) = ∅)
  /\ (let out := run_list (expired_world (answered 200 (Some (PDict access_only)))
                             (answered 200 (Some (PList [])))) in
      fst out = Raise (KeyError "refresh_token")
      /\ sent (added st0 (snd out)) = [list_request "oldA"; refresh_request st0]
      /\ Haddock.dotenv (snd out) = <["STRAVA_ACCESS_TOKEN" := "newA"]> ∅
      /\ Haddock.STRAVA_ACCESS_TOKEN (snd out) = PStr "oldA")
  /\ (let out := run_list (expired_world (answered 200 (Some new_tokens))
                             (answered 300 (Some (PList [])))) in
      sent (added st0 (snd out))
      = [list_request "oldA"; refresh_request st0; list_request "newA"]
      /\ fst out = Ok (PList [])).
Proof. split; [| split]; vm_compute; repeat split. Qed.

(** A run of C10: after the refresh the credential file holds "newR", the
    process still holds "startR". *)
Lemma refresh_keeps_startup_token_witness :
  let st' := snd (run_list (expired_world (answered 200 (Some new_tokens)) (answered 401 None))) in
  Haddock.dotenv st' !! "STRAVA_ACCESS_TOKEN" = Some "newA"
  /\ Haddock.dotenv st' !! "STRAVA_REFRESH_TOKEN" = Some "newR"
  /\ Haddock.STRAVA_ACCESS_TOKEN st' = PStr "newA"
  /\ Haddock.STRAVA_REFRESH_TOKEN st' = PStr "startR"
  /\ refresh_request st' = refresh_request st0.
Proof.
  exact (proj1 (refresh_keeps_startup_token repr0
                  (expired_world (answered 200 (Some new_tokens)) (answered 401 None)) no_llm)
           st0 "GET" "/athlete/activities" (QueryParams [("per_page", PInt 1)])
           (mkResponse 401 EmptyString None) "newA" "newR" eq_refl eq_refl eq_refl).
Defined.

(** Two calls in one run, both answered 401: the credential file holds
    the refresh token received by the first refresh, and the second
    refresh still sends the one loaded at startup. *)
Example second_refresh_sends_startup_token :
  let world := expired_world (answered 200 (Some new_tokens)) (answered 401 None) in
  let st1 := snd (run_list world) in
  let st2 := snd (Haddock.strava_request repr0 world "GET" "/athlete/activities"
                    (QueryParams [("per_page", PInt 1)]) st1) in
  Haddock.dotenv st1 !! "STRAVA_REFRESH_TOKEN" = Some "newR"
  /\ sent (added st1 st2) = [list_request "newA"; refresh_request st0; list_request "newA"]
  /\ kwargs (refresh_request st0)
     = FormData [("client_id", PStr "client"); ("client_secret", PStr "secret");
                 ("grant_type", PStr "refresh_token"); ("refresh_token", PStr "startR")].
Proof. vm_compute. repeat split. Qed.


(** The update calls of the two-activity run, in the order of the
    activities. *)
Example update_calls_of_batch :
  let out := Haddock.for_each_activity repr0 (serving (PList [run_1; ride_2])) always_llm
               (Haddock.mkArgs false None (Some 2)) [run_1; ride_2] st0 in
  update_calls (added st0 (snd out))
  = [("/activities/1", JsonBody [("name", PStr "Blistering barnacles");
                                 ("description", PStr "A fine voyage.")]);
     ("/activities/2", JsonBody [("name", PStr "Blistering barnacles");
                                 ("description", PStr "A fine voyage.")])].
Proof. vm_compute. reflexivity. Qed.

(** A run of C7 over three activities: the model answers for the first
    and fails for the second; the third is never processed. *)
Lemma generation_failure_aborts_batch_witness :
  let a := Haddock.mkArgs false None (Some 3) in
  let http := serving (PList [run_1; ride_2; walk_3]) in
  let st1 := snd (Haddock.process_activity repr0 http llm_once a run_1 st0) in
  let st2 := snd (Haddock.process_activity repr0 http llm_once a ride_2 st1) in
  let prompt := Haddock.prompt_head
                +:+ join NL ["Activity Type: Ride"; "Original Title: Evening Ride";
                             "Duration: 0s"]
                +:+ Haddock.prompt_tail in
  Haddock.for_each_activity repr0 http llm_once a [run_1; ride_2; walk_3] st0 = (Ok tt, st2)
  /\ exists evs1, Forall quiet evs1
       /\ Haddock.trace st2
          = (Haddock.trace st1 ++ evs1 ++
               [EvLLM prompt (Raise (APIError "overloaded"));
                EvPrint "Error calling Claude API: overloaded"])%list.
Proof.
  intros a http st1 st2 prompt.
  assert (Hfirst : Haddock.process_activity repr0 http llm_once a run_1 st0
                   = (Ok Haddock.Next, st1)) by (vm_compute; reflexivity).
  refine (proj2 (generation_failure_aborts_batch repr0 http llm_once a [run_1] [walk_3]
                   ride_2 st0 st1
                   (reaches_cons _ _ _ _ run_1 [] st0 st1 st1 Hfirst
                      (reaches_nil _ _ _ _ st1)))
            prompt "overloaded" _).
  vm_compute. repeat (first [left; reflexivity | right]).
Defined.

(** A run of C4: the list endpoint answers with the empty list. *)
Lemma latest_mode_empty_list_raises_witness :
  let out := Haddock.main repr0 (serving (PList [])) no_llm
               (Haddock.mkArgs false None None) st0 in
  fst out = Raise TypeError
  /\ Forall (fun ev => ev <> EvPrint "No activities found!") (Haddock.trace (snd out)).
Proof.
  assert (Hcred : credentials_present st0)
    by (repeat split; try reflexivity; discriminate).
  pose proof (latest_mode_empty_list_raises repr0 (serving (PList [])) no_llm false st0
                (mkResponse 200 EmptyString (Some (PList []))) Hcred
                eq_refl eq_refl eq_refl) as H.
  cbv zeta in H. cbv zeta. rewrite H.
  split; [reflexivity |].
  cbn. repeat constructor; discriminate.
Defined.

(** The same happens when one activity is asked for by its identifier
    and the service answers with an empty record or with [null]: the
    singleton list is never empty, and the loop body raises. *)
Example specific_mode_empty_record_raises :
  fst (Haddock.main repr0 (serving (PDict ∅)) no_llm
         (Haddock.mkArgs false (Some 7) None) st0) = Raise (KeyError "id")
  /\ fst (Haddock.main repr0 (serving PNone) no_llm
            (Haddock.mkArgs false (Some 7) None) st0) = Raise TypeError.
Proof. vm_compute. split; reflexivity. Qed.

(** In last-N mode the empty list is reported and the flow returns. *)
Lemma last_n_mode_empty_list_reports_witness :
  let out := Haddock.main repr0 (serving (PList [])) no_llm
               (Haddock.mkArgs false None (Some 5)) st0 in
  fst out = Ok tt
  /\ last (Haddock.trace (snd out)) = Some (EvPrint "No activities found!").
Proof.
  assert (Hcred : credentials_present st0)
    by (repeat split; try reflexivity; discriminate).
  pose proof (last_n_mode_empty_list_reports repr0 (serving (PList [])) no_llm false 5 st0
                (mkResponse 200 EmptyString (Some (PList []))) Hcred
                ltac:(discriminate) eq_refl eq_refl eq_refl) as H.
  cbv zeta in H. cbv zeta. rewrite H.
  split; reflexivity.
Defined.

(** * Properties of the authorization flow *)

Section AuthRuns.

Variable py_repr : pyval -> string.
Variable str_exn : exn -> string.
Variable http : list event -> request -> result response.

(** C5 (amended).  When the client id is absent or empty, or the client
    secret is absent, empty or equal to the placeholder
    "your_client_secret_here", [main] prints the two lines of its message
    and returns: no listener, no browser, no request, and the credential
    file is as before. *)
Theorem auth_fails_fast (pending : list Auth.inbound) (st : Auth.state) :
  absent (Auth.CLIENT_ID st) = true
  \/ absent (Auth.CLIENT_SECRET st) = true
  \/ is_placeholder (Auth.CLIENT_SECRET st) = true ->
  let out := Auth.main py_repr str_exn http pending st in
  fst out = Ok Auth.Returned
  /\ Auth.trace (snd out)
     = (Auth.trace st ++
          [EvPrint "ERROR: Please set STRAVA_CLIENT_ID and STRAVA_CLIENT_SECRET in .env file";
           EvPrint "Copy .env.example to .env and fill in your credentials."])%list
  /\ filter is_network (Auth.trace (snd out)) = filter is_network (Auth.trace st)
  /\ Auth.dotenv (snd out) = Auth.dotenv st.
Proof.
  intros H out.
  assert (G : negb (truthy (Auth.CLIENT_ID st)) || negb (truthy (Auth.CLIENT_SECRET st))
              || match Auth.CLIENT_SECRET st with
                 | PStr s => String.eqb s "your_client_secret_here"
                 | _ => false
                 end = true).
  { unfold absent, is_placeholder in H.
    destruct H as [-> | [-> | ->]];
      [reflexivity | rewrite orb_true_r; reflexivity | apply orb_true_r]. }
  subst out. unfold Auth.main. rewrite G.
  unfold bind, Auth.print, Auth.note, ret. cbn [fst snd Auth.trace Auth.dotenv Auth.log].
  repeat split.
  - rewrite <- app_assoc. reflexivity.
  - rewrite <- app_assoc, filter_app. cbn. apply app_nil_r.
Qed.

End AuthRuns.

(** A run of C5 with no client id. *)
Lemma auth_fails_fast_witness :
  let out := Auth.main (fun _ => EmptyString) (fun _ => EmptyString) (fun _ _ => token_answer)
               [] (auth_state PNone (PStr "s3cr3t")) in
  fst out = Ok Auth.Returned
  /\ Auth.trace (snd out)
     = [EvPrint "ERROR: Please set STRAVA_CLIENT_ID and STRAVA_CLIENT_SECRET in .env file";
        EvPrint "Copy .env.example to .env and fill in your credentials."]
  /\ filter is_network (Auth.trace (snd out)) = []
  /\ Auth.dotenv (snd out) = ∅.
Proof.
  apply (auth_fails_fast (fun _ => EmptyString) (fun _ => EmptyString) (fun _ _ => token_answer)
           [] (auth_state PNone (PStr "s3cr3t"))).
  left. reflexivity.
Defined.

(** C5 as stated fails: with the placeholder as client id and a real
    secret, the flow listens, opens the browser, serves the callback,
    posts to the token endpoint and writes the credential file. *)
Lemma auth_placeholder_client_id_proceeds :
  let st := auth_state (PStr "your_client_secret_here") (PStr "s3cr3t") in
  let out := Auth.main (fun _ => EmptyString) (fun _ => EmptyString) (fun _ _ => token_answer)
               [("/callback", {["code" := "abc"]})] st in
  is_placeholder (Auth.CLIENT_ID st) = true
  /\ fst out = Ok Auth.Returned
  /\ filter is_network (Auth.trace (snd out))
     = [EvListen;
        EvBrowser ("https://www.strava.com/oauth/authorize?client_id=your_client_secret_here"
                   +:+ "&redirect_uri=http://localhost:8000/callback&response_type=code"
                   +:+ "&scope=read,activity:read_all,activity:write");
        EvServe "/callback" 200;
        EvServerClose;
        EvHttp (mkRequest "POST" "https://www.strava.com/oauth/token" None
                  (FormData [("client_id", PStr "your_client_secret_here");
                             ("client_secret", PStr "s3cr3t");
                             ("code", PStr "abc");
                             ("grant_type", PStr "authorization_code")]))
               token_answer]
  /\ Auth.dotenv (snd out) !! "STRAVA_ACCESS_TOKEN" = Some "newA".
Proof. vm_compute. repeat split. Qed.

(** * Further properties of the formatting helpers *)

Section SummaryFields.

Variable py_repr : pyval -> string.

(** The summary reads ten fields of the record and nothing else: two
    records that agree on them have the same summary. *)
Theorem build_workout_summary_reads_ten_fields (d d' : gmap string pyval) :
  (forall k, In k summary_fields -> d !! k = d' !! k) ->
  Haddock.build_workout_summary py_repr (PDict d)
  = Haddock.build_workout_summary py_repr (PDict d').
Proof.
  intros H. unfold Haddock.build_workout_summary. cbn [py_get].
  rewrite (H "type"), (H "name"), (H "elapsed_time"), (H "distance"), (H "average_speed"),
    (H "average_heartrate"), (H "max_heartrate"), (H "calories"),
    (H "total_elevation_gain"), (H "description") by (cbn; tauto).
  reflexivity.
Qed.

(** A [null] in an optional field is the same as no field; a [null]
    duration raises. *)
Theorem build_workout_summary_null_fields (d : gmap string pyval) (k : string) :
  d !! k = Some PNone ->
  (In k optional_fields ->
   Haddock.build_workout_summary py_repr (PDict d)
   = Haddock.build_workout_summary py_repr (PDict (delete k d)))
  /\ (k = "elapsed_time" ->
      Haddock.build_workout_summary py_repr (PDict d) = Raise TypeError).
Proof.
  intros Hk. split.
  - intros Hin. unfold optional_fields in Hin. cbn [In] in Hin.
    unfold Haddock.build_workout_summary. cbn [py_get].
    destruct Hin as [<- | [<- | [<- | [<- | [<- | [<- | [<- | []]]]]]]];
      rewrite ?lookup_delete_eq, ?lookup_delete_ne by discriminate;
      rewrite Hk; reflexivity.
  - intros ->. unfold Haddock.build_workout_summary. cbn [py_get]. rewrite Hk.
    reflexivity.
Qed.

End SummaryFields.

(** A negative number of seconds is split by floor division like any
    other: the hours are negative and always shown, the minutes and the
    seconds are between 0 and 59; -1 second reads "-1h 59m 59s".  A value
    that is not a number raises [TypeError]. *)
Theorem format_duration_negative :
  (forall n : Z, n < 0 ->
     exists h m s : Z,
       n = 3600 * h + 60 * m + s /\ h < 0 /\ 0 <= m < 60 /\ 0 <= s < 60 /\
       Haddock.format_duration (PInt n)
       = Ok (join " " ((str_of_Z h +:+ "h") :: unit_part m "m" ++ unit_part s "s")%list))
  /\ (forall v, match v with
                | PNone | PStr _ | PList _ | PDict _ =>
                    Haddock.format_duration v = Raise TypeError
                | _ => True
                end).
Proof.
  split.
  - intros n Hn.
    exists (n / 3600), (n mod 3600 / 60), (n mod 60).
    split; [| split; [| split; [| split]]].
    + Z.to_euclidean_division_equations; lia.
    + Z.to_euclidean_division_equations; lia.
    + Z.to_euclidean_division_equations; lia.
    + Z.to_euclidean_division_equations; lia.
    + unfold Haddock.format_duration, unit_part.
      cbn [as_num rbind num_floordiv num_mod py_int].
      assert (E : (n / 3600 =? 0) = false)
        by (apply Z.eqb_neq; Z.to_euclidean_division_equations; lia).
      rewrite E. cbn [negb].
      destruct (n mod 3600 / 60 =? 0), (n mod 60 =? 0); reflexivity.
  - intros []; try exact I; reflexivity.
Qed.

(** The split of -1 second. *)
Lemma format_duration_negative_witness :
  exists h m s : Z,
    -1 = 3600 * h + 60 * m + s /\ h < 0 /\ 0 <= m < 60 /\ 0 <= s < 60 /\
    Haddock.format_duration (PInt (-1))
    = Ok (join " " ((str_of_Z h +:+ "h") :: unit_part m "m" ++ unit_part s "s")%list).
Proof. apply (proj1 format_duration_negative (-1)). lia. Defined.

(** Two negative durations as they are shown. *)
Example format_duration_minus_one :
  Haddock.format_duration (PInt (-1)) = Ok "-1h 59m 59s"
  /\ Haddock.format_duration (PInt (-3600)) = Ok "-1h".
Proof. split; vm_compute; reflexivity. Qed.

Lemma zeros_length (n : nat) : String.length (zeros n) = n.
Proof.
  induction n as [| n IH]; [reflexivity |].
  change (S (String.length (zeros n)) = S n). rewrite IH. reflexivity.
Qed.

Lemma str_append_length (s t : string) :
  String.length (s +:+ t) = (String.length s + String.length t)%nat.
Proof.
  induction s as [| c s IH]; [reflexivity |].
  change (S (String.length (s +:+ t)) = S (String.length s + String.length t)).
  rewrite IH. reflexivity.
Qed.

Lemma str_append_assoc (s t u : string) : (s +:+ t) +:+ u = s +:+ (t +:+ u).
Proof.
  induction s as [| c s IH]; [reflexivity |].
  change (String c ((s +:+ t) +:+ u) = String c (s +:+ (t +:+ u))).
  rewrite IH. reflexivity.
Qed.

Lemma drop_str_length (k : nat) (s : string) :
  String.length (drop_str k s) = (String.length s - k)%nat.
Proof.
  revert s. induction k as [| k IH]; intros s.
  - cbn. lia.
  - destruct s as [| c s]; [reflexivity |]. cbn. apply IH.
Qed.

Lemma take_str_nonempty (k : nat) (s : string) :
  (0 < k)%nat -> s <> EmptyString -> take_str k s <> EmptyString.
Proof.
  intros Hk Hs. destruct k as [| k]; [lia |]. destruct s; [contradiction | discriminate].
Qed.

(** The digits with the point before the last two. *)
Lemma with_point_two (n : Z) :
  exists whole frac,
    with_point 2 n = whole +:+ "." +:+ frac
    /\ whole <> EmptyString /\ String.length frac = 2%nat.
Proof.
  unfold with_point.
  set (digits := str_of_Z n).
  set (padded := zeros (3 - String.length digits) +:+ digits).
  assert (Hlen : (3 <= String.length padded)%nat).
  { subst padded. rewrite str_append_length, zeros_length. lia. }
  exists (take_str (String.length padded - 2) padded),
         (drop_str (String.length padded - 2) padded).
  split; [reflexivity |]. split.
  - apply take_str_nonempty; [lia |]. intros E. rewrite E in Hlen. cbn in Hlen. lia.
  - rewrite drop_str_length. lia.
Qed.

(** A distance is shown with a sign or none, at least one digit before
    the point and two after it; only a distance that is not finite is
    shown as the interpreter names it. *)
Theorem format_distance_two_decimals (meters : pyval) (s : string) :
  Haddock.format_distance meters = Ok s ->
  (exists sign whole frac,
     s = sign +:+ whole +:+ "." +:+ frac +:+ " mi"
     /\ (sign = EmptyString \/ sign = "-")
     /\ whole <> EmptyString /\ String.length frac = 2%nat)
  \/ s = "nan mi" \/ s = "inf mi" \/ s = "-inf mi".
Proof.
  unfold Haddock.format_distance. intros H.
  destruct (as_num meters) as [n |]; [| discriminate]. cbn [rbind] in H.
  destruct (to_float n) as [f |]; [| discriminate]. cbn [rbind] in H.
  destruct (float_truediv f (Prim2SF 1609.34)) as [miles |]; [| discriminate].
  cbn [rbind] in H. injection H as <-.
  unfold format_fixed_float.
  destruct miles as [sg | sg | | sg m e].
  - left. destruct (with_point_two 0) as (whole & frac & -> & Hw & Hf).
    exists (if sg then "-" else ""), whole, frac.
    split; [| split; [destruct sg; auto | auto]].
    destruct sg; cbn [String.append]; rewrite ?str_append_assoc; reflexivity.
  - right. right. destruct sg; [right | left]; reflexivity.
  - right. left. reflexivity.
  - left.
    match goal with |- context [with_point 2 ?x] =>
      destruct (with_point_two x) as (whole & frac & -> & Hw & Hf) end.
    exists (if sg then "-" else ""), whole, frac.
    split; [| split; [destruct sg; auto | auto]].
    destruct sg; cbn [String.append]; rewrite ?str_append_assoc; reflexivity.
Qed.

(** Five kilometers. *)
Lemma format_distance_two_decimals_witness :
  (exists sign whole frac,
     "3.11 mi" = sign +:+ whole +:+ "." +:+ frac +:+ " mi"
     /\ (sign = EmptyString \/ sign = "-")
     /\ whole <> EmptyString /\ String.length frac = 2%nat)
  \/ "3.11 mi" = "nan mi" \/ "3.11 mi" = "inf mi" \/ "3.11 mi" = "-inf mi".
Proof.
  apply (format_distance_two_decimals (PInt 5000) "3.11 mi"). vm_compute. reflexivity.
Defined.

(** * Further properties of the response parser *)

Lemma str_append_cons (c : ascii) (s t : string) : String c s +:+ t = String c (s +:+ t).
Proof. reflexivity. Qed.

(** A match of [p] in [s] followed by the character [c] lies in [s], or
    [c] is a character of [p]. *)
Lemma prefix_before (p s b : string) (c : ascii) :
  String.prefix p (s +:+ String c b) = true ->
  String.prefix p s = true \/ In c (list_ascii_of_string p).
Proof.
  revert s. induction p as [| y p IH]; intros s H.
  - left. destruct s; reflexivity.
  - destruct s as [| x s].
    + change (EmptyString +:+ String c b) with (String c b) in H. simpl in H.
      destruct (ascii_dec y c) as [-> | _]; [| discriminate].
      right. left. reflexivity.
    + rewrite str_append_cons in H. simpl in H |- *.
      destruct (ascii_dec y x) as [_ | _]; [| discriminate].
      destruct (IH s H) as [Hp | Hin]; [left; exact Hp | right; right; exact Hin].
Qed.

(** The first occurrence of [p] after a text without one and a
    character [p] does not hold. *)
Lemma str_find_after (p a b : string) (c : ascii) :
  p <> EmptyString ->
  ~ In c (list_ascii_of_string p) ->
  str_find p a = None ->
  str_find p (a +:+ String c b)
  = option_map (fun i => (String.length a + 1 + i)%nat) (str_find p b).
Proof.
  intros Hp Hc. induction a as [| x a IH]; intros Ha; rewrite str_find_unfold in Ha.
  - change (EmptyString +:+ String c b) with (String c b). rewrite str_find_unfold.
    destruct (String.prefix p (String c b)) eqn:E.
    + destruct p as [| y p]; [contradiction |]. simpl in E.
      destruct (ascii_dec y c) as [-> | _]; [| discriminate].
      destruct Hc. left. reflexivity.
    + destruct (str_find p b); reflexivity.
  - destruct (String.prefix p (String x a)) eqn:E; [discriminate |].
    rewrite str_append_cons, str_find_unfold.
    destruct (String.prefix p (String x (a +:+ String c b))) eqn:E2.
    + rewrite <- str_append_cons in E2. destruct (prefix_before _ _ _ _ E2) as [H | H];
        [congruence | contradiction].
    + rewrite IH by (destruct (str_find p a); [discriminate | reflexivity]).
      destruct (str_find p b); reflexivity.
Qed.

Lemma drop_str_app (a b : string) (k : nat) :
  drop_str (String.length a + k) (a +:+ b) = drop_str k b.
Proof. induction a as [| x a IH]; [reflexivity |]. exact IH. Qed.

Lemma split_lines_cons (c : ascii) (s : string) :
  Ascii.eqb c (ascii_of_nat 10) = false ->
  split_lines (String c s)
  = match split_lines s with
    | l :: ls => String c l :: ls
    | [] => [String c EmptyString]
    end.
Proof. intros H. cbn [split_lines]. rewrite H. reflexivity. Qed.

(** A text without a line feed, a line feed, more text: the first line
    is the text. *)
Lemma split_lines_first (a b : string) :
  one_line a -> split_lines (a +:+ NL +:+ b) = a :: split_lines b.
Proof.
  unfold one_line. induction a as [| x a IH]; intros H.
  - reflexivity.
  - rewrite str_find_unfold in H.
    destruct (String.prefix NL (String x a)) eqn:E; [discriminate |].
    assert (Hx : Ascii.eqb x (ascii_of_nat 10) = false).
    { destruct (Ascii.eqb_spec x (ascii_of_nat 10)) as [-> | _]; [| reflexivity].
      simpl in E. destruct a; discriminate. }
    rewrite str_append_cons, (split_lines_cons _ _ Hx), IH; [reflexivity |].
    destruct (str_find NL a); [discriminate | reflexivity].
Qed.

Lemma parse_lines_title_kept (lines : list string) (title description : string) :
  (forall line, In line lines -> startswith "TITLE:" line = false) ->
  fst (Haddock.parse_lines lines title description) = title.
Proof.
  revert description. induction lines as [| line rest IH]; intros description H; [reflexivity |].
  cbn [Haddock.parse_lines]. rewrite (H line (or_introl eq_refl)).
  destruct (startswith "DESCRIPTION:" line); apply IH; intros l Hl; apply H; right; exact Hl.
Qed.

Lemma strip_after_space (s : string) : strip (String " " s) = strip s.
Proof. reflexivity. Qed.

Lemma str_find_skip (y c : ascii) (p s : string) :
  y <> c ->
  str_find (String y p) (String c s) = option_map S (str_find (String y p) s).
Proof.
  intros H. rewrite str_find_unfold. simpl.
  destruct (ascii_dec y c); [contradiction | reflexivity].
Qed.

Lemma str_find_skip_none (y c : ascii) (p s : string) :
  y <> c -> str_find (String y p) s = None -> str_find (String y p) (String c s) = None.
Proof. intros H E. rewrite (str_find_skip y c p s H), E. reflexivity. Qed.

Ltac skip_prefix :=
  cbv [String.append]; repeat (apply str_find_skip_none; [discriminate |]).

(** The parser reads back what the prompt asks the model to write: a
    trimmed one-line title without the markers and a trimmed description
    no line of which begins with "TITLE:". *)
Theorem parse_response_round_trip (title description : string) :
  one_line title ->
  str_find "TITLE:" title = None ->
  str_find "DESCRIPTION:" title = None ->
  strip title = title ->
  strip description = description ->
  (forall line, In line (split_lines description) -> startswith "TITLE:" line = false) ->
  Haddock.parse_response (formatted_reply title description) = (title, description).
Proof.
  intros Hone Ht Hd Hst Hsd Hlines.
  unfold formatted_reply.
  assert (Hone' : one_line ("TITLE: " +:+ title)).
  { unfold one_line in *. unfold NL, chr in *. cbn [ascii_of_nat] in *.
    change (ascii_of_nat 10) with "010"%char in *. skip_prefix. exact Hone. }
  assert (Hfind : str_find "DESCRIPTION:"
                    ("TITLE: " +:+ title +:+ NL +:+ "DESCRIPTION: " +:+ description)
                  = Some (String.length ("TITLE: " +:+ title) + 1 + 0)%nat).
  { change ("TITLE: " +:+ title +:+ NL +:+ "DESCRIPTION: " +:+ description)
      with (("TITLE: " +:+ title) +:+ String (ascii_of_nat 10)
              ("DESCRIPTION: " +:+ description)).
    rewrite str_find_after.
    - reflexivity.
    - discriminate.
    - cbn. intuition discriminate.
    - skip_prefix. exact Hd. }
  unfold Haddock.parse_response, contains. rewrite Hfind.
  change ("TITLE: " +:+ title +:+ NL +:+ "DESCRIPTION: " +:+ description)
    with (("TITLE: " +:+ title) +:+ NL +:+ "DESCRIPTION: " +:+ description) at 1.
  rewrite (split_lines_first _ _ Hone').
  cbn [Haddock.parse_lines].
  replace (startswith "TITLE:" ("TITLE: " +:+ title)) with true by reflexivity.
  rewrite (remove_all_title_once ("TITLE: " +:+ title)); [| reflexivity |].
  2:{ unfold contains. change (drop_str 6 ("TITLE: " +:+ title)) with (String " " title).
      rewrite str_find_skip_none; [reflexivity | discriminate | exact Ht]. }
  change (drop_str 6 ("TITLE: " +:+ title)) with (String " " title).
  rewrite strip_after_space, Hst.
  destruct (split_lines description) as [| l0 ls] eqn:El;
    [destruct (split_lines_nonempty _ El) |].
  assert (Esplit : split_lines ("DESCRIPTION: " +:+ description)
                   = ("DESCRIPTION: " +:+ l0) :: ls).
  { cbv [String.append]. repeat (rewrite split_lines_cons by reflexivity).
    rewrite El. reflexivity. }
  rewrite Esplit. cbn [Haddock.parse_lines].
  replace (startswith "TITLE:" ("DESCRIPTION: " +:+ l0)) with false by reflexivity.
  replace (startswith "DESCRIPTION:" ("DESCRIPTION: " +:+ l0)) with true by reflexivity.
  pose proof (parse_lines_title_kept ls title
                (strip (remove_all "DESCRIPTION:" ("DESCRIPTION: " +:+ l0)))) as Hk.
  destruct (Haddock.parse_lines ls title _) as [t d]. cbn [fst] in Hk.
  rewrite Hk by (intros l Hl; apply Hlines; right; exact Hl).
  f_equal.
  change ("TITLE: " +:+ title +:+ NL +:+ "DESCRIPTION: " +:+ description)
    with (("TITLE: " +:+ title) +:+ (NL +:+ "DESCRIPTION: " +:+ description)).
  replace (String.length ("TITLE: " +:+ title) + 1 + 0 + String.length "DESCRIPTION:")%nat
    with (String.length ("TITLE: " +:+ title) + 13)%nat by (cbn; lia).
  rewrite drop_str_app.
  change (drop_str 13 (NL +:+ "DESCRIPTION: " +:+ description)) with (String " " description).
  rewrite strip_after_space. exact Hsd.
Qed.

(** A title and a description of two lines. *)
Lemma parse_response_round_trip_witness :
  Haddock.parse_response (formatted_reply "Blistering barnacles"
                            ("A fine voyage." +:+ NL +:+ "Thundering typhoons!"))
  = ("Blistering barnacles", "A fine voyage." +:+ NL +:+ "Thundering typhoons!").
Proof.
  apply parse_response_round_trip; try (vm_compute; reflexivity).
  intros line Hin. vm_compute in Hin.
  destruct Hin as [<- | [<- | []]]; vm_compute; reflexivity.
Defined.

(** ** The title is one line *)

Lemma no_nl_cons (c : ascii) (s : string) :
  no_nl (String c s) <-> c <> "010"%char /\ no_nl s.
Proof.
  unfold no_nl. cbn [list_ascii_of_string]. split.
  - intros H. inversion H; subst. split; assumption.
  - intros [H1 H2]. constructor; assumption.
Qed.

Lemma no_nl_one_line (s : string) : no_nl s -> one_line s.
Proof.
  unfold one_line. induction s as [| c s IH]; intros H; [reflexivity |].
  apply no_nl_cons in H. destruct H as [Hc Hs].
  unfold NL, chr. change (ascii_of_nat 10) with "010"%char.
  apply str_find_skip_none; [congruence | apply IH, Hs].
Qed.

Lemma no_nl_drop (k : nat) (s : string) : no_nl s -> no_nl (drop_str k s).
Proof.
  revert s. induction k as [| k IH]; intros s H; [exact H |].
  destruct s as [| c s]; [exact H |]. apply IH. apply no_nl_cons in H. tauto.
Qed.

Lemma no_nl_rev (s : string) : no_nl s -> no_nl (rev_str s).
Proof.
  unfold no_nl, rev_str. rewrite list_ascii_of_string_of_list_ascii.
  intros H. apply Forall_rev. exact H.
Qed.

Lemma no_nl_lstrip_fuel (fuel : nat) (s : string) : no_nl s -> no_nl (lstrip_fuel fuel s).
Proof.
  revert s. induction fuel as [| fuel IH]; intros s H; [exact H |].
  cbn [lstrip_fuel]. destruct (ws_prefix s); [exact H |]. apply IH, no_nl_drop, H.
Qed.

Lemma no_nl_rstrip_rev_fuel (fuel : nat) (s : string) :
  no_nl s -> no_nl (rstrip_rev_fuel fuel s).
Proof.
  revert s. induction fuel as [| fuel IH]; intros s H; [exact H |].
  cbn [rstrip_rev_fuel]. destruct (ws_suffix_rev s); [exact H |]. apply IH, no_nl_drop, H.
Qed.

Lemma no_nl_strip (s : string) : no_nl s -> no_nl (strip s).
Proof.
  intros H. unfold strip, rstrip, lstrip.
  apply no_nl_rev, no_nl_rstrip_rev_fuel, no_nl_rev, no_nl_lstrip_fuel, H.
Qed.

Lemma no_nl_remove_all_fuel (fuel : nat) (p s : string) :
  no_nl s -> no_nl (remove_all_fuel fuel p s).
Proof.
  revert s. induction fuel as [| fuel IH]; intros s H; [exact H |].
  cbn [remove_all_fuel]. destruct (String.prefix p s).
  - apply IH, no_nl_drop, H.
  - destruct s as [| c s]; [exact H |].
    apply no_nl_cons in H. apply no_nl_cons. split; [tauto | apply IH; tauto].
Qed.

Lemma split_lines_no_nl (s line : string) : In line (split_lines s) -> no_nl line.
Proof.
  revert line. induction s as [| c s IH]; intros line Hin.
  - cbn in Hin. destruct Hin as [<- | []]. constructor.
  - cbn [split_lines] in Hin.
    destruct (Ascii.eqb_spec c (ascii_of_nat 10)) as [-> | Hc].
    + destruct Hin as [<- | Hin]; [constructor | apply IH, Hin].
    + destruct (split_lines s) as [| l ls] eqn:E; [destruct (split_lines_nonempty s E) |].
      destruct Hin as [<- | Hin].
      * apply no_nl_cons. split; [exact Hc | apply IH; left; reflexivity].
      * apply IH. right. exact Hin.
Qed.

Lemma parse_lines_no_nl (lines : list string) (title description : string) :
  (forall line, In line lines -> no_nl line) ->
  no_nl title -> no_nl (fst (Haddock.parse_lines lines title description)).
Proof.
  revert title description.
  induction lines as [| line rest IH]; intros title description H Ht; [exact Ht |].
  assert (Hrest : forall l, In l rest -> no_nl l) by (intros l Hl; apply H; right; exact Hl).
  cbn [Haddock.parse_lines].
  destruct (startswith "TITLE:" line).
  - apply IH; [exact Hrest |].
    apply no_nl_strip, no_nl_remove_all_fuel, H. left. reflexivity.
  - destruct (startswith "DESCRIPTION:" line); apply IH; assumption.
Qed.

(** Whatever the model answers, the title the parser returns has no
    line feed. *)
Theorem parse_response_title_one_line (response_text : string) :
  one_line (fst (Haddock.parse_response response_text)).
Proof.
  apply no_nl_one_line. unfold Haddock.parse_response.
  pose proof (parse_lines_no_nl (split_lines response_text) "" ""
                (split_lines_no_nl response_text)) as H.
  destruct (Haddock.parse_lines (split_lines response_text) "" "") as [t d].
  cbn [fst] in H |- *.
  destruct (contains "DESCRIPTION:" response_text); apply H; constructor.
Qed.

(** * Further properties of the transform flow *)

Section WrapperAndMain.

Variable py_repr : pyval -> string.
Variable http : list event -> request -> result response.
Variable llm : list event -> string -> result string.

#[local] Abbreviation strava_request := (Haddock.strava_request py_repr http).
#[local] Abbreviation bearer := (Haddock.bearer py_repr).

(** A first answer other than 401, or no answer at all, ends the call:
    one request, no refresh, the globals and the credential file
    untouched. *)
Theorem strava_request_without_refresh
    (st : Haddock.state) (method endpoint : string) (kwargs : payload) :
  let req := mkRequest method (Haddock.STRAVA_API_BASE +:+ endpoint)
               (bearer (Haddock.STRAVA_ACCESS_TOKEN st)) kwargs in
  let call := EvStravaRequest method endpoint kwargs in
  let ans := http (Haddock.trace st ++ [call])%list req in
  (forall r, ans = Ok r -> status_code r <> 401) ->
  strava_request method endpoint kwargs st
  = ((resp <- ans ;; _ <- raise_for_status resp ;; response_json resp)%res,
     Haddock.log (EvHttp req ans) (Haddock.log call st)).
Proof.
  intros req call ans H.
  unfold Haddock.strava_request, bind, Haddock.note, read, Haddock.requests_request, lift, ret.
  cbn [Haddock.trace Haddock.log Haddock.STRAVA_ACCESS_TOKEN]. fold req call ans.
  destruct ans as [r | e] eqn:E; [| reflexivity].
  destruct (Z.eqb_spec (status_code r) 401) as [H401 | _]; [destruct (H r eq_refl H401) |].
  cbn [rbind]. destruct (raise_for_status r) as [[] | e]; reflexivity.
Qed.


(** A refresh answered with an access token and no refresh token: the
    access token is written, then the missing key raises. *)
Lemma refresh_access_token_half (st : Haddock.state) (resp : response)
    (tokens : gmap string pyval) (a : string) :
  http (Haddock.trace st) (refresh_request st) = Ok resp ->
  raise_for_status resp = Ok tt ->
  json resp = Some (PDict tokens) ->
  tokens !! "access_token" = Some (PStr a) ->
  tokens !! "refresh_token" = None ->
  Haddock.refresh_access_token http st
  = (Raise (KeyError "refresh_token"),
     Haddock.mkState (Haddock.STRAVA_CLIENT_ID st) (Haddock.STRAVA_CLIENT_SECRET st)
       (Haddock.STRAVA_ACCESS_TOKEN st) (Haddock.STRAVA_REFRESH_TOKEN st)
       (Haddock.ANTHROPIC_API_KEY st)
       (<["STRAVA_ACCESS_TOKEN" := a]> (Haddock.dotenv st))
       (Haddock.trace st ++ [EvHttp (refresh_request st) (Ok resp);
                             EvSetKey "STRAVA_ACCESS_TOKEN" a])%list).
Proof.
  intros H Hs Hj Ha Hr.
  unfold Haddock.refresh_access_token, bind, read, lift, Haddock.requests_request.
  fold (refresh_request st). rewrite H, Hs.
  unfold response_json. rewrite Hj. cbn [py_getitem]. rewrite Ha.
  unfold Haddock.set_key.
  unfold Haddock.log, Haddock.with_access_token, Haddock.with_dotenv;
  cbn [Haddock.trace Haddock.dotenv
       Haddock.STRAVA_ACCESS_TOKEN Haddock.STRAVA_REFRESH_TOKEN Haddock.STRAVA_CLIENT_ID
       Haddock.STRAVA_CLIENT_SECRET Haddock.ANTHROPIC_API_KEY fst snd].
  rewrite Hr. rewrite <- ?app_assoc. reflexivity.
Qed.

(** A refresh answer with an access token and no refresh token: the
    access token is written to the credential file before the missing
    key raises; the process keeps its old access token and nothing is
    retried. *)
Theorem refresh_without_refresh_token_is_half_written
    (st : Haddock.state) (method endpoint : string) (kwargs : payload)
    (r1 resp : response) (tokens : gmap string pyval) (a : string) :
  let url := Haddock.STRAVA_API_BASE +:+ endpoint in
  let req1 := mkRequest method url (bearer (Haddock.STRAVA_ACCESS_TOKEN st)) kwargs in
  let call := EvStravaRequest method endpoint kwargs in
  http (Haddock.trace st ++ [call])%list req1 = Ok r1 ->
  status_code r1 = 401 ->
  http (Haddock.trace st ++ [call; EvHttp req1 (Ok r1);
                             EvPrint "Token expired, refreshing..."])%list
    (refresh_request st) = Ok resp ->
  raise_for_status resp = Ok tt ->
  json resp = Some (PDict tokens) ->
  tokens !! "access_token" = Some (PStr a) ->
  tokens !! "refresh_token" = None ->
  let out := strava_request method endpoint kwargs st in
  fst out = Raise (KeyError "refresh_token")
  /\ Haddock.dotenv (snd out) = <["STRAVA_ACCESS_TOKEN" := a]> (Haddock.dotenv st)
  /\ Haddock.STRAVA_ACCESS_TOKEN (snd out) = Haddock.STRAVA_ACCESS_TOKEN st
  /\ sent (added st (snd out)) = [req1; refresh_request st].
Proof.
  intros url req1 call H1 H401 H2 Hs Hj Ha Hr out. subst out.
  rewrite (strava_request_on_401 py_repr http st method endpoint kwargs r1 H1 H401).
  fold url req1 call.
  set (st2 := Haddock.log (EvPrint "Token expired, refreshing...")
                (Haddock.log (EvHttp req1 (Ok r1)) (Haddock.log call st))).
  assert (Htr2 : Haddock.trace st2
                 = (Haddock.trace st ++ [call; EvHttp req1 (Ok r1);
                                         EvPrint "Token expired, refreshing..."])%list).
  { subst st2. rewrite !trace_log, <- !app_assoc. reflexivity. }
  assert (Hreq : refresh_request st2 = refresh_request st) by reflexivity.
  assert (Hd : Haddock.dotenv st2 = Haddock.dotenv st) by reflexivity.
  assert (Hat : Haddock.STRAVA_ACCESS_TOKEN st2 = Haddock.STRAVA_ACCESS_TOKEN st) by reflexivity.
  pose proof (refresh_access_token_half st2 resp tokens a) as Hhalf.
  rewrite Hreq, Htr2 in Hhalf. rewrite (Hhalf H2 Hs Hj Ha Hr). clear Hhalf.
  cbn [fst snd Haddock.dotenv Haddock.STRAVA_ACCESS_TOKEN].
  rewrite Hd, Hat. repeat split.
  unfold added. cbn [Haddock.trace]. rewrite <- !app_assoc. cbn [app].
  rewrite drop_app_length. reflexivity.
Qed.

(** Every request a run of [main] sends is the refresh request of the
    starting state or a request of the wrapper. *)
Theorem main_requests_are_authenticated (a : Haddock.args) (st : Haddock.state) :
  Forall (fun req => req = refresh_request st \/ api_request py_repr req)
    (sent (added st (snd (Haddock.main py_repr http llm a st)))).
Proof.
  set (rq := refresh_request st).
  assert (Hio : allows_io rq (wire_ok py_repr rq)).
  { repeat split; cbn; auto. }
  assert (Hllm : allows_llm (wire_ok py_repr rq)) by (intros ? ?; exact I).
  assert (Hm : forall m, m = "GET" \/ m = "PUT" -> allows_method py_repr (wire_ok py_repr rq) m).
  { intros m Hmeth endpoint kwargs. split; [exact I |].
    intros token ans. cbn. right. split; [| split].
    - exists endpoint. reflexivity.
    - exists token. reflexivity.
    - exact Hmeth. }
  destruct (keeps_main py_repr http llm rq _ Hio a Hllm (Hm "GET" (or_introl eq_refl))
              (fun _ => Hm "PUT" (or_intror eq_refl)) st eq_refl) as (_ & evs & Ht & HP).
  rewrite (added_app st _ evs Ht).
  clear Ht. induction HP as [| ev evs Hev _ IH]; [constructor |].
  destruct ev as [line | m endpoint kwargs | req ans | key value | prompt ans | u |
                  | path status |]; cbn [sent]; try exact IH.
  constructor; [exact Hev | exact IH].
Qed.

(** [main] checks the access token first, then the API key; a missing
    one ends the run after the message, before anything is fetched. *)
Theorem main_missing_credentials (a : Haddock.args) (st : Haddock.state) :
  (truthy (Haddock.STRAVA_ACCESS_TOKEN st) = false ->
   Haddock.main py_repr http llm a st
   = (Ok tt, Haddock.log (EvPrint "ERROR: No Strava access token. Run 'python auth.py' first.") st))
  /\ (truthy (Haddock.STRAVA_ACCESS_TOKEN st) = true ->
      truthy (Haddock.ANTHROPIC_API_KEY st) = false
      \/ Haddock.ANTHROPIC_API_KEY st = PStr "your_anthropic_api_key_here" ->
      Haddock.main py_repr http llm a st
      = (Ok tt, Haddock.log (EvPrint "Get your key from: https://console.anthropic.com/")
                  (Haddock.log (EvPrint "ERROR: Set ANTHROPIC_API_KEY in .env file") st))).
Proof.
  split.
  - intros H. unfold Haddock.main. rewrite H. reflexivity.
  - intros H1 H2. unfold Haddock.main. rewrite H1. cbn [negb].
    destruct H2 as [H2 | H2]; rewrite H2; reflexivity.
Qed.


(** ** How [main] resolves the activities *)

(** A call answered at once with a JSON document and a status below 400. *)
Lemma strava_request_answered (method endpoint : string) (kwargs : payload)
    (st : Haddock.state) (resp : response) (v : pyval) :
  let req := mkRequest method (Haddock.STRAVA_API_BASE +:+ endpoint)
               (bearer (Haddock.STRAVA_ACCESS_TOKEN st)) kwargs in
  http (Haddock.trace st ++ [EvStravaRequest method endpoint kwargs])%list req = Ok resp ->
  status_code resp < 400 ->
  json resp = Some v ->
  strava_request method endpoint kwargs st
  = (Ok v, Haddock.log (EvHttp req (Ok resp))
             (Haddock.log (EvStravaRequest method endpoint kwargs) st)).
Proof.
  intros req H Hs Hj.
  unfold Haddock.strava_request, bind, Haddock.note, read, Haddock.requests_request, lift, ret.
  cbn [Haddock.trace Haddock.log Haddock.STRAVA_ACCESS_TOKEN]. fold req. rewrite H.
  destruct (Z.eqb_spec (status_code resp) 401) as [E | _]; [lia |].
  unfold raise_for_status, response_json.
  replace (400 <=? status_code resp) with false by (symmetry; apply Z.leb_gt; lia).
  cbn [andb]. rewrite Hj. reflexivity.
Qed.

(** With [--activity n], [n] not 0, [main] fetches that activity and
    runs the loop over the one document it got, whatever the document
    is and whatever [--activities] says. *)
Theorem main_specific_activity (dry : bool) (n : Z) (m : option Z)
    (st : Haddock.state) (resp : response) (v : pyval) :
  credentials_present st ->
  n <> 0 ->
  let a := Haddock.mkArgs dry (Some n) m in
  let fetching := EvPrint "Fetching activity from Strava..." in
  let call := EvStravaRequest "GET" ("/activities/" +:+ str_of_Z n) NoPayload in
  let req := mkRequest "GET" (Haddock.STRAVA_API_BASE +:+ "/activities/" +:+ str_of_Z n)
               (bearer (Haddock.STRAVA_ACCESS_TOKEN st)) NoPayload in
  http (Haddock.trace st ++ [fetching; call])%list req = Ok resp ->
  status_code resp < 400 ->
  json resp = Some v ->
  Haddock.main py_repr http llm a st
  = Haddock.for_each_activity py_repr http llm a [v]
      (Haddock.log (EvHttp req (Ok resp)) (Haddock.log call (Haddock.log fetching st))).
Proof.
  intros Hc Hn a fetching call req H Hs Hj.
  destruct (main_guard_passes st Hc) as [G1 G2].
  unfold Haddock.main. rewrite G1, G2. cbn [Haddock.given Haddock.activity Haddock.activities a].
  replace (negb (n =? 0)) with true by (symmetry; apply negb_true_iff, Z.eqb_neq, Hn).
  cbn [from_option id].
  assert (E : Haddock.get_activity py_repr http n (Haddock.log fetching st)
              = (Ok v, Haddock.log (EvHttp req (Ok resp))
                         (Haddock.log call (Haddock.log fetching st)))).
  { unfold Haddock.get_activity.
    rewrite (strava_request_answered "GET" ("/activities/" +:+ str_of_Z n) NoPayload
               (Haddock.log fetching st) resp v); try assumption.
    - reflexivity.
    - cbn [Haddock.trace Haddock.log]. rewrite <- app_assoc. exact H. }
  unfold bind at 1. unfold Haddock.print, Haddock.note. fold fetching.
  unfold bind at 1. unfold bind at 1. rewrite E. reflexivity.
Qed.

(** With [--activities n], [n] not 0, and no [--activity], [main] asks
    for [n] activities and runs the loop over all the list holds, in its
    order. *)
Theorem main_last_n_activities (dry : bool) (n : Z) (st : Haddock.state) (resp : response)
    (x : pyval) (rest : list pyval) :
  credentials_present st ->
  n <> 0 ->
  let a := Haddock.mkArgs dry None (Some n) in
  let fetching := EvPrint "Fetching activity from Strava..." in
  let kw := QueryParams [("per_page", PInt n)] in
  let call := EvStravaRequest "GET" "/athlete/activities" kw in
  let req := mkRequest "GET" (Haddock.STRAVA_API_BASE +:+ "/athlete/activities")
               (bearer (Haddock.STRAVA_ACCESS_TOKEN st)) kw in
  http (Haddock.trace st ++ [fetching; call])%list req = Ok resp ->
  status_code resp < 400 ->
  json resp = Some (PList (x :: rest)) ->
  Haddock.main py_repr http llm a st
  = Haddock.for_each_activity py_repr http llm a (x :: rest)
      (Haddock.log (EvHttp req (Ok resp)) (Haddock.log call (Haddock.log fetching st))).
Proof.
  intros Hc Hn a fetching kw call req H Hs Hj.
  destruct (main_guard_passes st Hc) as [G1 G2].
  unfold Haddock.main. rewrite G1, G2. cbn [Haddock.given Haddock.activity Haddock.activities a].
  replace (negb (n =? 0)) with true by (symmetry; apply negb_true_iff, Z.eqb_neq, Hn).
  cbn [from_option id].
  assert (E : Haddock.get_last_N_activities py_repr http n (Haddock.log fetching st)
              = (Ok (PList (x :: rest)),
                 Haddock.log (EvHttp req (Ok resp))
                   (Haddock.log call (Haddock.log fetching st)))).
  { unfold Haddock.get_last_N_activities, bind. fold kw.
    rewrite (strava_request_answered "GET" "/athlete/activities" kw
               (Haddock.log fetching st) resp (PList (x :: rest))); try assumption.
    - reflexivity.
    - cbn [Haddock.trace Haddock.log]. rewrite <- app_assoc. exact H. }
  unfold bind at 1. unfold Haddock.print, Haddock.note. fold fetching.
  unfold bind at 1. rewrite E. reflexivity.
Qed.

(** With neither option, [main] asks for one activity and runs the loop
    over the first element of the list it got, only. *)
Theorem main_latest_activity (dry : bool) (st : Haddock.state) (resp : response)
    (x : pyval) (rest : list pyval) :
  credentials_present st ->
  let a := Haddock.mkArgs dry None None in
  let fetching := EvPrint "Fetching activity from Strava..." in
  let kw := QueryParams [("per_page", PInt 1)] in
  let call := EvStravaRequest "GET" "/athlete/activities" kw in
  let req := mkRequest "GET" (Haddock.STRAVA_API_BASE +:+ "/athlete/activities")
               (bearer (Haddock.STRAVA_ACCESS_TOKEN st)) kw in
  http (Haddock.trace st ++ [fetching; call])%list req = Ok resp ->
  status_code resp < 400 ->
  json resp = Some (PList (x :: rest)) ->
  Haddock.main py_repr http llm a st
  = Haddock.for_each_activity py_repr http llm a [x]
      (Haddock.log (EvHttp req (Ok resp)) (Haddock.log call (Haddock.log fetching st))).
Proof.
  intros Hc a fetching kw call req H Hs Hj.
  destruct (main_guard_passes st Hc) as [G1 G2].
  unfold Haddock.main. rewrite G1, G2. cbn [Haddock.given Haddock.activity Haddock.activities a].
  assert (E : Haddock.get_latest_activity py_repr http (Haddock.log fetching st)
              = (Ok x, Haddock.log (EvHttp req (Ok resp))
                         (Haddock.log call (Haddock.log fetching st)))).
  { unfold Haddock.get_latest_activity, bind. fold kw.
    rewrite (strava_request_answered "GET" "/athlete/activities" kw
               (Haddock.log fetching st) resp (PList (x :: rest))); try assumption.
    - reflexivity.
    - cbn [Haddock.trace Haddock.log]. rewrite <- app_assoc. exact H. }
  unfold bind at 1. unfold Haddock.print, Haddock.note. fold fetching.
  unfold bind at 1. unfold bind at 1. rewrite E. reflexivity.
Qed.

(** ** What the loop never does *)

Lemma llm_calls_app (evs1 evs2 : list event) :
  llm_calls (evs1 ++ evs2) = (llm_calls evs1 + llm_calls evs2)%nat.
Proof.
  induction evs1 as [| ev evs1 IH]; [reflexivity |].
  destruct ev as [line | m endpoint kwargs | req ans | key value | prompt ans | u |
                  | path status |]; cbn [app llm_calls]; rewrite IH; reflexivity.
Qed.

Lemma wrapper_calls_app (evs1 evs2 : list event) :
  wrapper_calls (evs1 ++ evs2) = (wrapper_calls evs1 + wrapper_calls evs2)%nat.
Proof.
  induction evs1 as [| ev evs1 IH]; [reflexivity |].
  destruct ev as [line | m endpoint kwargs | req ans | key value | prompt ans | u |
                  | path status |]; cbn [app wrapper_calls]; rewrite IH; reflexivity.
Qed.

Lemma quiet_counts (evs : list event) :
  Forall quiet evs -> llm_calls evs = 0%nat /\ wrapper_calls evs = 0%nat.
Proof.
  induction 1 as [| ev evs Hq _ [IH1 IH2]]; [split; reflexivity |].
  destruct ev as [line | m endpoint kwargs | req ans | key value | prompt ans | u |
                  | path status |]; cbn in Hq; try contradiction;
    cbn [llm_calls wrapper_calls]; split; assumption.
Qed.

(** One turn calls the model at most once, and the wrapper only after
    the model answered, once, to update. *)
Lemma turn_counts (a : Haddock.args) (activity : pyval) (r : result Haddock.control)
    (evs : list event) :
  turn py_repr a activity r evs ->
  (llm_calls evs <= 1)%nat
  /\ wrapper_calls evs
     = (List.length (generated evs) * (if Haddock.dry_run a then 0 else 1))%nat
  /\ wrapper_calls evs = List.length (update_calls evs)
  /\ (List.length (generated evs) <= llm_calls evs)%nat.
Proof.
  intros Ht.
  destruct Ht as [e evs Hq | prompt msg evs1 Hq | prompt e evs1 Hq He
                 | prompt text evs1 evs2 Hd Hq1 Hq2
                 | prompt text r evs1 evs2 evs3 Hd Hq1 Hq2 Hq3 Hr].
  - destruct (quiet_counts evs Hq) as [-> ->].
    destruct (quiet_silent evs Hq) as (-> & -> & _). cbn. lia.
  - destruct (quiet_counts evs1 Hq) as [H1 H2].
    destruct (quiet_silent evs1 Hq) as (Hu & Hg & _).
    rewrite llm_calls_app, wrapper_calls_app, update_calls_app, generated_app, H1, H2, Hu, Hg.
    cbn. lia.
  - destruct (quiet_counts evs1 Hq) as [H1 H2].
    destruct (quiet_silent evs1 Hq) as (Hu & Hg & _).
    rewrite llm_calls_app, wrapper_calls_app, update_calls_app, generated_app, H1, H2, Hu, Hg.
    cbn. lia.
  - destruct (quiet_counts evs1 Hq1) as [H1 H2].
    destruct (quiet_silent evs1 Hq1) as (Hu & Hg & _).
    destruct (quiet_counts evs2 Hq2) as [H3 H4].
    destruct (quiet_silent evs2 Hq2) as (Hu2 & Hg2 & _).
    rewrite llm_calls_app, wrapper_calls_app, update_calls_app, generated_app, H1, H2, Hu, Hg.
    cbn [llm_calls wrapper_calls update_calls generated]. rewrite H3, H4, Hu2, Hg2, Hd.
    cbn. lia.
  - destruct (quiet_counts evs1 Hq1) as [H1 H2].
    destruct (quiet_silent evs1 Hq1) as (Hu & Hg & _).
    destruct (quiet_counts evs2 Hq2) as [H3 H4].
    destruct (quiet_silent evs2 Hq2) as (Hu2 & Hg2 & _).
    destruct (quiet_counts evs3 Hq3) as [H5 H6].
    destruct (quiet_silent evs3 Hq3) as (Hu3 & Hg3 & _).
    rewrite llm_calls_app, wrapper_calls_app, update_calls_app, generated_app, H1, H2, Hu, Hg.
    cbn [llm_calls wrapper_calls update_calls generated app].
    rewrite llm_calls_app, wrapper_calls_app, update_calls_app, generated_app, H3, H4, Hu2, Hg2.
    cbn [llm_calls wrapper_calls update_calls generated app String.eqb Ascii.eqb Bool.eqb].
    rewrite H5, H6, Hu3, Hg3, Hd. cbn. lia.
Qed.

(** The loop calls the model at most once per activity, never again
    after a failure; it calls the wrapper only to update, once for each
    answer of the model, and not at all with [--dry-run]. *)
Theorem loop_calls_are_bounded (a : Haddock.args) (items : list pyval) (st : Haddock.state) :
  let evs := added st (snd (Haddock.for_each_activity py_repr http llm a items st)) in
  (llm_calls evs <= List.length items)%nat
  /\ wrapper_calls evs = List.length (update_calls evs)
  /\ wrapper_calls evs
     = (List.length (generated evs) * (if Haddock.dry_run a then 0 else 1))%nat
  /\ (List.length (generated evs) <= llm_calls evs)%nat.
Proof.
  cbv zeta.
  assert (G : exists evs,
             Haddock.trace (snd (Haddock.for_each_activity py_repr http llm a items st))
             = (Haddock.trace st ++ evs)%list
             /\ (llm_calls evs <= List.length items)%nat
             /\ wrapper_calls evs = List.length (update_calls evs)
             /\ wrapper_calls evs
                = (List.length (generated evs) * (if Haddock.dry_run a then 0 else 1))%nat
             /\ (List.length (generated evs) <= llm_calls evs)%nat).
  { revert st. induction items as [| x rest IH]; intros st.
    - exists []. rewrite app_nil_r. cbn. repeat split; lia.
    - cbn [Haddock.for_each_activity]. unfold bind.
      destruct (process_activity_turn py_repr http llm a x st) as (evs1 & Ht1 & Hturn).
      destruct (turn_counts a x _ evs1 Hturn) as (C1 & C2 & C3 & C4).
      destruct (Haddock.process_activity py_repr http llm a x st) as [[[] | e] st1];
        cbn [fst snd] in *.
      + destruct (IH st1) as (evs2 & Ht2 & D1 & D2 & D3 & D4).
        exists (evs1 ++ evs2)%list. rewrite Ht2, Ht1, app_assoc. split; [reflexivity |].
        rewrite llm_calls_app, wrapper_calls_app, update_calls_app, generated_app,
          !length_app.
        cbn [List.length]. repeat split; lia.
      + exists evs1. split; [exact Ht1 |]. cbn [List.length]. repeat split; lia.
      + exists evs1. split; [exact Ht1 |]. cbn [List.length]. repeat split; lia. }
  destruct G as (evs & Ht & G). rewrite (added_app st _ evs Ht). exact G.
Qed.

(** ** An activity without an identifier *)

(** The loop body reads the identifier first: a record without one, or a
    document that is no record, raises before anything is printed, and
    the activities after it are not processed. *)
Theorem activity_without_id_stops_batch (a : Haddock.args) (pre post : list pyval)
    (x : pyval) (st st1 : Haddock.state) :
  reaches py_repr http llm a pre st st1 ->
  (forall d, x = PDict d -> d !! "id" = None ->
     Haddock.for_each_activity py_repr http llm a (pre ++ x :: post) st
     = (Raise (KeyError "id"), st1))
  /\ ((forall d, x <> PDict d) ->
      Haddock.for_each_activity py_repr http llm a (pre ++ x :: post) st
      = (Raise TypeError, st1)).
Proof.
  intros Hreach.
  rewrite (for_each_activity_app py_repr http llm a pre (x :: post) st st1 Hreach).
  cbn [Haddock.for_each_activity]. unfold bind at 1.
  unfold Haddock.process_activity. unfold bind at 1. unfold lift at 1.
  split.
  - intros d -> Hd. cbn [py_getitem]. rewrite Hd. reflexivity.
  - intros Hx. destruct x as [| b | z | f | s | l | d]; try reflexivity.
    destruct (Hx d eq_refl).
Qed.

End WrapperAndMain.

(** * Further properties of the authorization flow *)

Section Listener.

Variable py_repr : pyval -> string.
Variable str_exn : exn -> string.
Variable http : list event -> request -> result response.

Lemma do_GET_refused (r : Auth.inbound) (st : Auth.state) :
  carries_code r = false ->
  Auth.do_GET r st = (Ok tt, Auth.log (refusal r) st).
Proof.
  destruct r as [path params]. unfold carries_code, refusal, Auth.do_GET. cbn [fst snd].
  intros H. destruct (String.eqb path "/callback"); [| reflexivity].
  cbn [andb] in H |- *.
  destruct (params !! "code"); [discriminate |].
  destruct (params !! "error"); reflexivity.
Qed.

Lemma wait_for_code_refused (pre rest : list Auth.inbound) (st : Auth.state) :
  Auth.auth_code st = PNone ->
  Forall (fun r => carries_code r = false) pre ->
  Auth.wait_for_code (pre ++ rest) st
  = Auth.wait_for_code rest
      (Auth.mkState (Auth.CLIENT_ID st) (Auth.CLIENT_SECRET st) PNone (Auth.dotenv st)
         (Auth.trace st ++ map refusal pre)).
Proof.
  intros Hc Hpre. revert st Hc.
  induction Hpre as [| r pre Hr _ IH]; intros st Hc.
  - destruct st as [cid csec code dot tr]. cbn in Hc. subst code.
    cbn [app map Auth.CLIENT_ID Auth.CLIENT_SECRET Auth.dotenv Auth.trace].
    rewrite app_nil_r. reflexivity.
  - cbn [app Auth.wait_for_code]. rewrite Hc. unfold bind.
    rewrite (do_GET_refused r st Hr).
    rewrite (IH (Auth.log (refusal r) st) Hc).
    destruct st as [cid csec code dot tr].
    cbn [Auth.log Auth.CLIENT_ID Auth.CLIENT_SECRET Auth.dotenv Auth.trace map].
    rewrite <- app_assoc. reflexivity.
Qed.

(** The listener serves the requests one by one until one hands over a
    code: the requests before it are refused (400 for a callback with an
    error, 404 otherwise) and the loop goes on; the callback with the code
    is answered 200 and the requests after it are not served.  When no
    request hands over a code the loop is still waiting after the last. *)
Theorem wait_for_code_serves_until_code (pre post : list Auth.inbound)
    (params : gmap string string) (st : Auth.state) :
  Auth.auth_code st = PNone ->
  Forall (fun r => carries_code r = false) pre ->
  (forall code, params !! "code" = Some code ->
     Auth.wait_for_code (pre ++ ("/callback", params) :: post) st
     = (Ok true,
        Auth.mkState (Auth.CLIENT_ID st) (Auth.CLIENT_SECRET st) (PStr code) (Auth.dotenv st)
          (Auth.trace st ++ map refusal pre ++ [EvServe "/callback" 200])))
  /\ Auth.wait_for_code pre st
     = (Ok false,
        Auth.mkState (Auth.CLIENT_ID st) (Auth.CLIENT_SECRET st) PNone (Auth.dotenv st)
          (Auth.trace st ++ map refusal pre)).
Proof.
  intros Hc Hpre. split.
  - intros code Hcode. rewrite (wait_for_code_refused pre _ st Hc Hpre).
    cbn [Auth.wait_for_code Auth.auth_code]. unfold bind, Auth.do_GET.
    cbn [String.eqb Ascii.eqb Bool.eqb]. rewrite Hcode.
    unfold bind, Auth.set_auth_code, Auth.note, Auth.log.
    cbn [Auth.CLIENT_ID Auth.CLIENT_SECRET Auth.dotenv Auth.trace Auth.auth_code].
    destruct post; cbn [Auth.wait_for_code Auth.auth_code]; rewrite <- app_assoc; reflexivity.
  - rewrite <- (app_nil_r pre) at 1. rewrite (wait_for_code_refused pre [] st Hc Hpre).
    reflexivity.
Qed.


Lemma auth_guard_passes (st : Auth.state) :
  absent (Auth.CLIENT_ID st) = false ->
  absent (Auth.CLIENT_SECRET st) = false ->
  is_placeholder (Auth.CLIENT_SECRET st) = false ->
  negb (truthy (Auth.CLIENT_ID st)) || negb (truthy (Auth.CLIENT_SECRET st))
  || match Auth.CLIENT_SECRET st with
     | PStr s => String.eqb s "your_client_secret_here"
     | _ => false
     end = false.
Proof.
  unfold absent, is_placeholder. intros -> -> H. cbn [orb].
  destruct (Auth.CLIENT_SECRET st); try reflexivity. exact H.
Qed.

(** The run of [main] up to the wait. *)
Lemma auth_main_opening (pending : list Auth.inbound) (st : Auth.state) :
  absent (Auth.CLIENT_ID st) = false ->
  absent (Auth.CLIENT_SECRET st) = false ->
  is_placeholder (Auth.CLIENT_SECRET st) = false ->
  Auth.main py_repr str_exn http pending st
  = (got <- Auth.wait_for_code pending ;;
     if got : bool then
       Auth.note EvServerClose ;;;
       Auth.print EmptyString ;;;
       Auth.print "Got authorization code, exchanging for tokens..." ;;;
       Auth.exchange_and_save py_repr str_exn http ;;;
       ret Auth.Returned
     else ret Auth.Blocked)%prog
      (Auth.mkState (Auth.CLIENT_ID st) (Auth.CLIENT_SECRET st) (Auth.auth_code st)
         (Auth.dotenv st) (Auth.trace st ++ opening py_repr st)).
Proof.
  intros H1 H2 H3.
  unfold Auth.main. rewrite (auth_guard_passes st H1 H2 H3).
  destruct st as [cid csec code dot tr].
  cbn [Auth.CLIENT_ID Auth.CLIENT_SECRET Auth.auth_code Auth.dotenv Auth.trace].
  repeat (unfold bind at 1; unfold Auth.print at 1; unfold Auth.note at 1;
          cbn [Auth.log Auth.CLIENT_ID Auth.CLIENT_SECRET Auth.auth_code Auth.dotenv
               Auth.trace]).
  unfold bind at 1. unfold Auth.get_auth_url, bind at 1, read, ret.
  cbn [Auth.CLIENT_ID].
  repeat (unfold bind at 1; first [unfold Auth.print at 1 | idtac]; unfold Auth.note at 1;
          cbn [Auth.log Auth.CLIENT_ID Auth.CLIENT_SECRET Auth.auth_code Auth.dotenv
               Auth.trace]).
  cbv [Auth.log Auth.CLIENT_ID Auth.CLIENT_SECRET Auth.auth_code Auth.dotenv Auth.trace].
  rewrite <- !app_assoc. cbn [app]. reflexivity.
Qed.

(** Without a code the flow never gets past the listener: every request
    is refused, the server is not closed, nothing is sent and nothing is
    written. *)
Theorem auth_blocks_without_code (pending : list Auth.inbound) (st : Auth.state) :
  absent (Auth.CLIENT_ID st) = false ->
  absent (Auth.CLIENT_SECRET st) = false ->
  is_placeholder (Auth.CLIENT_SECRET st) = false ->
  Auth.auth_code st = PNone ->
  Forall (fun r => carries_code r = false) pending ->
  Auth.main py_repr str_exn http pending st
  = (Ok Auth.Blocked,
     Auth.mkState (Auth.CLIENT_ID st) (Auth.CLIENT_SECRET st) PNone (Auth.dotenv st)
       (Auth.trace st ++ opening py_repr st ++ map refusal pending)).
Proof.
  intros H1 H2 H3 Hc Hp.
  rewrite (auth_main_opening pending st H1 H2 H3). unfold bind at 1.
  rewrite <- (app_nil_r pending) at 1.
  rewrite wait_for_code_refused; [| exact Hc | exact Hp].
  cbn [Auth.wait_for_code Auth.auth_code Auth.CLIENT_ID Auth.CLIENT_SECRET Auth.dotenv
       Auth.trace].
  rewrite <- app_assoc. reflexivity.
Qed.

(** The [try] block when the token endpoint answers with a token pair. *)
Lemma exchange_and_save_ok (st : Auth.state) (resp : response)
    (tokens athlete : gmap string pyval) (a r : string) :
  http (Auth.trace st) (exchange_request st (Auth.auth_code st)) = Ok resp ->
  raise_for_status resp = Ok tt ->
  json resp = Some (PDict tokens) ->
  tokens !! "access_token" = Some (PStr a) ->
  tokens !! "refresh_token" = Some (PStr r) ->
  default (PDict ∅) (tokens !! "athlete") = PDict athlete ->
  Auth.exchange_and_save py_repr str_exn http st
  = (Ok tt,
     Auth.mkState (Auth.CLIENT_ID st) (Auth.CLIENT_SECRET st) (Auth.auth_code st)
       (<["STRAVA_REFRESH_TOKEN" := r]> (<["STRAVA_ACCESS_TOKEN" := a]> (Auth.dotenv st)))
       (Auth.trace st ++
          [EvHttp (exchange_request st (Auth.auth_code st)) (Ok resp);
           EvPrint EmptyString;
           EvPrint ("Success! Authenticated as: "
                    +:+ py_str_with py_repr (default (PStr EmptyString) (athlete !! "firstname"))
                    +:+ " "
                    +:+ py_str_with py_repr (default (PStr EmptyString) (athlete !! "lastname")));
           EvPrint EmptyString;
           EvSetKey "STRAVA_ACCESS_TOKEN" a;
           EvSetKey "STRAVA_REFRESH_TOKEN" r;
           EvPrint "Tokens saved to .env file!";
           EvPrint EmptyString;
           EvPrint "You can now run: python haddock.py"])%list).
Proof.
  intros H Hs Hj Ha Hr Hath.
  destruct st as [cid csec code dot tr].
  unfold exchange_request in *.
  cbn [Auth.CLIENT_ID Auth.CLIENT_SECRET Auth.auth_code Auth.dotenv Auth.trace] in *.
  unfold Auth.exchange_and_save, Auth.exchange_code_for_tokens.
  unfold bind at 1. unfold read at 1. cbn [Auth.auth_code].
  unfold bind at 1. unfold bind at 1. unfold read at 1. cbn [Auth.CLIENT_ID].
  unfold bind at 1. unfold read at 1. cbn [Auth.CLIENT_SECRET].
  unfold bind at 1. unfold Auth.requests_post at 1. cbn [Auth.trace]. rewrite H.
  unfold bind at 1. unfold lift at 1. rewrite Hs.
  unfold lift at 1. unfold response_json. rewrite Hj.
  unfold bind at 1. unfold lift at 1. cbn [py_getitem]. rewrite Ha.
  unfold bind at 1. unfold lift at 1. rewrite Hr.
  unfold bind at 1. unfold lift at 1. cbn [py_get]. rewrite Hath.
  unfold bind, lift, Auth.print, Auth.note, Auth.set_key.
  cbv [Auth.log Auth.CLIENT_ID Auth.CLIENT_SECRET Auth.auth_code Auth.dotenv Auth.trace py_get].
  rewrite <- !app_assoc. cbn [app]. reflexivity.
Qed.

(** The [try] block when the token endpoint answers with an error
    status: the handler prints the error and the body. *)
Lemma exchange_and_save_http_error (st : Auth.state) (resp : response) :
  http (Auth.trace st) (exchange_request st (Auth.auth_code st)) = Ok resp ->
  400 <= status_code resp < 600 ->
  Auth.exchange_and_save py_repr str_exn http st
  = (Ok tt,
     Auth.mkState (Auth.CLIENT_ID st) (Auth.CLIENT_SECRET st) (Auth.auth_code st)
       (Auth.dotenv st)
       (Auth.trace st ++
          [EvHttp (exchange_request st (Auth.auth_code st)) (Ok resp);
           EvPrint ("Error exchanging code: "
                    +:+ str_exn (HTTPError (status_code resp) (text resp)));
           EvPrint (text resp)])%list).
Proof.
  intros H Hs.
  assert (Hr : raise_for_status resp = Raise (HTTPError (status_code resp) (text resp))).
  { unfold raise_for_status.
    replace (400 <=? status_code resp) with true by (symmetry; apply Z.leb_le; lia).
    replace (status_code resp <? 600) with true by (symmetry; apply Z.ltb_lt; lia).
    reflexivity. }
  destruct st as [cid csec code dot tr].
  unfold exchange_request in *.
  cbn [Auth.CLIENT_ID Auth.CLIENT_SECRET Auth.auth_code Auth.dotenv Auth.trace] in *.
  unfold Auth.exchange_and_save, Auth.exchange_code_for_tokens.
  unfold bind at 1. unfold read at 1. cbn [Auth.auth_code].
  unfold bind at 1. unfold bind at 1. unfold read at 1. cbn [Auth.CLIENT_ID].
  unfold bind at 1. unfold read at 1. cbn [Auth.CLIENT_SECRET].
  unfold bind at 1. unfold Auth.requests_post at 1. cbn [Auth.trace]. rewrite H.
  unfold bind at 1. unfold lift at 1. rewrite Hr.
  unfold bind, Auth.print, Auth.note.
  cbv [Auth.log Auth.CLIENT_ID Auth.CLIENT_SECRET Auth.auth_code Auth.dotenv Auth.trace].
  rewrite <- !app_assoc. cbn [app]. reflexivity.
Qed.

(** The run of [main] from the wait to the [try] block, when a request
    hands over a code. *)
Lemma auth_main_with_code (pre post : list Auth.inbound) (params : gmap string string)
    (code : string) (st : Auth.state) :
  absent (Auth.CLIENT_ID st) = false ->
  absent (Auth.CLIENT_SECRET st) = false ->
  is_placeholder (Auth.CLIENT_SECRET st) = false ->
  Auth.auth_code st = PNone ->
  Forall (fun r => carries_code r = false) pre ->
  params !! "code" = Some code ->
  Auth.main py_repr str_exn http (pre ++ ("/callback", params) :: post) st
  = (Auth.exchange_and_save py_repr str_exn http ;;; ret Auth.Returned)%prog
      (Auth.mkState (Auth.CLIENT_ID st) (Auth.CLIENT_SECRET st) (PStr code) (Auth.dotenv st)
         (Auth.trace st ++ opening py_repr st ++ map refusal pre ++
            [EvServe "/callback" 200; EvServerClose; EvPrint EmptyString;
             EvPrint "Got authorization code, exchanging for tokens..."])).
Proof.
  intros H1 H2 H3 Hc Hp Hcode.
  rewrite (auth_main_opening _ st H1 H2 H3). unfold bind at 1.
  rewrite wait_for_code_refused; [| exact Hc | exact Hp].
  cbn [Auth.wait_for_code Auth.auth_code Auth.CLIENT_ID Auth.CLIENT_SECRET Auth.dotenv
       Auth.trace].
  unfold bind at 1. unfold Auth.do_GET. cbn [String.eqb Ascii.eqb Bool.eqb]. rewrite Hcode.
  unfold bind at 1. unfold Auth.set_auth_code at 1. unfold Auth.note at 1.
  cbv [Auth.log Auth.CLIENT_ID Auth.CLIENT_SECRET Auth.auth_code Auth.dotenv Auth.trace].
  assert (W : forall s : Auth.state, Auth.auth_code s = PStr code ->
                Auth.wait_for_code post s = (Ok true, s)).
  { intros s Hs. destruct post; cbn [Auth.wait_for_code]; rewrite Hs; reflexivity. }
  rewrite W by reflexivity.
  unfold bind at 1. unfold Auth.note at 1. unfold bind at 1. unfold Auth.print at 1.
  unfold Auth.note at 1. unfold bind at 1. unfold Auth.print at 1. unfold Auth.note at 1.
  cbv [Auth.log Auth.CLIENT_ID Auth.CLIENT_SECRET Auth.auth_code Auth.dotenv Auth.trace].
  rewrite <- !app_assoc. cbn [app]. reflexivity.
Qed.

(** When a request hands over a code and the token endpoint answers with
    a token pair, [main] closes the listener, sends the exchange, prints
    the athlete's name and writes both tokens to the credential file. *)
Theorem auth_saves_tokens (pre post : list Auth.inbound) (params : gmap string string)
    (code : string) (st : Auth.state) (resp : response)
    (tokens athlete : gmap string pyval) (a r : string) :
  absent (Auth.CLIENT_ID st) = false ->
  absent (Auth.CLIENT_SECRET st) = false ->
  is_placeholder (Auth.CLIENT_SECRET st) = false ->
  Auth.auth_code st = PNone ->
  Forall (fun r => carries_code r = false) pre ->
  params !! "code" = Some code ->
  (forall tr, http tr (exchange_request st (PStr code)) = Ok resp) ->
  status_code resp < 400 ->
  json resp = Some (PDict tokens) ->
  tokens !! "access_token" = Some (PStr a) ->
  tokens !! "refresh_token" = Some (PStr r) ->
  default (PDict ∅) (tokens !! "athlete") = PDict athlete ->
  Auth.main py_repr str_exn http (pre ++ ("/callback", params) :: post) st
  = (Ok Auth.Returned,
     Auth.mkState (Auth.CLIENT_ID st) (Auth.CLIENT_SECRET st) (PStr code)
       (<["STRAVA_REFRESH_TOKEN" := r]> (<["STRAVA_ACCESS_TOKEN" := a]> (Auth.dotenv st)))
       (Auth.trace st ++ opening py_repr st ++ map refusal pre ++
          [EvServe "/callback" 200; EvServerClose; EvPrint EmptyString;
           EvPrint "Got authorization code, exchanging for tokens...";
           EvHttp (exchange_request st (PStr code)) (Ok resp);
           EvPrint EmptyString;
           EvPrint ("Success! Authenticated as: "
                    +:+ py_str_with py_repr (default (PStr EmptyString) (athlete !! "firstname"))
                    +:+ " "
                    +:+ py_str_with py_repr (default (PStr EmptyString) (athlete !! "lastname")));
           EvPrint EmptyString;
           EvSetKey "STRAVA_ACCESS_TOKEN" a;
           EvSetKey "STRAVA_REFRESH_TOKEN" r;
           EvPrint "Tokens saved to .env file!";
           EvPrint EmptyString;
           EvPrint "You can now run: python haddock.py"])).
Proof.
  intros H1 H2 H3 Hc Hp Hcode Hhttp Hs Hj Ha Hr Hath.
  rewrite (auth_main_with_code pre post params code st H1 H2 H3 Hc Hp Hcode).
  unfold bind at 1.
  rewrite (exchange_and_save_ok _ resp tokens athlete a r); try assumption.
  - cbn [Auth.CLIENT_ID Auth.CLIENT_SECRET Auth.auth_code Auth.dotenv Auth.trace].
    unfold ret. rewrite <- !app_assoc. cbn [app]. reflexivity.
  - apply Hhttp.
  - unfold raise_for_status.
    replace (400 <=? status_code resp) with false by (symmetry; apply Z.leb_gt; lia).
    reflexivity.
Qed.

(** When the token endpoint answers the exchange with a status from 400
    to 599, [main] prints the error and the body of the answer and
    returns; the credential file is as before. *)
Theorem auth_reports_exchange_error (pre post : list Auth.inbound)
    (params : gmap string string) (code : string) (st : Auth.state) (resp : response) :
  absent (Auth.CLIENT_ID st) = false ->
  absent (Auth.CLIENT_SECRET st) = false ->
  is_placeholder (Auth.CLIENT_SECRET st) = false ->
  Auth.auth_code st = PNone ->
  Forall (fun r => carries_code r = false) pre ->
  params !! "code" = Some code ->
  (forall tr, http tr (exchange_request st (PStr code)) = Ok resp) ->
  400 <= status_code resp < 600 ->
  Auth.main py_repr str_exn http (pre ++ ("/callback", params) :: post) st
  = (Ok Auth.Returned,
     Auth.mkState (Auth.CLIENT_ID st) (Auth.CLIENT_SECRET st) (PStr code) (Auth.dotenv st)
       (Auth.trace st ++ opening py_repr st ++ map refusal pre ++
          [EvServe "/callback" 200; EvServerClose; EvPrint EmptyString;
           EvPrint "Got authorization code, exchanging for tokens...";
           EvHttp (exchange_request st (PStr code)) (Ok resp);
           EvPrint ("Error exchanging code: "
                    +:+ str_exn (HTTPError (status_code resp) (text resp)));
           EvPrint (text resp)])).
Proof.
  intros H1 H2 H3 Hc Hp Hcode Hhttp Hs.
  rewrite (auth_main_with_code pre post params code st H1 H2 H3 Hc Hp Hcode).
  unfold bind at 1.
  rewrite (exchange_and_save_http_error _ resp); try assumption.
  - cbn [Auth.CLIENT_ID Auth.CLIENT_SECRET Auth.auth_code Auth.dotenv Auth.trace].
    unfold ret. rewrite <- !app_assoc. cbn [app]. reflexivity.
  - apply Hhttp.
Qed.

(** The [try] block up to the answer of the token endpoint, when the
    answer has a status below 400 and a JSON body. *)
Lemma exchange_and_save_answered (st : Auth.state) (resp : response) (v : pyval) :
  http (Auth.trace st) (exchange_request st (Auth.auth_code st)) = Ok resp ->
  status_code resp < 400 ->
  json resp = Some v ->
  forall e,
    (forall c t, e <> HTTPError c t) ->
    (access_token <- py_getitem v "access_token" ;;
     refresh_token <- py_getitem v "refresh_token" ;;
     athlete <- py_get v "athlete" (PDict ∅) ;;
     firstname <- py_get athlete "firstname" (PStr EmptyString) ;;
     Ok tt)%res = Raise e ->
    exists st', Auth.exchange_and_save py_repr str_exn http st = (Raise e, st')
                /\ Auth.dotenv st' = Auth.dotenv st.
Proof.
  intros H Hs Hj e He Hraise.
  assert (Hr : raise_for_status resp = Ok tt).
  { unfold raise_for_status.
    replace (400 <=? status_code resp) with false by (symmetry; apply Z.leb_gt; lia).
    reflexivity. }
  destruct st as [cid csec code dot tr].
  unfold exchange_request in *.
  cbn [Auth.CLIENT_ID Auth.CLIENT_SECRET Auth.auth_code Auth.dotenv Auth.trace] in *.
  unfold Auth.exchange_and_save, Auth.exchange_code_for_tokens.
  unfold bind at 1. unfold read at 1. cbn [Auth.auth_code].
  unfold bind at 1. unfold bind at 1. unfold read at 1. cbn [Auth.CLIENT_ID].
  unfold bind at 1. unfold read at 1. cbn [Auth.CLIENT_SECRET].
  unfold bind at 1. unfold Auth.requests_post at 1. cbn [Auth.trace]. rewrite H.
  unfold bind at 1. unfold lift at 1. rewrite Hr.
  unfold lift at 1. unfold response_json. rewrite Hj.
  unfold bind at 1. unfold lift at 1.
  destruct (py_getitem v "access_token") as [access | e1]; cbn [rbind] in Hraise.
  2:{ injection Hraise as ->. destruct e. all: try (eexists; split; reflexivity). destruct (He _ _ eq_refl). }
  unfold bind at 1. unfold lift at 1.
  destruct (py_getitem v "refresh_token") as [refresh | e1]; cbn [rbind] in Hraise.
  2:{ injection Hraise as ->. destruct e; try (eexists; split; reflexivity). destruct (He _ _ eq_refl). }
  unfold bind at 1. unfold lift at 1.
  destruct (py_get v "athlete" (PDict ∅)) as [ath | e1]; cbn [rbind] in Hraise.
  2:{ injection Hraise as ->. destruct e; try (eexists; split; reflexivity). destruct (He _ _ eq_refl). }
  unfold bind at 1. unfold Auth.print at 1. unfold Auth.note at 1.
  unfold bind at 1. unfold lift at 1.
  destruct (py_get ath "firstname" (PStr "")) as [first | e1]; cbn [rbind] in Hraise;
    [discriminate |].
  injection Hraise as ->. destruct e; try (eexists; split; reflexivity). destruct (He _ _ eq_refl).
Qed.

(** A token answer that lacks a token, or whose athlete is not a record,
    makes [main] raise before anything is written: the handler catches
    HTTP errors only. *)
Theorem auth_incomplete_answer_raises (pre post : list Auth.inbound)
    (params : gmap string string) (code : string) (st : Auth.state) (resp : response)
    (tokens : gmap string pyval) :
  absent (Auth.CLIENT_ID st) = false ->
  absent (Auth.CLIENT_SECRET st) = false ->
  is_placeholder (Auth.CLIENT_SECRET st) = false ->
  Auth.auth_code st = PNone ->
  Forall (fun r => carries_code r = false) pre ->
  params !! "code" = Some code ->
  (forall tr, http tr (exchange_request st (PStr code)) = Ok resp) ->
  status_code resp < 400 ->
  json resp = Some (PDict tokens) ->
  let out := Auth.main py_repr str_exn http (pre ++ ("/callback", params) :: post) st in
  (tokens !! "access_token" = None ->
   fst out = Raise (KeyError "access_token") /\ Auth.dotenv (snd out) = Auth.dotenv st)
  /\ (forall a, tokens !! "access_token" = Some a -> tokens !! "refresh_token" = None ->
      fst out = Raise (KeyError "refresh_token") /\ Auth.dotenv (snd out) = Auth.dotenv st)
  /\ (forall a r, tokens !! "access_token" = Some a -> tokens !! "refresh_token" = Some r ->
      tokens !! "athlete" = Some PNone ->
      fst out = Raise AttributeError /\ Auth.dotenv (snd out) = Auth.dotenv st).
Proof.
  intros H1 H2 H3 Hc Hp Hcode Hhttp Hs Hj out. subst out.
  rewrite (auth_main_with_code pre post params code st H1 H2 H3 Hc Hp Hcode).
  unfold bind at 1.
  set (st2 := Auth.mkState _ _ _ _ _).
  assert (G : forall e, (forall c t, e <> HTTPError c t) ->
            (access_token <- py_getitem (PDict tokens) "access_token" ;;
             refresh_token <- py_getitem (PDict tokens) "refresh_token" ;;
             athlete <- py_get (PDict tokens) "athlete" (PDict ∅) ;;
             firstname <- py_get athlete "firstname" (PStr EmptyString) ;;
             Ok tt)%res = Raise e ->
            let out := (let (r, st') := Auth.exchange_and_save py_repr str_exn http st2 in
                        match r with
                        | Ok _ => ret Auth.Returned st'
                        | Raise e0 => (Raise e0, st')
                        end) in
            fst out = Raise e /\ Auth.dotenv (snd out) = Auth.dotenv st).
  { intros e He Hraise.
    destruct (exchange_and_save_answered st2 resp (PDict tokens) (Hhttp _) Hs Hj e He Hraise)
      as (st3 & E1 & E2).
    rewrite E1. cbn [fst snd]. split; [reflexivity | exact E2]. }
  cbv zeta in G.
  split; [| split].
  - intros Ha. apply G; [discriminate |]. cbn [py_getitem]. rewrite Ha. reflexivity.
  - intros a Ha Hr. apply G; [discriminate |]. cbn [py_getitem]. rewrite Ha, Hr. reflexivity.
  - intros a r Ha Hr Hath. apply G; [discriminate |].
    cbn [py_getitem py_get rbind]. rewrite Ha, Hr, Hath. reflexivity.
Qed.

End Listener.

(** ** What the flow sends *)

Section OneRequest.

Variable py_repr : pyval -> string.
Variable str_exn : exn -> string.
Variable http : list event -> request -> result response.

Lemma sent_app (evs1 evs2 : list event) : sent (evs1 ++ evs2) = (sent evs1 ++ sent evs2)%list.
Proof.
  induction evs1 as [| ev evs1 IH]; [reflexivity |].
  destruct ev as [line | m endpoint kw | req ans | key value | prompt ans | u |
                  | path status |]; cbn [app sent]; rewrite IH; reflexivity.
Qed.

(** The listener sends nothing and leaves the credentials alone; when it
    stops, the code it holds came with one of the requests. *)
Lemma wait_for_code_quiet (pending : list Auth.inbound) (st : Auth.state) :
  Auth.auth_code st = PNone ->
  exists (got : bool) (code : pyval) (serves : list event),
    Auth.wait_for_code pending st
    = (Ok got, Auth.mkState (Auth.CLIENT_ID st) (Auth.CLIENT_SECRET st) code (Auth.dotenv st)
                 (Auth.trace st ++ serves))
    /\ sent serves = []
    /\ (got = true ->
        exists path params c, In (path, params) pending /\ params !! "code" = Some c
                              /\ code = PStr c).
Proof.
  revert st. induction pending as [| r rest IH]; intros st Hc.
  - exists false, PNone, []. destruct st as [cid csec code dot tr]. cbn in Hc. subst code.
    cbn [Auth.wait_for_code Auth.auth_code Auth.CLIENT_ID Auth.CLIENT_SECRET Auth.dotenv
         Auth.trace]. rewrite app_nil_r. repeat split. discriminate.
  - destruct (carries_code r) eqn:E.
    + destruct r as [path params]. unfold carries_code in E. cbn [fst snd] in E.
      apply andb_true_iff in E. destruct E as [Ep Ecode].
      destruct (params !! "code") as [c |] eqn:Hcode; [| discriminate].
      exists true, (PStr c), [EvServe path 200].
      cbn [Auth.wait_for_code]. rewrite Hc. unfold bind at 1. unfold Auth.do_GET.
      rewrite Ep, Hcode. unfold bind at 1. unfold Auth.set_auth_code, Auth.note, Auth.log.
      cbn [Auth.CLIENT_ID Auth.CLIENT_SECRET Auth.dotenv Auth.trace Auth.auth_code].
      split; [destruct rest; reflexivity |]. split; [reflexivity |].
      intros _. exists path, params, c. split; [left; reflexivity | split; auto].
    + cbn [Auth.wait_for_code]. rewrite Hc. unfold bind at 1.
      rewrite (do_GET_refused r st E).
      destruct (IH (Auth.log (refusal r) st) Hc) as (got & code & serves & Hw & Hs & Hg).
      exists got, code, (refusal r :: serves). rewrite Hw.
      destruct st as [cid csec code0 dot tr].
      cbn [Auth.log Auth.CLIENT_ID Auth.CLIENT_SECRET Auth.dotenv Auth.trace].
      rewrite <- app_assoc. split; [reflexivity |]. split; [exact Hs |].
      intros Hgot. destruct (Hg Hgot) as (path & params & c & Hin & Hp & Hcode).
      exists path, params, c. split; [right; exact Hin | split; assumption].
Qed.


Ltac auth_norm :=
  cbv [Auth.log Auth.CLIENT_ID Auth.CLIENT_SECRET Auth.auth_code Auth.dotenv Auth.trace];
  rewrite <- ?app_assoc; cbn [app].

Ltac auth_done :=
  auth_norm; eexists _, _, _; split; [reflexivity | reflexivity].

(** The [try] block sends the exchange and nothing else, whatever the
    answer, and leaves the credentials of the process alone. *)
Lemma exchange_and_save_one_request (st : Auth.state) :
  let req := exchange_request st (Auth.auth_code st) in
  exists (res : result unit) (dot : gmap string string) (evs : list event),
    Auth.exchange_and_save py_repr str_exn http st
    = (res, Auth.mkState (Auth.CLIENT_ID st) (Auth.CLIENT_SECRET st) (Auth.auth_code st) dot
              (Auth.trace st ++ EvHttp req (http (Auth.trace st) req) :: evs))
    /\ sent evs = [].
Proof.
  destruct st as [cid csec code dot tr]. unfold exchange_request.
  cbn [Auth.CLIENT_ID Auth.CLIENT_SECRET Auth.auth_code Auth.dotenv Auth.trace]. cbv zeta.
  unfold Auth.exchange_and_save, Auth.exchange_code_for_tokens, bind, read, lift,
    Auth.requests_post, Auth.print, Auth.note, Auth.set_key.
  cbn [Auth.CLIENT_ID Auth.CLIENT_SECRET Auth.auth_code Auth.dotenv Auth.trace].
  destruct (http tr _) as [resp | e].
  2:{ destruct e; auth_done. }
  destruct (raise_for_status resp) as [[] | e].
  2:{ destruct e; auth_done. }
  destruct (response_json resp) as [tokens | e].
  2:{ destruct e; auth_done. }
  destruct (py_getitem tokens "access_token") as [access | e].
  2:{ destruct e; auth_done. }
  destruct (py_getitem tokens "refresh_token") as [refresh | e].
  2:{ destruct e; auth_done. }
  destruct (py_get tokens "athlete" (PDict ∅)) as [athlete | e].
  2:{ destruct e; auth_done. }
  destruct (py_get athlete "firstname" (PStr "")) as [first | e].
  2:{ destruct e; auth_done. }
  destruct (py_get athlete "lastname" (PStr "")) as [last | e].
  2:{ destruct e; auth_done. }
  destruct access as [| b | z | f | a | l | d]; try auth_done.
  destruct refresh as [| b | z | f | r | l | d]; auth_done.
Qed.


Lemma auth_added_app (st st' : Auth.state) (evs : list event) :
  Auth.trace st' = (Auth.trace st ++ evs)%list -> auth_added st st' = evs.
Proof. intros H. unfold auth_added. rewrite H. apply drop_app_length. Qed.

(** Whatever reaches the listener and whatever the token endpoint
    answers, a run of [main] sends nothing, or one request: the exchange
    of a code that came with one of the requests, with the credentials
    the process started with. *)
Theorem auth_sends_at_most_one_request (pending : list Auth.inbound) (st : Auth.state) :
  Auth.auth_code st = PNone ->
  let out := Auth.main py_repr str_exn http pending st in
  sent (auth_added st (snd out)) = []
  \/ exists path params code,
       In (path, params) pending /\ params !! "code" = Some code
       /\ sent (auth_added st (snd out)) = [exchange_request st (PStr code)].
Proof.
  intros Hc out.
  assert (Eout : out = Auth.main py_repr str_exn http pending st) by reflexivity.
  clearbody out.
  destruct (negb (truthy (Auth.CLIENT_ID st)) || negb (truthy (Auth.CLIENT_SECRET st))
            || match Auth.CLIENT_SECRET st with
               | PStr s => String.eqb s "your_client_secret_here"
               | _ => false
               end) eqn:G.
  - left. unfold Auth.main in Eout. rewrite G in Eout.
    unfold bind, Auth.print, Auth.note, ret in Eout. subst out. cbn [snd].
    erewrite auth_added_app; [| cbn [Auth.trace Auth.log]; rewrite <- app_assoc; reflexivity].
    reflexivity.
  - apply orb_false_iff in G. destruct G as [G G3].
    apply orb_false_iff in G. destruct G as [G1 G2].
    rewrite (auth_main_opening py_repr str_exn http pending st G1 G2 G3) in Eout.
    unfold bind at 1 in Eout.
    set (st1 := Auth.mkState _ _ _ _ _) in Eout.
    destruct (wait_for_code_quiet pending st1 Hc) as (got & code & serves & Hw & Hs & Hg).
    rewrite Hw in Eout. subst st1.
    cbn [Auth.CLIENT_ID Auth.CLIENT_SECRET Auth.dotenv Auth.trace] in Eout.
    destruct got.
    + right. destruct (Hg eq_refl) as (path & params & c & Hin & Hp & ->).
      exists path, params, c. split; [exact Hin | split; [exact Hp |]].
      unfold bind at 1 in Eout. unfold Auth.note at 1 in Eout.
      unfold bind at 1 in Eout. unfold Auth.print at 1 in Eout. unfold Auth.note at 1 in Eout.
      unfold bind at 1 in Eout. unfold Auth.print at 1 in Eout. unfold Auth.note at 1 in Eout.
      unfold bind at 1 in Eout.
      cbv [Auth.log Auth.CLIENT_ID Auth.CLIENT_SECRET Auth.auth_code Auth.dotenv Auth.trace]
        in Eout.
      match type of Eout with
      | context [Auth.exchange_and_save _ _ _ ?s] => set (st3 := s) in Eout
      end.
      destruct (exchange_and_save_one_request st3) as (res & dot & evs & He & Hevs).
      rewrite He in Eout. subst st3.
      cbn [Auth.CLIENT_ID Auth.CLIENT_SECRET Auth.auth_code Auth.dotenv Auth.trace] in *.
      assert (Ht : Auth.trace (snd out)
                   = (Auth.trace st ++ opening py_repr st ++ serves
                        ++ [EvServerClose; EvPrint EmptyString;
                            EvPrint "Got authorization code, exchanging for tokens..."]
                        ++ EvHttp (exchange_request st (PStr c))
                             (http (((((Auth.trace st ++ opening py_repr st) ++ serves)
                                        ++ [EvServerClose]) ++ [EvPrint EmptyString])
                                      ++ [EvPrint "Got authorization code, exchanging for tokens..."])
                                (exchange_request st (PStr c))) :: evs)%list).
      { subst out. destruct res as [[] | e]; cbn [snd Auth.trace ret];
          unfold exchange_request;
          cbn [Auth.CLIENT_ID Auth.CLIENT_SECRET Auth.auth_code];
          rewrite <- !app_assoc; reflexivity. }
      rewrite (auth_added_app st _ _ Ht).
      rewrite !sent_app, Hs. cbn [sent app]. rewrite Hevs. reflexivity.
    + left. subst out. cbn [snd ret].
      erewrite auth_added_app;
        [| cbn [Auth.trace]; rewrite <- app_assoc; reflexivity].
      rewrite !sent_app, Hs. reflexivity.
Qed.

End OneRequest.

(** * Further runs in the sample worlds *)

(** A run of the wrapper against a service that answers 403: one
    request, the error raised, no refresh. *)
Lemma strava_request_without_refresh_witness :
  run_list forbidden
  = (Raise (HTTPError 403 EmptyString),
     Haddock.log (EvHttp (list_request "oldA") (answered 403 None))
       (Haddock.log (EvStravaRequest "GET" "/athlete/activities"
                       (QueryParams [("per_page", PInt 1)])) st0)).
Proof.
  apply (strava_request_without_refresh repr0 forbidden st0 "GET" "/athlete/activities"
           (QueryParams [("per_page", PInt 1)])).
  intros r E. injection E as <-. discriminate.
Defined.

(** A run with a refresh answer that holds the access token only. *)
Lemma refresh_without_refresh_token_is_half_written_witness :
  let out := run_list (expired_world (answered 200 (Some (PDict access_only)))
                         (answered 200 (Some (PList [])))) in
  fst out = Raise (KeyError "refresh_token")
  /\ Haddock.dotenv (snd out) = <["STRAVA_ACCESS_TOKEN" := "newA"]> ∅
  /\ Haddock.STRAVA_ACCESS_TOKEN (snd out) = PStr "oldA"
  /\ sent (added st0 (snd out)) = [list_request "oldA"; refresh_request st0].
Proof.
  exact (refresh_without_refresh_token_is_half_written repr0
           (expired_world (answered 200 (Some (PDict access_only)))
              (answered 200 (Some (PList []))))
           st0 "GET" "/athlete/activities" (QueryParams [("per_page", PInt 1)])
           (mkResponse 401 EmptyString None)
           (mkResponse 200 EmptyString (Some (PDict access_only))) access_only "newA"
           eq_refl eq_refl eq_refl eq_refl eq_refl eq_refl eq_refl).
Defined.

(** Runs of [main] without an access token, and with the placeholder as
    API key. *)
Lemma main_missing_credentials_witness :
  let st1 := Haddock.mkState (PStr "client") (PStr "secret") PNone (PStr "startR")
               (PStr "sk-key") ∅ [] in
  let st2 := Haddock.mkState (PStr "client") (PStr "secret") (PStr "oldA") (PStr "startR")
               (PStr "your_anthropic_api_key_here") ∅ [] in
  let a := Haddock.mkArgs false None None in
  Haddock.main repr0 forbidden no_llm a st1
  = (Ok tt, Haddock.log (EvPrint "ERROR: No Strava access token. Run 'python auth.py' first.") st1)
  /\ Haddock.main repr0 forbidden no_llm a st2
     = (Ok tt, Haddock.log (EvPrint "Get your key from: https://console.anthropic.com/")
                 (Haddock.log (EvPrint "ERROR: Set ANTHROPIC_API_KEY in .env file") st2)).
Proof.
  intros st1 st2 a. split.
  - exact (proj1 (main_missing_credentials repr0 forbidden no_llm a st1) eq_refl).
  - exact (proj2 (main_missing_credentials repr0 forbidden no_llm a st2) eq_refl
             (or_intror eq_refl)).
Defined.

(** The sample state passes the checks of [main]. *)
Lemma st0_credentials : credentials_present st0.
Proof. repeat split; try reflexivity; discriminate. Qed.

(** Runs of [main] in the three modes against a service that lists two
    activities. *)
Lemma main_specific_activity_witness :
  let a := Haddock.mkArgs true (Some 2) (Some 5) in
  let req := mkRequest "GET" "https://www.strava.com/api/v3/activities/2"
               (Some "Bearer oldA") NoPayload in
  Haddock.main repr0 (serving ride_2) always_llm a st0
  = Haddock.for_each_activity repr0 (serving ride_2) always_llm a [ride_2]
      (Haddock.log (EvHttp req (answered 200 (Some ride_2)))
         (Haddock.log (EvStravaRequest "GET" "/activities/2" NoPayload)
            (Haddock.log (EvPrint "Fetching activity from Strava...") st0))).
Proof.
  exact (main_specific_activity repr0 (serving ride_2) always_llm true 2 (Some 5) st0
           (mkResponse 200 EmptyString (Some ride_2)) ride_2 st0_credentials
           ltac:(discriminate) eq_refl ltac:(cbn; lia) eq_refl).
Defined.

(** The same service asked for the last two activities. *)
Lemma main_last_n_activities_witness :
  let a := Haddock.mkArgs true None (Some 2) in
  let kw := QueryParams [("per_page", PInt 2)] in
  let req := mkRequest "GET" "https://www.strava.com/api/v3/athlete/activities"
               (Some "Bearer oldA") kw in
  Haddock.main repr0 (serving (PList [run_1; ride_2])) always_llm a st0
  = Haddock.for_each_activity repr0 (serving (PList [run_1; ride_2])) always_llm a
      [run_1; ride_2]
      (Haddock.log (EvHttp req (answered 200 (Some (PList [run_1; ride_2]))))
         (Haddock.log (EvStravaRequest "GET" "/athlete/activities" kw)
            (Haddock.log (EvPrint "Fetching activity from Strava...") st0))).
Proof.
  exact (main_last_n_activities repr0 (serving (PList [run_1; ride_2])) always_llm true 2 st0
           (mkResponse 200 EmptyString (Some (PList [run_1; ride_2]))) run_1 [ride_2]
           st0_credentials ltac:(discriminate) eq_refl ltac:(cbn; lia) eq_refl).
Defined.

(** The same service asked for the latest activity: the second element
    of the list is not processed. *)
Lemma main_latest_activity_witness :
  let a := Haddock.mkArgs true None None in
  let kw := QueryParams [("per_page", PInt 1)] in
  Haddock.main repr0 (serving (PList [run_1; ride_2])) always_llm a st0
  = Haddock.for_each_activity repr0 (serving (PList [run_1; ride_2])) always_llm a [run_1]
      (Haddock.log (EvHttp (list_request "oldA") (answered 200 (Some (PList [run_1; ride_2]))))
         (Haddock.log (EvStravaRequest "GET" "/athlete/activities" kw)
            (Haddock.log (EvPrint "Fetching activity from Strava...") st0))).
Proof.
  exact (main_latest_activity repr0 (serving (PList [run_1; ride_2])) always_llm true st0
           (mkResponse 200 EmptyString (Some (PList [run_1; ride_2]))) run_1 [ride_2]
           st0_credentials eq_refl ltac:(cbn; lia) eq_refl).
Defined.

(** A batch whose second record has no identifier. *)
Lemma activity_without_id_stops_batch_witness :
  let a := Haddock.mkArgs true None (Some 3) in
  let http := serving (PList [run_1; PDict no_id; walk_3]) in
  let st1 := snd (Haddock.process_activity repr0 http always_llm a run_1 st0) in
  Haddock.for_each_activity repr0 http always_llm a [run_1; PDict no_id; walk_3] st0
  = (Raise (KeyError "id"), st1).
Proof.
  intros a http st1.
  assert (Hfirst : Haddock.process_activity repr0 http always_llm a run_1 st0
                   = (Ok Haddock.Next, st1)) by (vm_compute; reflexivity).
  exact (proj1 (activity_without_id_stops_batch repr0 http always_llm a [run_1] [walk_3]
                  (PDict no_id) st0 st1
                  (reaches_cons _ _ _ _ run_1 [] st0 st1 st1 Hfirst
                     (reaches_nil _ _ _ _ st1)))
           no_id eq_refl eq_refl).
Defined.

(** Two records that differ in fields the summary does not read. *)
Lemma build_workout_summary_reads_ten_fields_witness :
  let d : gmap string pyval :=
    <["id" := PInt 1]> (<["type" := PStr "Run"]> (<["distance" := PInt 5000]> ∅)) in
  let d' : gmap string pyval :=
    <["id" := PInt 2]> (<["start_date_local" := PStr "2024-05-01T07:00:00Z"]>
                          (<["type" := PStr "Run"]> (<["distance" := PInt 5000]> ∅))) in
  Haddock.build_workout_summary repr0 (PDict d) = Haddock.build_workout_summary repr0 (PDict d').
Proof.
  intros d d'. apply build_workout_summary_reads_ten_fields.
  intros k Hk. unfold summary_fields in Hk. cbn [In] in Hk.
  destruct Hk as [<- | [<- | [<- | [<- | [<- | [<- | [<- | [<- | [<- | [<- | []]]]]]]]]]];
    vm_compute; reflexivity.
Defined.

(** A record with a [null] description, and one with a [null] duration. *)
Lemma build_workout_summary_null_fields_witness :
  let d : gmap string pyval := <["description" := PNone]> (<["type" := PStr "Ride"]> ∅) in
  let d' : gmap string pyval := <["elapsed_time" := PNone]> (<["type" := PStr "Ride"]> ∅) in
  Haddock.build_workout_summary repr0 (PDict d)
  = Haddock.build_workout_summary repr0 (PDict (delete "description" d))
  /\ Haddock.build_workout_summary repr0 (PDict d') = Raise TypeError.
Proof.
  intros d d'. split.
  - apply (proj1 (build_workout_summary_null_fields repr0 d "description" eq_refl)).
    unfold optional_fields. cbn [In]. tauto.
  - exact (proj2 (build_workout_summary_null_fields repr0 d' "elapsed_time" eq_refl) eq_refl).
Defined.

(** The listener is reached by a stray request, by a callback with an
    error, then by the callback with the code; a later callback is not
    served. *)
Lemma wait_for_code_serves_until_code_witness :
  Auth.wait_for_code (strays ++ ("/callback", code_params) :: [("/callback", code_params)])
    auth_st
  = (Ok true,
     Auth.mkState (PStr "12345") (PStr "s3cr3t") (PStr "abc") ∅
       [EvServe "/favicon.ico" 404; EvServe "/callback" 400; EvServe "/callback" 200])
  /\ Auth.wait_for_code strays auth_st
     = (Ok false,
        Auth.mkState (PStr "12345") (PStr "s3cr3t") PNone ∅
          [EvServe "/favicon.ico" 404; EvServe "/callback" 400]).
Proof.
  assert (Hs : Forall (fun r => carries_code r = false) strays)
    by (repeat constructor).
  destruct (wait_for_code_serves_until_code strays [("/callback", code_params)] code_params
              auth_st eq_refl Hs) as [H1 H2].
  split; [exact (H1 "abc" eq_refl) | exact H2].
Defined.

(** The user never consents: the flow is still waiting. *)
Lemma auth_blocks_without_code_witness :
  Auth.main repr0 (fun _ => EmptyString) refusing strays auth_st
  = (Ok Auth.Blocked,
     Auth.mkState (PStr "12345") (PStr "s3cr3t") PNone ∅
       (opening repr0 auth_st ++ [EvServe "/favicon.ico" 404; EvServe "/callback" 400])).
Proof.
  exact (auth_blocks_without_code repr0 (fun _ => EmptyString) refusing strays auth_st
           eq_refl eq_refl eq_refl eq_refl ltac:(repeat constructor)).
Defined.

(** The callback comes third; the token endpoint answers with a pair. *)
Lemma auth_saves_tokens_witness :
  Auth.main repr0 (fun _ => EmptyString) (fun _ _ => token_answer)
    (strays ++ [("/callback", code_params)]) auth_st
  = (Ok Auth.Returned,
     Auth.mkState (PStr "12345") (PStr "s3cr3t") (PStr "abc")
       (<["STRAVA_REFRESH_TOKEN" := "newR"]> (<["STRAVA_ACCESS_TOKEN" := "newA"]> ∅))
       (opening repr0 auth_st ++
          [EvServe "/favicon.ico" 404; EvServe "/callback" 400;
           EvServe "/callback" 200; EvServerClose; EvPrint EmptyString;
           EvPrint "Got authorization code, exchanging for tokens...";
           EvHttp (exchange_request auth_st (PStr "abc")) token_answer;
           EvPrint EmptyString;
           EvPrint "Success! Authenticated as:  ";
           EvPrint EmptyString;
           EvSetKey "STRAVA_ACCESS_TOKEN" "newA";
           EvSetKey "STRAVA_REFRESH_TOKEN" "newR";
           EvPrint "Tokens saved to .env file!";
           EvPrint EmptyString;
           EvPrint "You can now run: python haddock.py"])).
Proof.
  exact (auth_saves_tokens repr0 (fun _ => EmptyString) (fun _ _ => token_answer) strays []
           code_params "abc" auth_st
           (mkResponse 200 EmptyString
              (Some (PDict (<["access_token" := PStr "newA"]>
                              (<["refresh_token" := PStr "newR"]> ∅)))))
           (<["access_token" := PStr "newA"]> (<["refresh_token" := PStr "newR"]> ∅))
           ∅ "newA" "newR"
           eq_refl eq_refl eq_refl eq_refl ltac:(repeat constructor) eq_refl
           (fun _ => eq_refl) ltac:(cbn; lia) eq_refl eq_refl eq_refl eq_refl).
Defined.

(** The token endpoint answers 400. *)
Lemma auth_reports_exchange_error_witness :
  Auth.main repr0 (fun _ => "400 Client Error") refusing
    (strays ++ [("/callback", code_params)]) auth_st
  = (Ok Auth.Returned,
     Auth.mkState (PStr "12345") (PStr "s3cr3t") (PStr "abc") ∅
       (opening repr0 auth_st ++
          [EvServe "/favicon.ico" 404; EvServe "/callback" 400;
           EvServe "/callback" 200; EvServerClose; EvPrint EmptyString;
           EvPrint "Got authorization code, exchanging for tokens...";
           EvHttp (exchange_request auth_st (PStr "abc"))
             (Ok (mkResponse 400 "Bad Request" None));
           EvPrint "Error exchanging code: 400 Client Error";
           EvPrint "Bad Request"])).
Proof.
  exact (auth_reports_exchange_error repr0 (fun _ => "400 Client Error") refusing strays []
           code_params "abc" auth_st (mkResponse 400 "Bad Request" None)
           eq_refl eq_refl eq_refl eq_refl ltac:(repeat constructor) eq_refl
           (fun _ => eq_refl) ltac:(cbn; lia)).
Defined.

(** The token endpoint answers with an access token only. *)
Lemma auth_incomplete_answer_raises_witness :
  let http := fun (_ : list event) (_ : request) =>
                answered 200 (Some (PDict access_only)) in
  let out := Auth.main repr0 (fun _ => EmptyString) http
               (strays ++ [("/callback", code_params)]) auth_st in
  fst out = Raise (KeyError "refresh_token") /\ Auth.dotenv (snd out) = ∅.
Proof.
  intros http.
  exact (proj1 (proj2 (auth_incomplete_answer_raises repr0 (fun _ => EmptyString) http strays []
                         code_params "abc" auth_st
                         (mkResponse 200 EmptyString (Some (PDict access_only))) access_only
                         eq_refl eq_refl eq_refl eq_refl ltac:(repeat constructor) eq_refl
                         (fun _ => eq_refl) ltac:(cbn; lia) eq_refl))
           (PStr "newA") eq_refl eq_refl).
Defined.

(** The same run, seen by what it sends. *)
Lemma auth_sends_at_most_one_request_witness :
  let out := Auth.main repr0 (fun _ => EmptyString) (fun _ _ => token_answer)
               (strays ++ [("/callback", code_params)]) auth_st in
  sent (auth_added auth_st (snd out)) = []
  \/ exists path params code,
       In (path, params) (strays ++ [("/callback", code_params)])
       /\ params !! "code" = Some code
       /\ sent (auth_added auth_st (snd out)) = [exchange_request auth_st (PStr code)].
Proof.
  exact (auth_sends_at_most_one_request repr0 (fun _ => EmptyString) (fun _ _ => token_answer)
           (strays ++ [("/callback", code_params)]) auth_st eq_refl).
Defined.
